(** * OCR extraction and consolidation pipeline (scripts/ocr_integration.py)

    A shallow embedding of the decision logic of [ocr_integration.py]:
    the response parser, the quality evaluator, the retry decorator and the
    consolidator, followed by the properties established about them.

    Conventions of the embedding.
    - A Python [str] is a [string] whose characters are the code points
      below 256 (the Latin-1 block); [isspace], [lower] and [upper] follow
      Python's [str] methods on that block.
    - A Python [dict] is an association list in insertion order.
    - Values are [None], booleans, integers and strings; JSON arrays, objects
      and non-integer numbers are outside the modelled values.
    - A [float] is read as the rational number it stands for ([Q]).  The
      quality score is computed in binary64 arithmetic, with the rounding of
      each operation; delays and the confidence score of the profile are
      computed on the rationals.
    - The regular-expression engine, the JSON decoder and the iteration order
      of a [set] are collaborators of the program and are taken as Section
      variables: every theorem holds for all of them.
    - The two validators of document numbers are compared on any text: there
      a text is the list of its code points and the table of decimal digits
      is a parameter.
    - Logging and the [processed_at] time stamps are left out. *)

From Stdlib Require Import String Ascii List Bool Arith ZArith QArith Lia.
From Stdlib Require Import DecimalString.
From Stdlib Require Import Floats.SpecFloat.
Import ListNotations.
Close Scope Q_scope.
Open Scope string_scope.

(** ** Python strings *)

Module PyStr.

(** [str.isspace] on one character: TAB..CR, FS..US, space, NEL and NBSP. *)
Definition isspace (c : ascii) : bool :=
  let n := nat_of_ascii c in
  (((9 <=? n) && (n <=? 13)) || ((28 <=? n) && (n <=? 32))
   || (n =? 133) || (n =? 160))%nat.

Fixpoint lstrip (s : string) : string :=
  match s with
  | EmptyString => EmptyString
  | String c s' => if isspace c then lstrip s' else s
  end.

Fixpoint rstrip (s : string) : string :=
  match s with
  | EmptyString => EmptyString
  | String c s' =>
      match rstrip s' with
      | EmptyString => if isspace c then EmptyString else String c EmptyString
      | r => String c r
      end
  end.

(** [s.strip()] *)
Definition strip (s : string) : string := lstrip (rstrip s).

(** [str.lower] on one character: A-Z and the accented capitals
    (U+00C0..U+00DE except the multiplication sign). *)
Definition lower_char (c : ascii) : ascii :=
  let n := nat_of_ascii c in
  if (((65 <=? n) && (n <=? 90))
      || ((192 <=? n) && (n <=? 222) && negb (n =? 215)))%nat
  then ascii_of_nat (n + 32) else c.

Fixpoint lower (s : string) : string :=
  match s with
  | EmptyString => EmptyString
  | String c s' => String (lower_char c) (lower s')
  end.

(** [str.upper]: a-z and the accented small letters; the sharp s becomes
    [SS]; the micro sign and y-diaeresis, whose capitals lie outside the
    block, are kept. *)
Fixpoint upper (s : string) : string :=
  match s with
  | EmptyString => EmptyString
  | String c s' =>
      let n := nat_of_ascii c in
      if (n =? 223)%nat then String "S" (String "S" (upper s'))
      else if (((97 <=? n) && (n <=? 122))
               || ((224 <=? n) && (n <=? 254) && negb (n =? 247)))%nat
           then String (ascii_of_nat (n - 32)) (upper s')
           else String c (upper s')
  end.

(** [s.startswith(p)] *)
Fixpoint startswith (s p : string) : bool :=
  match p with
  | EmptyString => true
  | String a p' =>
      match s with
      | EmptyString => false
      | String b s' => Ascii.eqb a b && startswith s' p'
      end
  end.

Fixpoint rev_onto (s acc : string) : string :=
  match s with
  | EmptyString => acc
  | String c s' => rev_onto s' (String c acc)
  end.

(** [s.endswith(p)] *)
Definition endswith (s p : string) : bool :=
  startswith (rev_onto s EmptyString) (rev_onto p EmptyString).

(** [sub in s] *)
Fixpoint contains (sub s : string) : bool :=
  startswith s sub
  || match s with
     | EmptyString => false
     | String _ s' => contains sub s'
     end.

(** [s in l] for a list of strings *)
Definition mem (s : string) (l : list string) : bool :=
  existsb (String.eqb s) l.

Definition nonempty (s : string) : bool :=
  match s with EmptyString => false | _ => true end.

(** [s.split(sep)] for a one-character separator. *)
Fixpoint split_on (sep : ascii) (s : string) : list string :=
  match s with
  | EmptyString => [EmptyString]
  | String c s' =>
      if Ascii.eqb c sep then EmptyString :: split_on sep s'
      else match split_on sep s' with
           | w :: ws => String c w :: ws
           | [] => [String c EmptyString]
           end
  end.

(** [s.split()]: the maximal runs of characters that are not white space. *)
Fixpoint split_ws_aux (s cur : string) : list string :=
  match s with
  | EmptyString =>
      if nonempty cur then [rev_onto cur EmptyString] else []
  | String c s' =>
      if isspace c
      then if nonempty cur
           then rev_onto cur EmptyString :: split_ws_aux s' EmptyString
           else split_ws_aux s' EmptyString
      else split_ws_aux s' (String c cur)
  end.

Definition split_ws (s : string) : list string := split_ws_aux s EmptyString.

(** [sep.join(l)] *)
Fixpoint join (sep : string) (l : list string) : string :=
  match l with
  | [] => EmptyString
  | [x] => x
  | x :: rest => x ++ sep ++ join sep rest
  end.

(** [str(n)] for a natural number and for an integer. *)
Definition of_nat (n : nat) : string := NilZero.string_of_uint (Nat.to_uint n).
Definition of_Z (z : Z) : string := NilZero.string_of_int (Z.to_int z).

(** Letters with an accent, by code point. *)
Definition I_acute : string := String "205" EmptyString.
Definition i_acute : string := String "237" EmptyString.
Definition o_acute : string := String "243" EmptyString.
Definition a_tilde : string := String "227" EmptyString.
Definition dquote : string := String "034" EmptyString.

End PyStr.
Import PyStr.

(** ** Python floats *)

(** A [float] is a binary64 number: precision 53, largest exponent 1024,
    every operation rounded to the nearest number, ties to even. *)
Module PyFloat.

Definition prec : Z := 53.
Definition emax : Z := 1024.

(** [float(n)] for an integer [n]; exact below 2^53. *)
Definition of_nat (n : nat) : spec_float :=
  binary_normalize prec emax (Z.of_nat n) 0 false.

(** [x / y] and [x * y] on floats.  The quotient of two integers below
    2^53 is the quotient of their floats. *)
Definition div (x y : spec_float) : spec_float := SFdiv prec emax x y.
Definition mul (x y : spec_float) : spec_float := SFmul prec emax x y.

(** The rational number that a finite float stands for. *)
Definition value (x : spec_float) : Q :=
  match x with
  | S754_finite s m e =>
      ((if s then -1 else 1) * inject_Z (Z.pos m) * 2 ^ e)%Q
  | _ => 0%Q
  end.

End PyFloat.

(** ** Python values and dictionaries *)

Inductive pyval : Type :=
| PNone
| PBool (b : bool)
| PInt (z : Z)
| PStr (s : string).

(** Truth value of a value in a condition. *)
Definition truthy (v : pyval) : bool :=
  match v with
  | PNone => false
  | PBool b => b
  | PInt z => negb (z =? 0)%Z
  | PStr s => nonempty s
  end.

(** [str(v)] *)
Definition py_str (v : pyval) : string :=
  match v with
  | PNone => "None"
  | PBool true => "True"
  | PBool false => "False"
  | PInt z => of_Z z
  | PStr s => s
  end.

(** [a or b] *)
Definition py_or (a b : pyval) : pyval := if truthy a then a else b.

Definition dict (V : Type) : Type := list (string * V).

Fixpoint lookup {V} (d : dict V) (k : string) : option V :=
  match d with
  | [] => None
  | (k', v) :: d' => if String.eqb k k' then Some v else lookup d' k
  end.

(** [d.get(k)] on a dictionary of values: [None] when the key is missing. *)
Definition dict_get (d : dict pyval) (k : string) : pyval :=
  match lookup d k with Some v => v | None => PNone end.

(** [d[k] = v]: the value is replaced in place, a new key goes last. *)
Fixpoint dict_set {V} (d : dict V) (k : string) (v : V) : dict V :=
  match d with
  | [] => [(k, v)]
  | (k', v') :: d' =>
      if String.eqb k k' then (k', v) :: d' else (k', v') :: dict_set d' k v
  end.

(** [d.update(u)] *)
Definition dict_update {V} (d u : dict V) : dict V :=
  fold_left (fun acc kv => dict_set acc (fst kv) (snd kv)) u d.

Definition keys {V} (d : dict V) : list string := map fst d.
Definition values {V} (d : dict V) : list V := map snd d.

(** ** Results of one document *)

(** [quality_metrics] of a result. *)
Record quality : Type := mk_quality {
  score : Q;
  valid_fields : nat;
  total_required : nat;
  found_fields : list string;
  missing_required : list string;
  is_acceptable : bool;
  needs_retry : bool
}.

(** The result dictionary of [process_document] and of the retry decorator.
    A key that a given result does not carry is [None]; ['success'] is set
    by every place that builds a result. *)
Record ocr_result : Type := mk_result {
  success : bool;
  document_type : option string;
  raw_text : option string;
  parsed_data : option (dict pyval);
  error : option string;
  quality_metrics : option quality;
  retry_reason : option string;
  retry_attempts : option nat;
  last_error : option string
}.

(** ** Field schema and quality evaluation ([validate_ocr_result]) *)

Definition ILEGIVEL : string := "[ILEG" ++ I_acute ++ "VEL]".
Definition REVISAR : string := "[REVISAR]".

(** [quality_checks]: required fields and [min_fields] per document type. *)
Definition quality_checks : dict (list string * nat) :=
  [ ("rg", (["nome_completo"; "data_nascimento"; "cpf"], 2));
    ("cnpj", (["empresa"; "cnpj"; "nome_comprovante"], 2));
    ("address", (["cep"; "complemento"], 1)) ].

(** The test of the counting loop:
    [value and str(value).strip() and str(value) not in [...]]. *)
Definition field_is_valid (value : pyval) : bool :=
  truthy value
  && nonempty (strip (py_str value))
  && negb (mem (py_str value) [ILEGIVEL; REVISAR; "null"]).

(** State of the counting loop: [valid_fields], [missing_required],
    [found_fields]. *)
Definition count_step (parsed : dict pyval)
    (st : nat * list string * list string) (field : string)
    : nat * list string * list string :=
  let '(valid, missing, found) := st in
  if field_is_valid (dict_get parsed field)
  then (S valid, missing, (found ++ [field])%list)
  else (valid, (missing ++ [field])%list, found).

Definition count_fields (parsed : dict pyval) (required : list string)
    : nat * list string * list string :=
  fold_left (count_step parsed) required (0%nat, [], []).

(** [(valid_fields / len(required_fields)) * 100]: a quotient of two
    integers rounded to a float, then a product of floats rounded again.
    The schemas of [quality_checks] have at least two fields, so the
    divisor is never 0. *)
Definition quality_score (valid total : nat) : Q :=
  PyFloat.value
    (PyFloat.mul (PyFloat.div (PyFloat.of_nat valid) (PyFloat.of_nat total))
       (PyFloat.of_nat 100)).

Arguments quality_score : simpl never.

(** The rejection message of the evaluator. *)
Definition rejection_message (valid total min_fields : nat) : string :=
  "Apenas " ++ of_nat valid ++ "/" ++ of_nat total
  ++ " campos essenciais extra" ++ i_acute ++ "dos. M" ++ i_acute
  ++ "nimo: " ++ of_nat min_fields.

Definition validate_ocr_result (result : ocr_result) (doc_type : string)
    : ocr_result :=
  if negb (success result) then result
  else
    let parsed :=
      match parsed_data result with Some d => d | None => [] end in
    match lookup quality_checks doc_type with
    | None => result
    | Some (required, min_fields) =>
        let '(valid, missing, found) := count_fields parsed required in
        let total := length required in
        let acceptable := (min_fields <=? valid)%nat in
        let metrics :=
          {| score := quality_score valid total;
             valid_fields := valid;
             total_required := total;
             found_fields := found;
             missing_required := missing;
             is_acceptable := acceptable;
             needs_retry := negb acceptable |} in
        if negb acceptable
        then {| success := false;
                document_type := document_type result;
                raw_text := raw_text result;
                parsed_data := parsed_data result;
                error := Some (rejection_message valid total min_fields);
                quality_metrics := Some metrics;
                retry_reason := Some "insufficient_essential_fields";
                retry_attempts := retry_attempts result;
                last_error := last_error result |}
        else {| success := success result;
                document_type := document_type result;
                raw_text := raw_text result;
                parsed_data := parsed_data result;
                error := error result;
                quality_metrics := Some metrics;
                retry_reason := retry_reason result;
                retry_attempts := retry_attempts result;
                last_error := last_error result |}
    end.

(** ** Response parser *)

(** Cleaning of one value in [_validate_essential_fields]. *)
Definition clean_value (value : pyval) : pyval :=
  if truthy value
     && nonempty (strip (py_str value))
     && negb (mem (lower (strip (py_str value))) ["null"; "none"; ""])
  then PStr (strip (py_str value))
  else PNone.

Definition _validate_essential_fields (data : dict pyval)
    (doc_type : string) : dict pyval :=
  map (fun kv => (fst kv, clean_value (snd kv))) data.

Inductive re_flag : Type := IGNORECASE | MULTILINE | DOTALL.

(** Python's [for x in xs: ... break] over a state: the body returns the new
    state and whether it broke out of the loop. *)
Fixpoint for_break {A S : Type} (xs : list A) (body : A -> S -> S * bool)
    (st : S) : S :=
  match xs with
  | [] => st
  | x :: rest =>
      let '(st', broke) := body x st in
      if broke then st' else for_break rest body st'
  end.

Section Pipeline.

(** [json.loads(s)]: the decoded object, or [None] when it raises. *)
Variable json_loads : string -> option (dict pyval).
(** [re.search(pattern, text, flags)]: group 1 of the first match. *)
Variable re_search : string -> string -> list re_flag -> option string.
(** [re.findall(pattern, text, flags)] for a pattern with one group. *)
Variable re_findall : string -> string -> list re_flag -> list string.
(** [re.match(pattern, s)] as a truth value. *)
Variable re_match : string -> string -> bool.
(** [re.sub(pattern, repl, s)] *)
Variable re_sub : string -> string -> string -> string.
(** The order in which [set(l)] is iterated. *)
Variable set_iter : list string -> list string.

Definition json_patterns : list string :=
  [ "\`\`\`json\s*(\{.*?\})\s*\`\`\`";
    "\`\`\`\s*(\{.*?\})\s*\`\`\`";
    "(\{[^{}]*(?:\{[^{}]*\}[^{}]*)*\})" ].

(** The inner loop of the embedded attempt: the first candidate that
    decodes is returned, a candidate that raises is skipped. *)
Fixpoint first_decoded (matches : list string) : option (dict pyval) :=
  match matches with
  | [] => None
  | m :: rest =>
      match json_loads (strip m) with
      | Some d => Some d
      | None => first_decoded rest
      end
  end.

Fixpoint embedded_json (patterns : list string) (text : string)
    : option (dict pyval) :=
  match patterns with
  | [] => None
  | p :: rest =>
      match first_decoded (re_findall p text [DOTALL; IGNORECASE]) with
      | Some d => Some d
      | None => embedded_json rest text
      end
  end.

(** [_extract_json_from_text].  The direct attempt has no handler of its
    own: when [json.loads] raises there, the outer [except] returns
    [None]. *)
Definition _extract_json_from_text (text : string) : option (dict pyval) :=
  if startswith (strip text) "{" && endswith (strip text) "}"
  then json_loads (strip text)
  else embedded_json json_patterns text.

(** [_extract_rg_fields] *)
Definition _extract_rg_fields (text : string) : dict pyval :=
  let result : dict pyval :=
    [("nome_completo", PNone); ("data_nascimento", PNone); ("cpf", PNone)] in
  let nome_patterns :=
    [ "nome[:\s]+([A-ZÁÀÂÃÉÊÍÓÔÕÚÇ\s]{10,})";
      "nome completo[:\s]+([A-ZÁÀÂÃÉÊÍÓÔÕÚÇ\s]{10,})";
      "^([A-ZÁÀÂÃÉÊÍÓÔÕÚÇ\s]{15,})$" ] in
  let result :=
    for_break nome_patterns
      (fun pattern result =>
         match re_search pattern text [IGNORECASE; MULTILINE] with
         | Some g =>
             let nome := strip g in
             if (2 <=? length (split_ws nome))%nat
             then (dict_set result "nome_completo" (PStr nome), true)
             else (result, false)
         | None => (result, false)
         end) result in
  let data_patterns :=
    [ "(\d{1,2}[/\-\.]\d{1,2}[/\-\.]\d{4})";
      "nascimento[:\s]+(\d{1,2}[/\-\.]\d{1,2}[/\-\.]\d{4})";
      "data[:\s]+(\d{1,2}[/\-\.]\d{1,2}[/\-\.]\d{4})" ] in
  let result :=
    for_break data_patterns
      (fun pattern result =>
         match re_search pattern text [IGNORECASE] with
         | Some g => (dict_set result "data_nascimento" (PStr g), true)
         | None => (result, false)
         end) result in
  let cpf_patterns :=
    [ "(\d{3}\.?\d{3}\.?\d{3}[\-\.]?\d{2})";
      "cpf[:\s]+(\d{3}\.?\d{3}\.?\d{3}[\-\.]?\d{2})" ] in
  for_break cpf_patterns
    (fun pattern result =>
       match re_search pattern text [IGNORECASE] with
       | Some cpf =>
           let cpf_digits := re_sub "[^\d]" "" cpf in
           if (String.length cpf_digits =? 11)%nat
           then (dict_set result "cpf" (PStr cpf), true)
           else (result, false)
       | None => (result, false)
       end) result.

(** [_extract_cnpj_fields] *)
Definition _extract_cnpj_fields (text : string) : dict pyval :=
  let result : dict pyval :=
    [("empresa", PNone); ("cnpj", PNone); ("nome_comprovante", PNone)] in
  let cnpj_patterns :=
    [ "(\d{2}\.?\d{3}\.?\d{3}[/\-]?\d{4}[\-\.]?\d{2})";
      "cnpj[:\s]+(\d{2}\.?\d{3}\.?\d{3}[/\-]?\d{4}[\-\.]?\d{2})" ] in
  let result :=
    for_break cnpj_patterns
      (fun pattern result =>
         match re_search pattern text [IGNORECASE] with
         | Some cnpj =>
             let cnpj_digits := re_sub "[^\d]" "" cnpj in
             if (String.length cnpj_digits =? 14)%nat
             then (dict_set result "cnpj" (PStr cnpj), true)
             else (result, false)
         | None => (result, false)
         end) result in
  let empresa_patterns :=
    [ "razão social[:\s]+([A-ZÁÀÂÃÉÊÍÓÔÕÚÇ\s\-\.]{5,})";
      "nome fantasia[:\s]+([A-ZÁÀÂÃÉÊÍÓÔÕÚÇ\s\-\.]{5,})";
      "empresa[:\s]+([A-ZÁÀÂÃÉÊÍÓÔÕÚÇ\s\-\.]{5,})";
      "^([A-ZÁÀÂÃÉÊÍÓÔÕÚÇ\s\-\.]{10,})\s*LTDA";
      "^([A-ZÁÀÂÃÉÊÍÓÔÕÚÇ\s\-\.]{10,})\s*S\.?A\.?" ] in
  let result :=
    for_break empresa_patterns
      (fun pattern result =>
         match re_search pattern text [IGNORECASE; MULTILINE] with
         | Some g =>
             let empresa := strip g in
             if (5 <=? String.length empresa)%nat
             then
               let result := dict_set result "empresa" (PStr empresa) in
               let result :=
                 if negb (truthy (dict_get result "nome_comprovante"))
                 then dict_set result "nome_comprovante" (PStr empresa)
                 else result in
               (result, true)
             else (result, false)
         | None => (result, false)
         end) result in
  if negb (truthy (dict_get result "nome_comprovante"))
  then
    let lines := split_on "010" text in
    for_break lines
      (fun line result =>
         let line := strip line in
         if (10 <=? String.length line)%nat
            && re_match "^[A-ZÁÀÂÃÉÊÍÓÔÕÚÇ\s\-\.]+$" line
            && existsb (fun word => contains word (upper line))
                 ["LTDA"; "S.A"; "EIRELI"; "ME"; "EPP"]
         then (dict_set result "nome_comprovante" (PStr line), true)
         else (result, false)) result
  else result.

(** [_extract_address_fields] *)
Definition _extract_address_fields (text : string) : dict pyval :=
  let result : dict pyval := [("cep", PNone); ("complemento", PNone)] in
  let cep_patterns :=
    [ "(\d{5}[\-\.]?\d{3})"; "cep[:\s]+(\d{5}[\-\.]?\d{3})" ] in
  let result :=
    for_break cep_patterns
      (fun pattern result =>
         match re_search pattern text [IGNORECASE] with
         | Some cep =>
             let cep_digits := re_sub "[^\d]" "" cep in
             if (String.length cep_digits =? 8)%nat
             then (dict_set result "cep" (PStr cep), true)
             else (result, false)
         | None => (result, false)
         end) result in
  let complemento_patterns :=
    [ "quadra[:\s]+([A-Z0-9\s\-]+)";
      "qd[:\s]+([A-Z0-9\s\-]+)";
      "lote[:\s]+([A-Z0-9\s\-]+)";
      "lt[:\s]+([A-Z0-9\s\-]+)";
      "casa[:\s]+([A-Z0-9\s\-]+)";
      "apartamento[:\s]+([A-Z0-9\s\-]+)";
      "apto?[:\s]+([A-Z0-9\s\-]+)";
      "bloco[:\s]+([A-Z0-9\s\-]+)";
      "complemento[:\s]+([A-Z0-9\s\-]+)" ] in
  let complementos :=
    flat_map
      (fun pattern =>
         filter (fun comp => nonempty comp && (String.length comp <=? 20)%nat)
           (map strip (re_findall pattern text [IGNORECASE])))
      complemento_patterns in
  match complementos with
  | [] => result
  | _ => dict_set result "complemento"
           (PStr (join ", " (set_iter complementos)))
  end.

(** [_extract_with_focused_regex] *)
Definition _extract_with_focused_regex (text doc_type : string)
    : dict pyval :=
  if String.eqb doc_type "rg" then _extract_rg_fields text
  else if String.eqb doc_type "cnpj" then _extract_cnpj_fields text
  else if String.eqb doc_type "address" then _extract_address_fields text
  else [].

(** [parse_extracted_data]: a decoded object that is not empty wins,
    otherwise the pattern extraction is used. *)
Definition parse_extracted_data (raw_text doc_type : string) : dict pyval :=
  match _extract_json_from_text raw_text with
  | Some (kv :: d) => _validate_essential_fields (kv :: d) doc_type
  | _ =>
      _validate_essential_fields
        (_extract_with_focused_regex raw_text doc_type) doc_type
  end.

(** The prompt texts, by what varies in them: the document named in the
    request line and the fields of the JSON template. *)
Record prompt : Type := mk_prompt {
  prompt_document : string;
  prompt_fields : list string
}.

Definition prompt_rg : prompt :=
  mk_prompt "RG/Identidade" ["nome_completo"; "data_nascimento"; "cpf"].
Definition prompt_cnpj : prompt :=
  mk_prompt "Comprovante CNPJ" ["empresa"; "cnpj"; "nome_comprovante"].
Definition prompt_address : prompt :=
  mk_prompt ("Comprovante de Endere" ++ String "231" "o")
    ["cep"; "complemento"].

Definition prompts : dict prompt :=
  [("rg", prompt_rg); ("cnpj", prompt_cnpj); ("address", prompt_address)].

(** [get_document_prompt]: [prompts.get(document_type, prompts['cnpj'])] *)
Definition get_document_prompt (doc_type : string) : prompt :=
  match lookup prompts doc_type with
  | Some p => p
  | None => prompt_cnpj
  end.

(** What one call of the model yields inside [process_document]: the text
    of the answer, a status code other than 200, or any other exception
    (reading the image, the transport, the shape of the reply) with its
    message. *)
Inductive api_outcome : Type :=
| ApiText (text : string)
| ApiStatus (code : nat)
| ApiRaised (msg : string).

Definition failed_result (doc_type msg : string) : ocr_result :=
  {| success := false;
     document_type := Some doc_type;
     raw_text := None;
     parsed_data := None;
     error := Some msg;
     quality_metrics := None;
     retry_reason := None;
     retry_attempts := None;
     last_error := None |}.

(** The body of [process_document] (without its retry decorator). *)
Definition process_document_body
    (api : prompt -> string -> api_outcome)
    (image_path doc_type : string) : ocr_result :=
  if String.eqb doc_type "facade"
  then {| success := true;
          document_type := Some doc_type;
          raw_text := None;
          parsed_data :=
            Some [("stored_for_webhook", PBool true);
                  ("image_validated", PBool true)];
          error := None;
          quality_metrics := None;
          retry_reason := None;
          retry_attempts := None;
          last_error := None |}
  else
    match api (get_document_prompt doc_type) image_path with
    | ApiText extracted_text =>
        let raw_result :=
          {| success := true;
             document_type := Some doc_type;
             raw_text := Some extracted_text;
             parsed_data :=
               Some (parse_extracted_data extracted_text doc_type);
             error := None;
             quality_metrics := None;
             retry_reason := None;
             retry_attempts := None;
             last_error := None |} in
        validate_ocr_result raw_result doc_type
    | ApiStatus code =>
        failed_result doc_type ("Erro na API OCR: " ++ of_nat code)
    | ApiRaised msg => failed_result doc_type msg
    end.

(** ** Retry decorator ([OCRRetryConfig], [retry_ocr]) *)

Inductive RetryStrategy : Type :=
| EXPONENTIAL_BACKOFF
| FIXED_DELAY
| IMMEDIATE.

(** [max_retries] is a natural number: the configuration surface asks for
    an integer that is not negative. *)
Record OCRRetryConfig : Type := mk_retry_config {
  max_retries : nat;
  base_delay : Q;
  max_delay : Q;
  strategy : RetryStrategy
}.

(** The configuration built when no environment variable is set. *)
Definition default_retry_config : OCRRetryConfig :=
  {| max_retries := 3;
     base_delay := 2%Q;
     max_delay := 30%Q;
     strategy := EXPONENTIAL_BACKOFF |}.

Definition retryable_keywords : list string :=
  [ "timeout"; "connection"; "network"; "temporary";
    "rate limit"; "server error"; "5"; "unavailable" ].

(** [should_retry(error, attempt)], on the message of the exception. *)
Definition should_retry (cfg : OCRRetryConfig) (error_msg : string)
    (attempt : nat) : bool :=
  if (max_retries cfg <=? attempt)%nat then false
  else
    let error_str := lower error_msg in
    existsb (fun keyword => contains keyword error_str) retryable_keywords.

(** [min(a, b)]: the first argument unless the second is smaller. *)
Definition py_min (a b : Q) : Q :=
  if Qlt_le_dec b a then b else a.

(** [get_delay(attempt)], the value it returns.  [base_delay] and
    [max_delay] are floats and [2 ** attempt] is an integer, which the
    product converts to a float: that conversion is exact up to 2 ** 1023
    and raises [OverflowError] from 2 ** 1024 on, see [get_delay_returns]. *)
Definition get_delay (cfg : OCRRetryConfig) (attempt : nat) : Q :=
  match strategy cfg with
  | IMMEDIATE => 0%Q
  | FIXED_DELAY => base_delay cfg
  | EXPONENTIAL_BACKOFF =>
      let delay := (base_delay cfg * inject_Z (2 ^ Z.of_nat attempt))%Q in
      py_min delay (max_delay cfg)
  end.

(** Whether [get_delay(attempt)] returns a value: under the exponential
    strategy it does for the attempts below 1024 and raises for the others;
    the other strategies compute no power. *)
Definition get_delay_returns (cfg : OCRRetryConfig) (attempt : nat) : bool :=
  match strategy cfg with
  | EXPONENTIAL_BACKOFF => (attempt <? 1024)%nat
  | _ => true
  end.

(** One call of the decorated function: it returns a result dictionary or
    raises an exception with a message. *)
Inductive outcome : Type :=
| Returned (result : ocr_result)
| Raised (msg : string).

(** What a run of the wrapper leaves: the value it returns, how many times
    it called the function, and the delays it slept, oldest first. *)
Record run : Type := mk_run {
  final : ocr_result;
  calls : nat;
  sleeps : list Q
}.

(** [str(last_exception)] *)
Definition str_exception (last_exception : option string) : string :=
  match last_exception with Some msg => msg | None => "None" end.

(** The dictionary built after the loop of [wrapper]. *)
Definition all_attempts_failed (cfg : OCRRetryConfig)
    (last_exception : option string) : ocr_result :=
  {| success := false;
     document_type := None;
     raw_text := None;
     parsed_data := None;
     error :=
       Some ("Falha ap" ++ o_acute ++ "s " ++ of_nat (max_retries cfg + 1)
             ++ " tentativas: " ++ str_exception last_exception);
     quality_metrics := None;
     retry_reason := None;
     retry_attempts := Some (max_retries cfg + 1)%nat;
     last_error := Some (str_exception last_exception) |}.

(** The loop [for attempt in range(max_retries + 1)] of [wrapper];
    [remaining] counts the iterations left, [func k] is what the [k]-th
    call of the decorated function does.  The loop is the wrapper's on the
    runs in which every delay it asks for is computed
    ([get_delay_returns]), which is every run with [max_retries] up to
    1024. *)
Fixpoint retry_loop (cfg : OCRRetryConfig) (func : nat -> outcome)
    (remaining attempt : nat) (last_exception : option string)
    (slept : list Q) : run :=
  match remaining with
  | O => mk_run (all_attempts_failed cfg last_exception) attempt slept
  | S remaining' =>
      match func attempt with
      | Returned result =>
          if negb (success result)
          then
            let error_msg :=
              match error result with Some m => m | None => "" end in
            if should_retry cfg error_msg attempt
            then
              if (attempt <? max_retries cfg)%nat
              then retry_loop cfg func remaining' (S attempt)
                     (Some error_msg)
                     (slept ++ [get_delay cfg attempt])%list
              else mk_run result (S attempt) slept
            else mk_run result (S attempt) slept
          else mk_run result (S attempt) slept
      | Raised e =>
          if negb (should_retry cfg e attempt)
          then mk_run (all_attempts_failed cfg (Some e)) (S attempt) slept
          else
            if (attempt <? max_retries cfg)%nat
            then retry_loop cfg func remaining' (S attempt) (Some e)
                   (slept ++ [get_delay cfg attempt])%list
            else retry_loop cfg func remaining' (S attempt) (Some e) slept
      end
  end.

(** [retry_ocr(retry_config)(func)] *)
Definition retry_ocr (cfg : OCRRetryConfig) (func : nat -> outcome) : run :=
  retry_loop cfg func (max_retries cfg + 1) 0 None [].

(** [process_document] as decorated: every exception of the body is turned
    into a failed result by the body's own handler, so each call returns.
    [world k] is how the model answers the [k]-th call. *)
Definition process_document (cfg : OCRRetryConfig)
    (world : nat -> prompt -> string -> api_outcome)
    (image_path doc_type : string) : run :=
  retry_ocr cfg
    (fun k => Returned (process_document_body (world k) image_path doc_type)).

End Pipeline.

(** ** Consolidator ([consolidate_customer_data]) *)

(** Values of the consolidated dictionary: what the parsed records carry,
    the confidence score (a float) and the list of fields to review. *)
Inductive cval : Type :=
| CData (v : pyval)
| CFloat (q : Q)
| CList (l : list string).

Definition c_truthy (v : cval) : bool :=
  match v with
  | CData d => truthy d
  | CFloat q => negb (Qeq_bool q 0)
  | CList l => match l with [] => false | _ => true end
  end.

(** [v is not None] *)
Definition c_is_not_none (v : cval) : bool :=
  match v with CData PNone => false | _ => true end.

(** [v != ''] *)
Definition c_ne_empty (v : cval) : bool :=
  match v with CData (PStr EmptyString) => false | _ => true end.

(** [str(v).startswith('[')]: the text of a list opens with a bracket, the
    text of a float never does. *)
Definition c_str_startswith_bracket (v : cval) : bool :=
  match v with
  | CData d => startswith (py_str d) "["
  | CFloat _ => false
  | CList _ => true
  end.

(** ['[REVISAR]' in str(v)]: the text of a float has no bracket; in the
    text of a list of field names every opening bracket is followed by a
    quote or closes the empty list. *)
Definition c_str_contains_revisar (v : cval) : bool :=
  match v with
  | CData d => contains REVISAR (py_str d)
  | CFloat _ => false
  | CList _ => false
  end.

Definition consolidated_init : dict cval :=
  [ ("empresa", CData PNone);
    ("cnpj", CData PNone);
    ("inscricaoEstadual", CData PNone);
    ("email", CData PNone);
    ("telefone", CData PNone);
    ("celular", CData PNone);
    ("cep", CData PNone);
    ("endereco", CData PNone);
    ("numero", CData PNone);
    ("complemento", CData PNone);
    ("bairro", CData PNone);
    ("cidade", CData PNone);
    ("uf", CData PNone);
    ("nomeCompleto", CData PNone);
    ("cpf", CData PNone);
    ("dataNascimento", CData PNone);
    ("enderecoProprietario", CData PNone);
    ("confidenceScore", CData (PInt 0));
    ("fieldsExtracted", CData (PInt 0));
    ("fieldsTotal", CData (PInt 0));
    ("needsReview", CList []) ].

(** [k in ocr_results and ocr_results[k]['success']] *)
Definition present_and_successful (ocr_results : dict ocr_result)
    (k : string) : option ocr_result :=
  match lookup ocr_results k with
  | Some r => if success r then Some r else None
  | None => None
  end.

Definition cget (consolidated : dict cval) (k : string) : cval :=
  match lookup consolidated k with Some v => v | None => CData PNone end.

Definition cnpj_update (cnpj_data : dict pyval) : dict cval :=
  [ ("empresa", CData (py_or (dict_get cnpj_data "razao_social")
                             (dict_get cnpj_data "nome_fantasia")));
    ("cnpj", CData (dict_get cnpj_data "cnpj"));
    ("inscricaoEstadual", CData (dict_get cnpj_data "inscricao_estadual"));
    ("email", CData (dict_get cnpj_data "email"));
    ("telefone", CData (dict_get cnpj_data "telefone"));
    ("endereco", CData (dict_get cnpj_data "endereco"));
    ("numero", CData (dict_get cnpj_data "numero"));
    ("complemento", CData (dict_get cnpj_data "complemento"));
    ("bairro", CData (dict_get cnpj_data "bairro"));
    ("cidade", CData (dict_get cnpj_data "cidade"));
    ("uf", CData (dict_get cnpj_data "uf"));
    ("cep", CData (dict_get cnpj_data "cep")) ].

Definition rg_update (rg_data : dict pyval) : dict cval :=
  [ ("nomeCompleto", CData (dict_get rg_data "nome_completo"));
    ("cpf", CData (dict_get rg_data "cpf"));
    ("dataNascimento", CData (dict_get rg_data "data_nascimento")) ].

Definition address_update (addr_data : dict pyval) : dict cval :=
  [ ("endereco", CData (dict_get addr_data "endereco"));
    ("numero", CData (dict_get addr_data "numero"));
    ("complemento", CData (dict_get addr_data "complemento"));
    ("bairro", CData (dict_get addr_data "bairro"));
    ("cidade", CData (dict_get addr_data "cidade"));
    ("uf", CData (dict_get addr_data "uf"));
    ("cep", CData (dict_get addr_data "cep")) ].

(** The three merging steps.  [None] stands for the [KeyError] raised when
    a successful result carries no ['parsed_data']. *)
Definition merge_cnpj (ocr_results : dict ocr_result)
    (consolidated : dict cval) : option (dict cval) :=
  match present_and_successful ocr_results "cnpj" with
  | Some r =>
      match parsed_data r with
      | Some cnpj_data => Some (dict_update consolidated (cnpj_update cnpj_data))
      | None => None
      end
  | None => Some consolidated
  end.

Definition merge_rg (ocr_results : dict ocr_result)
    (consolidated : dict cval) : option (dict cval) :=
  match present_and_successful ocr_results "rg" with
  | Some r =>
      match parsed_data r with
      | Some rg_data => Some (dict_update consolidated (rg_update rg_data))
      | None => None
      end
  | None => Some consolidated
  end.

Definition merge_address (ocr_results : dict ocr_result)
    (consolidated : dict cval) : option (dict cval) :=
  match present_and_successful ocr_results "address" with
  | Some r =>
      match parsed_data r with
      | Some addr_data =>
          if negb (c_truthy (cget consolidated "endereco"))
          then Some (dict_update consolidated (address_update addr_data))
          else Some consolidated
      | None => None
      end
  | None => Some consolidated
  end.

(** The key test of [total_fields] and the value test of
    [filled_fields]. *)
Definition counts_as_field (k : string) : bool :=
  negb (startswith k "confidence")
  && negb (startswith k "fields")
  && negb (String.eqb k "needsReview").

Definition counts_as_filled (v : cval) : bool :=
  c_is_not_none v && c_ne_empty v && negb (c_str_startswith_bracket v).

(** The confidence metrics and the review list, computed on the merged
    dictionary. *)
Definition add_metrics (consolidated : dict cval) : dict cval :=
  let total_fields := length (filter counts_as_field (keys consolidated)) in
  let filled_fields :=
    length (filter counts_as_filled (values consolidated)) in
  let consolidated :=
    dict_set consolidated "fieldsTotal"
      (CData (PInt (Z.of_nat total_fields))) in
  let consolidated :=
    dict_set consolidated "fieldsExtracted"
      (CData (PInt (Z.of_nat filled_fields))) in
  let consolidated :=
    dict_set consolidated "confidenceScore"
      (if (0 <? total_fields)%nat
       then CFloat ((inject_Z (Z.of_nat filled_fields)
                     / inject_Z (Z.of_nat total_fields)) * 100)%Q
       else CData (PInt 0)) in
  let review :=
    map fst
      (filter (fun kv => c_truthy (snd kv) && c_str_contains_revisar (snd kv))
         consolidated) in
  match cget consolidated "needsReview" with
  | CList l => dict_set consolidated "needsReview" (CList (l ++ review)%list)
  | _ => consolidated
  end.

Definition consolidate_customer_data (ocr_results : dict ocr_result)
    : option (dict cval) :=
  match merge_cnpj ocr_results consolidated_init with
  | None => None
  | Some c1 =>
      match merge_rg ocr_results c1 with
      | None => None
      | Some c2 =>
          match merge_address ocr_results c2 with
          | None => None
          | Some c3 => Some (add_metrics c3)
          end
      end
  end.

(** ** The specification's reading of evaluation and post-processing *)

(** A field is found when its value is not null, is not empty after
    trimming, and is not one of the markers for an illegible value and for
    a value to review. *)
Definition spec_found (v : pyval) : bool :=
  match v with
  | PNone => false
  | _ => nonempty (strip (py_str v))
         && negb (mem (py_str v) [ILEGIVEL; REVISAR])
  end.

Definition spec_found_count (parsed : dict pyval) (required : list string)
    : nat :=
  length (filter (fun field => spec_found (dict_get parsed field)) required).

(** The specification's score, 100 * found / total, as a rational. *)
Definition spec_score (found total : nat) : Q :=
  (100 * inject_Z (Z.of_nat found) / inject_Z (Z.of_nat total))%Q.

(** The values that the specification's notion counts as found and the
    test of the evaluator does not: the text [null], the integer 0 and
    [False]. *)
Definition null_text_or_zero (v : pyval) : bool :=
  match v with
  | PNone => false
  | PBool b => negb b
  | PInt z => (z =? 0)%Z
  | PStr s => String.eqb s "null"
  end.

(** The specification's post-processing of one value: trimmed, normalised
    to null when it reads [null], [none] or nothing, and with every inner
    run of white space collapsed to one space. *)
Definition collapse_ws (s : string) : string := join " " (split_ws s).

Definition spec_post_process (v : pyval) : pyval :=
  match v with
  | PNone => PNone
  | _ =>
      let t := strip (py_str v) in
      if mem (lower t) ["null"; "none"; ""] then PNone
      else PStr (collapse_ws t)
  end.

(** ** Vocabulary of the statements *)

(** The message matches one of the keywords of [should_retry]. *)
Definition transient (msg : string) : bool :=
  existsb (fun keyword => contains keyword (lower msg)) retryable_keywords.

(** An attempt fails with message [msg]: the call raises with it, or
    returns a result that is not a success and carries it as its error. *)
Definition fails_with (o : outcome) (msg : string) : Prop :=
  o = Raised msg
  \/ exists r, o = Returned r /\ success r = false /\ error r = Some msg.

(** An attempt fails with a message that matches a retry keyword. *)
Definition transient_failure (o : outcome) : Prop :=
  exists msg, fails_with o msg /\ transient msg = true.

(** Every delay that a run of up to [n] retries asks for is computed. *)
Definition delays_computed (cfg : OCRRetryConfig) (n : nat) : Prop :=
  forall attempt, (attempt < n)%nat -> get_delay_returns cfg attempt = true.

Definition address_keys : list string :=
  ["endereco"; "numero"; "complemento"; "bairro"; "cidade"; "uf"; "cep"].

(** The address fields of a consolidated profile. *)
Definition address_block (consolidated : dict cval) : list cval :=
  map (cget consolidated) address_keys.

(** The address fields as one parsed record gives them. *)
Definition block_of (data : dict pyval) : list cval :=
  map (fun k => CData (dict_get data k)) address_keys.

Definition data_of (r : ocr_result) : dict pyval :=
  match parsed_data r with Some d => d | None => [] end.

(** ** Sample inputs *)

Definition quoted (s : string) : string := dquote ++ s ++ dquote.

Definition raw_result (doc_type text : string) (parsed : dict pyval)
    : ocr_result :=
  {| success := true;
     document_type := Some doc_type;
     raw_text := Some text;
     parsed_data := Some parsed;
     error := None;
     quality_metrics := None;
     retry_reason := None;
     retry_attempts := None;
     last_error := None |}.

(** A registration certificate answered as JSON with two of the three
    essential fields. *)
Definition acme_data : dict pyval :=
  [("empresa", PStr "ACME LTDA"); ("cnpj", PStr "11.222.333/0001-81")].

Definition acme_result : ocr_result :=
  raw_result "cnpj" "(JSON)" (_validate_essential_fields acme_data "cnpj").

(** An identity card of which only the name was read. *)
Definition name_only_result : ocr_result :=
  raw_result "rg" "JOAO DA SILVA"
    (_validate_essential_fields [("nome_completo", PStr "JOAO DA SILVA")] "rg").

(** An answer made of two objects: the whole text opens and closes with a
    brace but is not one JSON value, while its first object is. *)
Definition first_object : string :=
  "{" ++ quoted "nome_completo" ++ ": " ++ quoted "JOAO DA SILVA" ++ ", "
  ++ quoted "cpf" ++ ": " ++ quoted "123.456.789-01" ++ "}".

Definition two_objects : string := first_object ++ " {" ++ quoted "obs" ++ "}".

(** The decoder and the matcher as they behave on [two_objects]. *)
Definition loads_two_objects (s : string) : option (dict pyval) :=
  if String.eqb s first_object
  then Some [("nome_completo", PStr "JOAO DA SILVA");
             ("cpf", PStr "123.456.789-01")]
  else None.

Definition findall_two_objects (pattern text : string)
    (flags : list re_flag) : list string :=
  if String.eqb pattern "(\{[^{}]*(?:\{[^{}]*\}[^{}]*)*\})"
  then [first_object; "{" ++ quoted "obs" ++ "}"]
  else [].

(** Collaborators for a text in which no pattern matches. *)
Definition no_json (s : string) : option (dict pyval) := None.
Definition no_search (pattern text : string) (flags : list re_flag)
    : option string := None.
Definition no_findall (pattern text : string) (flags : list re_flag)
    : list string := [].
Definition no_match (pattern s : string) : bool := false.
Definition sub_nothing (pattern repl s : string) : string := s.
Definition in_order (l : list string) : list string := l.

(** The matcher as it behaves on the text [Empresa: ACME COMERCIO]: only
    the [empresa] pattern matches. *)
Definition search_empresa (pattern text : string) (flags : list re_flag)
    : option string :=
  if startswith pattern "empresa" then Some "ACME COMERCIO" else None.

(** A cnpj result with a street but no postal code, and a proof of address
    with both. *)
Definition cnpj_without_cep : ocr_result :=
  raw_result "cnpj" "(JSON)"
    [("razao_social", PStr "ACME LTDA"); ("endereco", PStr "Rua A");
     ("numero", PStr "10"); ("cep", PNone)].

Definition full_address : ocr_result :=
  raw_result "address" "(JSON)"
    [("endereco", PStr "Rua B"); ("numero", PStr "20");
     ("cep", PStr "01310-100")].

(** ** [process_all_documents] and the task that calls the pipeline *)

(** The entry written for a document whose file is missing. *)
Definition not_found_result (doc_type : string) : ocr_result :=
  {| success := false;
     document_type := Some doc_type;
     raw_text := None;
     parsed_data := None;
     error := Some ("Arquivo n" ++ a_tilde ++ "o encontrado");
     quality_metrics := None;
     retry_reason := None;
     retry_attempts := None;
     last_error := None |}.

Section Batch.

Variable json_loads : string -> option (dict pyval).
Variable re_search : string -> string -> list re_flag -> option string.
Variable re_findall : string -> string -> list re_flag -> list string.
Variable re_match : string -> string -> bool.
Variable re_sub : string -> string -> string -> string.
Variable set_iter : list string -> list string.
(** [os.path.exists] *)
Variable path_exists : string -> bool.

(** [process_all_documents]: [documents] maps a document type to the path
    of its image (the empty path stands for a falsy one); [world d k] is
    how the model answers the [k]-th call made for document [d]. *)
Definition process_all_documents (cfg : OCRRetryConfig)
    (world : string -> nat -> prompt -> string -> api_outcome)
    (documents : dict string) : dict ocr_result :=
  fold_left
    (fun results kv =>
       let doc_type := fst kv in
       let image_path := snd kv in
       if nonempty image_path && path_exists image_path
       then dict_set results doc_type
              (final (process_document json_loads re_search re_findall
                        re_match re_sub set_iter cfg (world doc_type)
                        image_path doc_type))
       else dict_set results doc_type (not_found_result doc_type))
    documents [].

(** The entry stored for one document of the batch. *)
Definition batch_entry (cfg : OCRRetryConfig)
    (world : string -> nat -> prompt -> string -> api_outcome)
    (kv : string * string) : ocr_result :=
  if nonempty (snd kv) && path_exists (snd kv)
  then final (process_document json_loads re_search re_findall re_match
                re_sub set_iter cfg (world (fst kv)) (snd kv) (fst kv))
  else not_found_result (fst kv).

End Batch.

(** [celery_tasks.process_document_ocr]: what the loop over the documents
    gets for one document, the result of [process_document] or an
    exception raised around it. *)
Inductive doc_outcome : Type :=
| DocResult (r : ocr_result)
| DocCrashed (msg : string).

(** The entry the task stores in [results] for one document: the parsed
    record goes under the key ['data'], and the error is kept only for a
    failure. *)
Record task_entry : Type := mk_task_entry {
  entry_success : bool;
  entry_data : option (dict pyval);
  entry_raw_text : option string;
  entry_quality_metrics : option quality;
  entry_error : option string
}.

Definition task_entry_of (o : doc_outcome) : task_entry :=
  match o with
  | DocResult r =>
      {| entry_success := success r;
         entry_data :=
           Some (match parsed_data r with Some d => d | None => [] end);
         entry_raw_text := raw_text r;
         entry_quality_metrics := quality_metrics r;
         entry_error := if negb (success r) then error r else None |}
  | DocCrashed msg =>
      {| entry_success := false;
         entry_data := None;
         entry_raw_text := None;
         entry_quality_metrics := None;
         entry_error :=
           Some ("Erro cr" ++ i_acute ++ "tico: " ++ msg) |}
  end.

(** A task entry as [consolidate_customer_data] reads it: the entry has
    the keys ['success'], ['data'], ['raw_text'], ['quality_metrics'],
    ['processed_at'] and ['error'], and no ['parsed_data']. *)
Definition entry_as_result (e : task_entry) : ocr_result :=
  {| success := entry_success e;
     document_type := None;
     raw_text := entry_raw_text e;
     parsed_data := None;
     error := entry_error e;
     quality_metrics := entry_quality_metrics e;
     retry_reason := None;
     retry_attempts := None;
     last_error := None |}.

(** The consolidation step of the task:
    [ocr_processor.consolidate_customer_data(results)]. *)
Definition task_consolidate (outcomes : dict doc_outcome)
    : option (dict cval) :=
  consolidate_customer_data
    (map (fun kv => (fst kv, entry_as_result (task_entry_of (snd kv))))
       outcomes).

(** [progress = 10 + (i * 70 // total_docs)] for the [i]-th document. *)
Definition task_progress (i total_docs : nat) : nat :=
  10 + (i * 70) / total_docs.

(** ** Document numbers ([utils.py], [models.py]) *)

(** A character matched by [\d]: on the modelled block the decimal digits
    are 0 to 9. *)
Definition is_digit (c : ascii) : bool :=
  let n := nat_of_ascii c in ((48 <=? n) && (n <=? 57))%nat.

(** [re.sub(r'[^\d]', '', s)] *)
Fixpoint digits_only (s : string) : string :=
  match s with
  | EmptyString => EmptyString
  | String c s' =>
      if is_digit c then String c (digits_only s') else digits_only s'
  end.

(** [int(c)] for a digit character. *)
Definition int_of_char (c : ascii) : nat := nat_of_ascii c - 48.

(** [int(s[i])]; the callers index below the length they have checked. *)
Definition digit_at (s : string) (i : nat) : nat :=
  match String.get i s with
  | Some c => int_of_char c
  | None => 0
  end.

(** [s[i:]] *)
Definition slice_from (i : nat) (s : string) : string :=
  substring i (String.length s - i) s.

(** [s[i:j]] for [i <= j] *)
Definition slice (i j : nat) (s : string) : string :=
  substring i (Nat.min j (String.length s) - i) s.

(** [len(set(s)) == 1] *)
Definition one_distinct_char (s : string) : bool :=
  match s with
  | EmptyString => false
  | String c s' =>
      forallb (Ascii.eqb c) (list_ascii_of_string s')
  end.

(** [sum(f(i) for i in range(n))] *)
Definition sum_range (n : nat) (f : nat -> nat) : nat :=
  fold_left (fun acc i => acc + f i) (seq 0 n) 0.

Module Utils.

(** [DataProcessor.clean_cpf] and [DataProcessor.clean_cnpj] *)
Definition clean_cpf (cpf : string) : string :=
  if negb (nonempty cpf) then "" else digits_only cpf.

Definition clean_cnpj (cnpj : string) : string :=
  if negb (nonempty cnpj) then "" else digits_only cnpj.

(** [DataProcessor.format_cpf] *)
Definition format_cpf (cpf : string) : string :=
  let clean := clean_cpf cpf in
  if (String.length clean =? 11)%nat
  then slice 0 3 clean ++ "." ++ slice 3 6 clean ++ "."
       ++ slice 6 9 clean ++ "-" ++ slice_from 9 clean
  else cpf.

(** [DataProcessor.format_cnpj] *)
Definition format_cnpj (cnpj : string) : string :=
  let clean := clean_cnpj cnpj in
  if (String.length clean =? 14)%nat
  then slice 0 2 clean ++ "." ++ slice 2 5 clean ++ "."
       ++ slice 5 8 clean ++ "/" ++ slice 8 12 clean ++ "-"
       ++ slice_from 12 clean
  else cnpj.

(** The check digit of both validators:
    [11 - (total % 11)], replaced by 0 when it is 10 or more. *)
Definition check_digit (total : nat) : nat :=
  let digit := 11 - (total mod 11) in
  if (10 <=? digit)%nat then 0 else digit.

(** [Validator.validate_cpf] *)
Definition validate_cpf (cpf : string) : bool * string :=
  if negb (nonempty cpf) then (false, "CPF n" ++ a_tilde ++ "o informado")
  else
    let clean := clean_cpf cpf in
    if negb (String.length clean =? 11)%nat
    then (false, "CPF deve ter 11 d" ++ i_acute ++ "gitos")
    else if one_distinct_char clean
    then (false, "CPF inv" ++ String "225" "lido")
    else
      let sum1 := sum_range 9 (fun i => digit_at clean i * (10 - i)) in
      let digit1 := check_digit sum1 in
      let sum2 := sum_range 10 (fun i => digit_at clean i * (11 - i)) in
      let digit2 := check_digit sum2 in
      if (digit_at clean 9 =? digit1)%nat && (digit_at clean 10 =? digit2)%nat
      then (true, "CPF v" ++ String "225" "lido")
      else (false, "CPF inv" ++ String "225" "lido").

Definition weights1 : list nat := [5; 4; 3; 2; 9; 8; 7; 6; 5; 4; 3; 2].
Definition weights2 : list nat := [6; 5; 4; 3; 2; 9; 8; 7; 6; 5; 4; 3; 2].

(** [Validator.validate_cnpj] *)
Definition validate_cnpj (cnpj : string) : bool * string :=
  if negb (nonempty cnpj) then (false, "CNPJ n" ++ a_tilde ++ "o informado")
  else
    let clean := clean_cnpj cnpj in
    if negb (String.length clean =? 14)%nat
    then (false, "CNPJ deve ter 14 d" ++ i_acute ++ "gitos")
    else if one_distinct_char clean
    then (false, "CNPJ inv" ++ String "225" "lido")
    else
      let sum1 :=
        sum_range 12 (fun i => digit_at clean i * nth i weights1 0) in
      let digit1 := check_digit sum1 in
      let sum2 :=
        sum_range 13 (fun i => digit_at clean i * nth i weights2 0) in
      let digit2 := check_digit sum2 in
      if (digit_at clean 12 =? digit1)%nat
         && (digit_at clean 13 =? digit2)%nat
      then (true, "CNPJ v" ++ String "225" "lido")
      else (false, "CNPJ inv" ++ String "225" "lido").

(** [SecurityUtils.mask_cpf] *)
Definition mask_cpf (cpf : string) : string :=
  if negb (nonempty cpf) then ""
  else
    let clean := clean_cpf cpf in
    if (String.length clean =? 11)%nat
    then "***.***." ++ slice 6 9 clean ++ "-**"
    else cpf.

End Utils.

(** ** The two validators on any text ([utils.py], [models.py])

    [re.sub(r'[^\d]', '', v)] keeps, and [int] reads, every decimal digit
    of the Unicode database, not only 0 to 9, while an f-string writes a
    number with the digits 0 to 9.  To compare the validators of the two
    modules a text is the list of its code points, and [decimal c] is the
    digit that the code point [c] stands for when it is a decimal digit
    (the database is a collaborator, taken as a parameter). *)
Definition text : Type := list N.

(** The text of a string of the Latin-1 block. *)
Definition text_of_string (s : string) : text :=
  map (fun c => N.of_nat (nat_of_ascii c)) (list_ascii_of_string s).

Module Unicode.

(** A character matched by [\d]. *)
Definition is_decimal (decimal : N -> option nat) (c : N) : bool :=
  match decimal c with Some _ => true | None => false end.

(** [re.sub(r'[^\d]', '', v)] *)
Definition digits_only (decimal : N -> option nat) (v : text) : text :=
  filter (is_decimal decimal) v.

(** [int(c)] for a decimal digit; the validators read the characters of a
    cleaned text only. *)
Definition int_of_char (decimal : N -> option nat) (c : N) : nat :=
  match decimal c with Some d => d | None => 0 end.

(** [int(s[i])]; the callers index below the length they have checked. *)
Definition digit_at (decimal : N -> option nat) (s : text) (i : nat) : nat :=
  match nth_error s i with
  | Some c => int_of_char decimal c
  | None => 0
  end.

(** [s[i:j]] for [i <= j] *)
Definition slice (i j : nat) (s : text) : text := firstn (j - i) (skipn i s).

(** [len(set(s)) == 1] *)
Definition one_distinct_char (s : text) : bool :=
  match s with
  | [] => false
  | c :: s' => forallb (N.eqb c) s'
  end.

(** [bool(v)] for a text *)
Definition nonempty (v : text) : bool :=
  match v with [] => false | _ => true end.

(** [a == b] on texts *)
Fixpoint text_eqb (a b : text) : bool :=
  match a, b with
  | [], [] => true
  | x :: a', y :: b' => N.eqb x y && text_eqb a' b'
  | _, _ => false
  end.

(** [str(n)], as in an f-string *)
Definition str_of_nat (n : nat) : text := text_of_string (PyStr.of_nat n).

Module Utils.

(** [DataProcessor.clean_cpf] and [DataProcessor.clean_cnpj] *)
Definition clean_cpf (decimal : N -> option nat) (cpf : text) : text :=
  if negb (nonempty cpf) then [] else digits_only decimal cpf.

Definition clean_cnpj (decimal : N -> option nat) (cnpj : text) : text :=
  if negb (nonempty cnpj) then [] else digits_only decimal cnpj.

(** [Validator.validate_cpf] *)
Definition validate_cpf (decimal : N -> option nat) (cpf : text)
    : bool * string :=
  if negb (nonempty cpf) then (false, "CPF n" ++ a_tilde ++ "o informado")
  else
    let clean := clean_cpf decimal cpf in
    if negb (length clean =? 11)%nat
    then (false, "CPF deve ter 11 d" ++ i_acute ++ "gitos")
    else if one_distinct_char clean
    then (false, "CPF inv" ++ String "225" "lido")
    else
      let sum1 :=
        sum_range 9 (fun i => digit_at decimal clean i * (10 - i)) in
      let digit1 := Utils.check_digit sum1 in
      let sum2 :=
        sum_range 10 (fun i => digit_at decimal clean i * (11 - i)) in
      let digit2 := Utils.check_digit sum2 in
      if (digit_at decimal clean 9 =? digit1)%nat
         && (digit_at decimal clean 10 =? digit2)%nat
      then (true, "CPF v" ++ String "225" "lido")
      else (false, "CPF inv" ++ String "225" "lido").

(** [Validator.validate_cnpj] *)
Definition validate_cnpj (decimal : N -> option nat) (cnpj : text)
    : bool * string :=
  if negb (nonempty cnpj) then (false, "CNPJ n" ++ a_tilde ++ "o informado")
  else
    let clean := clean_cnpj decimal cnpj in
    if negb (length clean =? 14)%nat
    then (false, "CNPJ deve ter 14 d" ++ i_acute ++ "gitos")
    else if one_distinct_char clean
    then (false, "CNPJ inv" ++ String "225" "lido")
    else
      let sum1 :=
        sum_range 12
          (fun i => digit_at decimal clean i * nth i Utils.weights1 0) in
      let digit1 := Utils.check_digit sum1 in
      let sum2 :=
        sum_range 13
          (fun i => digit_at decimal clean i * nth i Utils.weights2 0) in
      let digit2 := Utils.check_digit sum2 in
      if (digit_at decimal clean 12 =? digit1)%nat
         && (digit_at decimal clean 13 =? digit2)%nat
      then (true, "CNPJ v" ++ String "225" "lido")
      else (false, "CNPJ inv" ++ String "225" "lido").

End Utils.

Module Models.

(** The validators of [CustomerDataValidationRequest]: they return the
    value or raise [ValueError] with a message. *)

(** [calculate_digit(digits, weights)] *)
Definition calculate_digit (decimal : N -> option nat) (digits : text)
    (weights : list nat) : nat :=
  let total :=
    fold_left (fun acc dw => acc + int_of_char decimal (fst dw) * snd dw)
      (combine digits weights) 0 in
  let remainder := total mod 11 in
  if (remainder <? 2)%nat then 0 else 11 - remainder.

(** [list(range(hi, 1, -1))] *)
Definition weights_down_from (hi : nat) : list nat :=
  rev (seq 2 (hi - 1)).

Definition weights1 : list nat := [5; 4; 3; 2; 9; 8; 7; 6; 5; 4; 3; 2].
Definition weights2 : list nat := [6; 5; 4; 3; 2; 9; 8; 7; 6; 5; 4; 3; 2].

(** [validate_cpf(cls, v)] *)
Definition validate_cpf (decimal : N -> option nat) (v : text)
    : text + string :=
  if negb (nonempty v) then inl v
  else
    let clean_cpf := digits_only decimal v in
    if negb (length clean_cpf =? 11)%nat
    then inr ("CPF deve ter 11 d" ++ i_acute ++ "gitos")
    else if one_distinct_char clean_cpf
    then inr ("CPF inv" ++ String "225" "lido")
    else
      let digit1 := calculate_digit decimal (slice 0 9 clean_cpf)
                      (weights_down_from 10) in
      let digit2 := calculate_digit decimal (slice 0 10 clean_cpf)
                      (weights_down_from 11) in
      if negb (text_eqb (slice 9 11 clean_cpf)
                 (str_of_nat digit1 ++ str_of_nat digit2)%list)
      then inr ("CPF inv" ++ String "225" "lido")
      else inl v.

(** [validate_cnpj(cls, v)] *)
Definition validate_cnpj (decimal : N -> option nat) (v : text)
    : text + string :=
  if negb (nonempty v) then inl v
  else
    let clean_cnpj := digits_only decimal v in
    if negb (length clean_cnpj =? 14)%nat
    then inr ("CNPJ deve ter 14 d" ++ i_acute ++ "gitos")
    else
      let digit1 :=
        calculate_digit decimal (slice 0 12 clean_cnpj) weights1 in
      let digit2 :=
        calculate_digit decimal (slice 0 13 clean_cnpj) weights2 in
      if negb (text_eqb (slice 12 14 clean_cnpj)
                 (str_of_nat digit1 ++ str_of_nat digit2)%list)
      then inr ("CNPJ inv" ++ String "225" "lido")
      else inl v.

(** The validator accepted the value. *)
Definition accepted {A B} (r : A + B) : bool :=
  match r with inl _ => true | inr _ => false end.

End Models.

End Unicode.

(** ** Vocabulary of the further properties *)

(** What a cleaned value looks like: null, or a string that is not empty,
    has no white space at either end and does not read [null] or [none]
    in any letter case. *)
Definition is_clean (v : pyval) : Prop :=
  v = PNone
  \/ exists t, v = PStr t
               /\ t <> ""
               /\ strip t = t
               /\ lower t <> "null"
               /\ lower t <> "none".

(** Every character of the text is a digit. *)
Definition all_digits (s : string) : bool :=
  forallb is_digit (list_ascii_of_string s).

(** The value under [k], when it is a string, satisfies [P]. *)
Definition checked (k : string) (P : string -> Prop) (r : dict pyval)
    : Prop :=
  forall x, dict_get r k = PStr x -> P x.

(** A name that is trimmed and has at least two words. *)
Definition two_words (n : string) : Prop :=
  strip n = n /\ (2 <= length (split_ws n))%nat.

(** The text has [count] digits once [re_sub] removed everything else. *)
Definition digits_are (re_sub : string -> string -> string -> string)
    (count : nat) (x : string) : Prop :=
  String.length (re_sub "[^\d]" "" x) = count.

(** The profile consolidated from [name_only_result] alone. *)
(** The digits 0 to 9, and a text written with them only. *)
Definition is_ascii_digit (c : N) : bool := ((48 <=? c) && (c <=? 57))%N.

Definition ascii_digits (s : text) : bool := forallb is_ascii_digit s.

(** What every decimal-digit table has: the digits 0 to 9 stand for
    themselves. *)
Definition reads_ascii_digits (decimal : N -> option nat) : Prop :=
  forall d, (d < 10)%nat -> decimal (48 + N.of_nat d)%N = Some d.

(** The decimal digits among the code points below 256: 0 to 9. *)
Definition latin1_decimal (c : N) : option nat :=
  if is_ascii_digit c then Some (N.to_nat (c - 48)) else None.

(** The decimal digits of a table that knows the digits 0 to 9 and the
    fullwidth digits U+FF10 to U+FF19. *)
Definition ascii_and_fullwidth (c : N) : option nat :=
  if ((48 <=? c) && (c <=? 57))%N then Some (N.to_nat (c - 48))
  else if ((65296 <=? c) && (c <=? 65305))%N
       then Some (N.to_nat (c - 65296))
       else None.

(** The CPF 529.982.247-25 written with fullwidth digits, and the CNPJ
    11.222.333/0001-81 written the same way. *)
Definition fullwidth (digits : list N) : text :=
  map (fun d => (65296 + d)%N) digits.

Definition fullwidth_cpf : text :=
  fullwidth [5; 2; 9; 9; 8; 2; 2; 4; 7; 2; 5]%N.

Definition fullwidth_cnpj : text :=
  fullwidth [1; 1; 2; 2; 2; 3; 3; 3; 0; 0; 0; 1; 8; 1]%N.

Definition identity_only_profile : dict cval :=
  add_metrics
    (dict_update consolidated_init (rg_update (data_of name_only_result))).

(** The file system with the image of the identity card only, and a
    model that answers every call with [first_object]. *)
Definition only_rg_file (path : string) : bool := String.eqb path "rg.jpg".

Definition answers_first_object (k : nat) (p : prompt) (image : string)
    : api_outcome := ApiText first_object.

Definition answers_429 (k : nat) (p : prompt) (image : string)
    : api_outcome := ApiStatus 429.

(** * Properties *)

(** ** The model on concrete inputs *)

Example strip_keeps_inner_spaces : strip "  ACME   LTDA  " = "ACME   LTDA".
Proof. reflexivity. Qed.

Example split_lines :
  split_on "010" ("a" ++ String "010" "b" ++ String "010" "")
  = ["a"; "b"; ""].
Proof. reflexivity. Qed.

Example clean_null_any_case : clean_value (PStr " NULL ") = PNone.
Proof. reflexivity. Qed.

Example backoff_delays :
  map (get_delay default_retry_config) [0; 1; 2; 3; 4; 5]
  = [2%Q; 4%Q; 8%Q; 16%Q; 30%Q; 30%Q].
Proof. reflexivity. Qed.

Example status_500_is_retryable :
  should_retry default_retry_config "Erro na API OCR: 500" 0 = true.
Proof. reflexivity. Qed.

Example status_401_is_not_retryable :
  should_retry default_retry_config "Erro na API OCR: 401" 0 = false.
Proof. reflexivity. Qed.

Example acme_is_accepted_with_two_of_three :
  option_map (fun q => (valid_fields q, total_required q, is_acceptable q,
                        missing_required q, Qred (score q)))
    (quality_metrics (validate_ocr_result acme_result "cnpj"))
  = Some (2, 3, true, ["nome_comprovante"],
          (2345624805922133 # 35184372088832)%Q).
Proof. reflexivity. Qed.

Example review_marker_is_listed :
  option_map (fun c => cget c "needsReview")
    (consolidate_customer_data
       [("rg", raw_result "rg" "(JSON)"
                 [("nome_completo", PStr "JOAO [REVISAR]")])])
  = Some (CList ["nomeCompleto"]).
Proof. reflexivity. Qed.

(** ** Strings and dictionaries *)

Lemma lstrip_nonempty (s : string) :
  nonempty (lstrip s) = true -> nonempty s = true.
Proof. destruct s; simpl; auto. Qed.

Lemma rstrip_nonempty (s : string) :
  nonempty (rstrip s) = true -> nonempty s = true.
Proof. destruct s; simpl; auto. Qed.

Lemma strip_nonempty (s : string) :
  nonempty (strip s) = true -> nonempty s = true.
Proof.
  unfold strip; intros H.
  apply rstrip_nonempty, lstrip_nonempty, H.
Qed.

Lemma lookup_map_values {V W} (f : V -> W) (d : dict V) (k : string) :
  lookup (map (fun kv => (fst kv, f (snd kv))) d) k
  = option_map f (lookup d k).
Proof.
  induction d as [|[k' v] d IH]; simpl; [reflexivity|].
  destruct (String.eqb k k'); [reflexivity | exact IH].
Qed.

(** ** Post-processing of the parser *)

(** The two shapes of a cleaned value. *)
Lemma clean_value_cases (v : pyval) :
  clean_value v = PNone
  \/ (clean_value v = PStr (strip (py_str v))
      /\ nonempty (strip (py_str v)) = true
      /\ mem (lower (strip (py_str v))) ["null"; "none"; ""] = false).
Proof.
  unfold clean_value.
  destruct (truthy v && nonempty (strip (py_str v))
            && negb (mem (lower (strip (py_str v))) ["null"; "none"; ""]))
    eqn:E; [right | left; reflexivity].
  apply andb_prop in E as [E E3]. apply andb_prop in E as [_ E2].
  apply negb_true_iff in E3. repeat split; assumption.
Qed.

Lemma dict_get_validated (data : dict pyval) (doc_type k : string) :
  dict_get (_validate_essential_fields data doc_type) k
  = clean_value (dict_get data k).
Proof.
  unfold dict_get, _validate_essential_fields.
  rewrite lookup_map_values.
  destruct (lookup data k); reflexivity.
Qed.

(** On a cleaned value the test of the evaluator is the specification's
    notion of a found field: the value is trimmed, and the extra marker
    [null] of the code cannot occur. *)
Lemma field_is_valid_clean (v : pyval) :
  field_is_valid (clean_value v) = spec_found (clean_value v).
Proof.
  destruct (clean_value_cases v) as [-> | (-> & Hne & Hmem)];
    [reflexivity|].
  set (t := strip (py_str v)) in *.
  unfold field_is_valid, spec_found, truthy, py_str.
  rewrite Hne; simpl.
  assert (Hnull : String.eqb t "null" = false).
  { destruct (String.eqb t "null") eqn:E; [|reflexivity].
    apply String.eqb_eq in E. rewrite E in Hmem. discriminate Hmem. }
  rewrite Hnull. reflexivity.
Qed.

(** ** Quality evaluator *)

Lemma count_fields_acc (parsed : dict pyval) (required : list string)
    (n : nat) (missing found : list string) :
  fold_left (count_step parsed) required (n, missing, found)
  = ( n + length (filter (fun f => field_is_valid (dict_get parsed f))
                    required),
      (missing ++ filter (fun f => negb (field_is_valid (dict_get parsed f)))
                    required)%list,
      (found ++ filter (fun f => field_is_valid (dict_get parsed f))
                  required)%list ).
Proof.
  revert n missing found.
  induction required as [|f req IH]; intros n missing found; simpl.
  - rewrite Nat.add_0_r, !app_nil_r. reflexivity.
  - destruct (field_is_valid (dict_get parsed f)) eqn:E; simpl;
      rewrite IH; simpl; rewrite <- ?app_assoc; simpl;
      repeat f_equal; lia.
Qed.

Lemma count_fields_filter (parsed : dict pyval) (required : list string) :
  count_fields parsed required
  = ( length (filter (fun f => field_is_valid (dict_get parsed f)) required),
      filter (fun f => negb (field_is_valid (dict_get parsed f))) required,
      filter (fun f => field_is_valid (dict_get parsed f)) required ).
Proof. unfold count_fields. rewrite count_fields_acc. reflexivity. Qed.

Lemma valid_count_of_parsed (data : dict pyval) (doc_type : string)
    (required : list string) :
  length (filter
            (fun f => field_is_valid
                        (dict_get (_validate_essential_fields data doc_type) f))
            required)
  = spec_found_count (_validate_essential_fields data doc_type) required.
Proof.
  unfold spec_found_count. f_equal. apply filter_ext. intros f.
  rewrite dict_get_validated. apply field_is_valid_clean.
Qed.

Lemma supported_schema (doc_type : string) :
  In doc_type ["rg"; "cnpj"; "address"] ->
  exists required min_fields,
    lookup quality_checks doc_type = Some (required, min_fields)
    /\ (0 < length required)%nat.
Proof.
  simpl; intros [<- | [<- | [<- | []]]];
    eexists; eexists; (split; [reflexivity | simpl; lia]).
Qed.

(** The schemas have two or three essential fields. *)
Lemma schema_sizes (doc_type : string) (required : list string)
    (min_fields : nat) :
  lookup quality_checks doc_type = Some (required, min_fields) ->
  length required = 2%nat \/ length required = 3%nat.
Proof.
  simpl.
  repeat match goal with
         | |- (if ?c then _ else _) = _ -> _ => destruct c
         end;
    intros H; inversion H; subst; simpl; auto.
Qed.

(** The score of each schema size, computed: it is exact when 100 * valid
    is a multiple of the total and rounded down by less than 10^-13
    otherwise. *)
Lemma quality_score_schema (valid total : nat) :
  total = 2%nat \/ total = 3%nat ->
  (valid <= total)%nat ->
  (0 <= quality_score valid total <= 100)%Q
  /\ ((quality_score valid total == 100)%Q <-> valid = total)
  /\ (quality_score valid total <= spec_score valid total)%Q
  /\ (spec_score valid total - quality_score valid total
      < 1 # 10000000000000)%Q
  /\ ((quality_score valid total == spec_score valid total)%Q
      <-> ((100 * valid) mod total = 0)%nat).
Proof.
  intros [-> | ->] Hle.
  - destruct valid as [|[|[|valid]]]; [| | |lia];
      (split; [split; vm_compute; discriminate|]);
      (split; [split; intros H; first [reflexivity | lia
                                      | vm_compute in H; discriminate H]|]);
      (split; [vm_compute; discriminate|]);
      (split; [vm_compute; reflexivity|]);
      split; intros H;
        first [reflexivity | vm_compute in H; discriminate H].
  - destruct valid as [|[|[|[|valid]]]]; [| | | |lia];
      (split; [split; vm_compute; discriminate|]);
      (split; [split; intros H; first [reflexivity | lia
                                      | vm_compute in H; discriminate H]|]);
      (split; [vm_compute; discriminate|]);
      (split; [vm_compute; reflexivity|]);
      split; intros H;
        first [reflexivity | vm_compute in H; discriminate H].
Qed.

(** The text of an integer starts with a digit or a minus sign. *)
Lemma of_Z_not_null (z : Z) : String.eqb (of_Z z) "null" = false.
Proof.
  unfold of_Z, NilZero.string_of_int.
  destruct (Z.to_int z) as [d | d]; [|reflexivity].
  unfold NilZero.string_of_uint. destruct d; reflexivity.
Qed.

(** The test of the evaluator against the specification's notion of a
    found field. *)
Lemma field_is_valid_spec (v : pyval) :
  field_is_valid v = spec_found v && negb (null_text_or_zero v).
Proof.
  unfold field_is_valid, spec_found, null_text_or_zero.
  destruct v as [|[|]|z|s]; try reflexivity.
  - cbn [truthy py_str mem existsb].
    rewrite of_Z_not_null, !orb_false_r.
    destruct (z =? 0)%Z; cbn [negb andb]; [|rewrite andb_true_r; reflexivity].
    rewrite andb_false_r. reflexivity.
  - cbn [truthy py_str mem existsb]. rewrite !orb_false_r.
    destruct (nonempty s) eqn:Es.
    + cbn [andb].
      destruct (nonempty (strip s)), (String.eqb s ILEGIVEL),
        (String.eqb s REVISAR), (String.eqb s "null"); reflexivity.
    + destruct s; [|discriminate Es]. reflexivity.
Qed.

(** C1, as the code has it. For every successful result and each of the
    document types rg, cnpj and address, the evaluator accepts exactly when
    the number of essential fields it counts reaches the schema's
    [min_fields].  It counts the fields that are found in the
    specification's sense (not null, not empty after trimming, not a marker
    of an illegible value or of a value to review), except those that hold
    the text [null], the integer 0 or [False]; on a record that went through
    the parser's cleaning the two counts are equal.  The score is the
    binary64 number [(valid / total) * 100]: never above 100 * valid / total,
    below it by less than 10^-13, and equal to it exactly when 100 * valid
    is a multiple of the total. *)
Theorem quality_evaluator_accepts_iff_enough_found
    (doc_type : string) (r : ocr_result) :
  In doc_type ["rg"; "cnpj"; "address"] ->
  success r = true ->
  exists required min_fields q,
    lookup quality_checks doc_type = Some (required, min_fields)
    /\ quality_metrics (validate_ocr_result r doc_type) = Some q
    /\ success (validate_ocr_result r doc_type) = is_acceptable q
    /\ (is_acceptable q = true <-> (min_fields <= valid_fields q)%nat)
    /\ valid_fields q
       = length
           (filter
              (fun field =>
                 spec_found (dict_get (data_of r) field)
                 && negb (null_text_or_zero (dict_get (data_of r) field)))
              required)
    /\ (forall data,
          parsed_data r = Some (_validate_essential_fields data doc_type) ->
          valid_fields q
          = spec_found_count
              (_validate_essential_fields data doc_type) required)
    /\ total_required q = length required
    /\ (score q <= spec_score (valid_fields q) (total_required q))%Q
    /\ (spec_score (valid_fields q) (total_required q) - score q
        < 1 # 10000000000000)%Q
    /\ ((score q == spec_score (valid_fields q) (total_required q))%Q
        <-> ((100 * valid_fields q) mod total_required q = 0)%nat).
Proof.
  intros Hin Hs.
  destruct (supported_schema doc_type Hin) as (required & min_fields & Hl & _).
  exists required, min_fields.
  pose proof (schema_sizes doc_type required min_fields Hl) as Hsize.
  set (valid := fun f => field_is_valid (dict_get (data_of r) f)).
  assert (Hle : (length (filter valid required) <= length required)%nat)
    by apply filter_length_le.
  destruct (quality_score_schema _ _ Hsize Hle)
    as (_ & _ & Hup & Hnear & Hexact).
  unfold validate_ocr_result. fold (data_of r).
  rewrite Hs, Hl. cbn [negb].
  rewrite count_fields_filter. fold valid.
  set (n := length (filter valid required)) in *.
  assert (Hcount :
    n = length
          (filter
             (fun field =>
                spec_found (dict_get (data_of r) field)
                && negb (null_text_or_zero (dict_get (data_of r) field)))
             required)).
  { subst n valid. f_equal. apply filter_ext. intros f.
    apply field_is_valid_spec. }
  assert (Hclean : forall data,
    parsed_data r = Some (_validate_essential_fields data doc_type) ->
    n = spec_found_count (_validate_essential_fields data doc_type) required).
  { intros data Hp. subst n valid. unfold data_of. rewrite Hp.
    apply valid_count_of_parsed. }
  destruct (min_fields <=? n)%nat eqn:E; cbn [negb];
    eexists; (split; [reflexivity|]); (split; [reflexivity|]);
    cbn [success is_acceptable valid_fields total_required score];
    (split; [rewrite ?Hs; reflexivity|]);
    (split; [|split; [exact Hcount|split; [exact Hclean|split; [reflexivity|
       split; [exact Hup|split; [exact Hnear|exact Hexact]]]]]]).
  - apply Nat.leb_le in E. split; auto.
  - apply Nat.leb_gt in E. split; [discriminate | lia].
Qed.

Lemma lower_eq_empty (s : string) : String.eqb (lower s) "" = negb (nonempty s).
Proof. destruct s; reflexivity. Qed.

(** The emptiness test of the cleaning is subsumed by the comparison with
    the empty string. *)
Lemma clean_value_eq (v : pyval) :
  clean_value v
  = if truthy v
       && negb (mem (lower (strip (py_str v))) ["null"; "none"; ""])
    then PStr (strip (py_str v))
    else PNone.
Proof.
  unfold clean_value.
  destruct (truthy v); simpl; [|reflexivity].
  destruct (nonempty (strip (py_str v))) eqn:E; simpl; [reflexivity|].
  rewrite lower_eq_empty, E; simpl.
  rewrite !orb_true_r. reflexivity.
Qed.

Lemma clean_value_str (s : string) :
  clean_value (PStr s)
  = if mem (lower (strip s)) ["null"; "none"; ""] then PNone
    else PStr (strip s).
Proof.
  rewrite clean_value_eq.
  change (truthy (PStr s)) with (nonempty s).
  change (py_str (PStr s)) with s.
  destruct (mem (lower (strip s)) ["null"; "none"; ""]) eqn:E.
  - rewrite andb_false_r. reflexivity.
  - assert (H : nonempty (strip s) = true).
    { destruct (nonempty (strip s)) eqn:E'; [reflexivity|].
      unfold mem in E; simpl in E. rewrite lower_eq_empty, E' in E.
      simpl in E. rewrite !orb_true_r in E. discriminate E. }
    rewrite (strip_nonempty _ H). reflexivity.
Qed.

Section PipelineFacts.

Variable json_loads : string -> option (dict pyval).
Variable re_search : string -> string -> list re_flag -> option string.
Variable re_findall : string -> string -> list re_flag -> list string.
Variable re_match : string -> string -> bool.
Variable re_sub : string -> string -> string -> string.
Variable set_iter : list string -> list string.

Abbreviation parse :=
  (parse_extracted_data json_loads re_search re_findall re_match re_sub
     set_iter).
Abbreviation regex_fallback :=
  (_extract_with_focused_regex re_search re_findall re_match re_sub set_iter).

(** Both strategies end in the same post-processing. *)
Lemma parse_is_validated (raw_text doc_type : string) :
  exists data,
    parse raw_text doc_type = _validate_essential_fields data doc_type.
Proof.
  unfold parse_extracted_data.
  destruct (_extract_json_from_text json_loads re_findall raw_text)
    as [[|kv d]|]; eexists; reflexivity.
Qed.

(** C8, as the code has it. Whatever strategy produced the record, every
    value went through the same cleaning: a value that is falsy, or that
    after trimming reads [null], [none] or nothing (in any letter case)
    becomes null, and any other value becomes its trimmed text; white space
    inside the value is kept as it is. *)
Theorem post_processing_trims_and_normalises
    (raw_text doc_type : string) :
  (exists data,
     parse raw_text doc_type = _validate_essential_fields data doc_type)
  /\ (forall data k,
        lookup (_validate_essential_fields data doc_type) k
        = option_map clean_value (lookup data k))
  /\ (forall v,
        clean_value v
        = if truthy v
             && negb (mem (lower (strip (py_str v))) ["null"; "none"; ""])
          then PStr (strip (py_str v))
          else PNone)
  /\ (forall s,
        clean_value (PStr s)
        = if mem (lower (strip s)) ["null"; "none"; ""] then PNone
          else PStr (strip s)).
Proof.
  split; [apply parse_is_validated|].
  split; [intros data k; apply lookup_map_values|].
  split; [apply clean_value_eq | apply clean_value_str].
Qed.

(** C5, what the code does. When the trimmed text opens and closes with a
    brace but does not decode, [_extract_json_from_text] gives up at once:
    the embedded candidates are never tried and the parser goes to the
    pattern extraction. *)
Theorem direct_json_failure_skips_embedded (text doc_type : string) :
  startswith (strip text) "{" && endswith (strip text) "}" = true ->
  json_loads (strip text) = None ->
  _extract_json_from_text json_loads re_findall text = None
  /\ parse text doc_type
     = _validate_essential_fields (regex_fallback text doc_type) doc_type.
Proof.
  intros Hdirect Hfail.
  assert (H : _extract_json_from_text json_loads re_findall text = None).
  { unfold _extract_json_from_text. rewrite Hdirect. exact Hfail. }
  split; [exact H|].
  unfold parse_extracted_data. rewrite H. reflexivity.
Qed.

(** *** Dictionaries and loops *)

Lemma lookup_dict_set {V} (d : dict V) (k k' : string) (v : V) :
  lookup (dict_set d k v) k'
  = if String.eqb k' k then Some v else lookup d k'.
Proof.
  induction d as [|[k0 v0] d IH]; simpl; [reflexivity|].
  destruct (String.eqb k k0) eqn:E; simpl.
  - apply String.eqb_eq in E; subst k0.
    destruct (String.eqb k' k); reflexivity.
  - rewrite IH.
    destruct (String.eqb k' k0) eqn:E0; [|reflexivity].
    apply String.eqb_eq in E0; subst k0.
    destruct (String.eqb k' k) eqn:E1; [|reflexivity].
    apply String.eqb_eq in E1; subst k'.
    rewrite String.eqb_refl in E. discriminate E.
Qed.

Lemma dict_get_set (d : dict pyval) (k k' : string) (v : pyval) :
  dict_get (dict_set d k v) k'
  = if String.eqb k' k then v else dict_get d k'.
Proof.
  unfold dict_get. rewrite lookup_dict_set.
  destruct (String.eqb k' k); reflexivity.
Qed.

(** A loop with [break]: [P] holds while the loop runs, [Q] after a
    [break]. *)
Lemma for_break_inv {A S : Type} (P Q : S -> Prop)
    (body : A -> S -> S * bool) :
  (forall x s, P s ->
     (snd (body x s) = true -> Q (fst (body x s)))
     /\ (snd (body x s) = false -> P (fst (body x s)))) ->
  forall xs s, P s ->
    P (for_break xs body s) \/ Q (for_break xs body s).
Proof.
  intros Hbody xs.
  induction xs as [|x xs IH]; intros s Hs; simpl; [left; exact Hs|].
  destruct (Hbody x s Hs) as [Hq Hp].
  destruct (body x s) as [s' broke]; simpl in *.
  destruct broke; [right; apply Hq; reflexivity|].
  apply IH, Hp; reflexivity.
Qed.

Lemma for_break_same {A S : Type} (P : S -> Prop)
    (body : A -> S -> S * bool) :
  (forall x s, P s -> P (fst (body x s))) ->
  forall xs s, P s -> P (for_break xs body s).
Proof.
  intros Hbody xs s Hs.
  destruct (for_break_inv P P body) with (xs := xs) (s := s); auto.
Qed.

(** *** Pattern extraction for the registration certificate *)

Abbreviation cnpj_fallback :=
  (_extract_cnpj_fields re_search re_match re_sub).

(** C10. In the pattern extraction for the cnpj document, a record whose
    [empresa] is not null has the same company name under
    [nome_comprovante], which is therefore not null either. *)
Theorem cnpj_fallback_empresa_gives_nome_comprovante (text : string) :
  dict_get (cnpj_fallback text) "empresa" <> PNone ->
  dict_get (cnpj_fallback text) "nome_comprovante"
  = dict_get (cnpj_fallback text) "empresa"
  /\ dict_get (cnpj_fallback text) "nome_comprovante" <> PNone.
Proof.
  unfold _extract_cnpj_fields; cbv zeta.
  set (P := fun r : dict pyval =>
              dict_get r "empresa" = PNone
              /\ dict_get r "nome_comprovante" = PNone).
  set (Q := fun r : dict pyval =>
              exists e, dict_get r "empresa" = PStr e
                        /\ dict_get r "nome_comprovante" = PStr e
                        /\ nonempty e = true).
  set (r1 := for_break [_; _] _ _).
  assert (H1 : P r1).
  { subst r1. apply for_break_same; [|split; reflexivity].
    intros pattern r [He Hn].
    destruct (re_search pattern text [IGNORECASE]) as [c|]; simpl;
      [|split; assumption].
    destruct (String.length (re_sub "[^\d]" "" c) =? 14)%nat; simpl;
      [|split; assumption].
    split; rewrite dict_get_set; simpl; assumption. }
  set (r2 := for_break _ _ r1).
  assert (H2 : P r2 \/ Q r2).
  { subst r2. apply for_break_inv; [|exact H1].
    intros pattern r [He Hn].
    destruct (re_search pattern text [IGNORECASE; MULTILINE]) as [g|];
      cbn [fst snd];
      [|split; [discriminate | intros _; split; assumption]].
    destruct (5 <=? String.length (strip g))%nat eqn:E; cbn [fst snd];
      [|split; [discriminate | intros _; split; assumption]].
    split; [intros _ | discriminate].
    rewrite dict_get_set; simpl. rewrite Hn; simpl.
    exists (strip g). rewrite !dict_get_set; simpl.
    repeat split.
    destruct (strip g); [discriminate E | reflexivity]. }
  destruct H2 as [[He Hn] | (e & He & Hn & Hne)].
  - rewrite Hn; simpl. intros Habs. exfalso. apply Habs.
    apply (for_break_same (fun r => dict_get r "empresa" = PNone));
      [|exact He].
    intros line r Hr.
    destruct (_ && _); simpl; [|exact Hr].
    rewrite dict_get_set; simpl. exact Hr.
  - rewrite Hn; simpl. rewrite Hne; simpl.
    intros _. rewrite Hn, He. split; [reflexivity | discriminate].
Qed.

(** *** Document types without a schema *)

Lemma unsupported_eqb (doc_type : string) :
  ~ In doc_type ["rg"; "cnpj"; "address"] ->
  String.eqb doc_type "rg" = false
  /\ String.eqb doc_type "cnpj" = false
  /\ String.eqb doc_type "address" = false.
Proof.
  intros H.
  repeat split;
    (destruct (String.eqb doc_type _) eqn:E; [|reflexivity];
     apply String.eqb_eq in E; exfalso; apply H; subst; simpl; auto).
Qed.

(** C7, as the code has it. For a document type that is none of rg, cnpj
    and address, nothing fails: the prompt is the cnpj prompt, the pattern
    extraction gives an empty record, the quality evaluation hands the
    result back untouched, and a document whose model call answers is
    reported as a success without error and without quality metrics. *)
Theorem unknown_document_type_uses_defaults (doc_type : string) :
  ~ In doc_type ["rg"; "cnpj"; "address"] ->
  get_document_prompt doc_type = prompt_cnpj
  /\ (forall text, regex_fallback text doc_type = [])
  /\ (forall r, validate_ocr_result r doc_type = r)
  /\ (forall api image_path text,
        api prompt_cnpj image_path = ApiText text ->
        let r :=
          process_document_body json_loads re_search re_findall re_match
            re_sub set_iter api image_path doc_type in
        success r = true /\ error r = None /\ quality_metrics r = None).
Proof.
  intros H. destruct (unsupported_eqb doc_type H) as (Hrg & Hcnpj & Haddr).
  assert (Hprompt : get_document_prompt doc_type = prompt_cnpj).
  { unfold get_document_prompt; simpl. rewrite Hrg, Hcnpj, Haddr.
    reflexivity. }
  assert (Hval : forall r, validate_ocr_result r doc_type = r).
  { intros r. unfold validate_ocr_result; simpl.
    rewrite Hrg, Hcnpj, Haddr. destruct (success r); reflexivity. }
  split; [exact Hprompt|].
  split.
  { intros text. unfold _extract_with_focused_regex.
    rewrite Hrg, Hcnpj, Haddr. reflexivity. }
  split; [exact Hval|].
  intros api image_path text Hapi r. subst r.
  unfold process_document_body.
  destruct (String.eqb doc_type "facade"); [repeat split|].
  rewrite Hprompt, Hapi, Hval. repeat split.
Qed.

End PipelineFacts.

(** ** Retry decorator *)

Lemma should_retry_eq (cfg : OCRRetryConfig) (msg : string) (attempt : nat) :
  should_retry cfg msg attempt
  = (attempt <? max_retries cfg)%nat && transient msg.
Proof.
  unfold should_retry, transient.
  destruct (max_retries cfg <=? attempt)%nat eqn:E.
  - apply Nat.leb_le in E.
    assert (H : (attempt <? max_retries cfg)%nat = false)
      by (apply Nat.ltb_ge; exact E).
    rewrite H. reflexivity.
  - apply Nat.leb_gt in E.
    assert (H : (attempt <? max_retries cfg)%nat = true)
      by (apply Nat.ltb_lt; exact E).
    rewrite H. reflexivity.
Qed.

(** When every attempt fails with a transient message the loop uses every
    iteration it has. *)
Lemma retry_loop_all_transient (cfg : OCRRetryConfig) (func : nat -> outcome) :
  (forall k, exists msg, fails_with (func k) msg /\ transient msg = true) ->
  forall remaining attempt last_exception slept,
    (attempt + remaining = max_retries cfg + 1)%nat ->
    (1 <= remaining)%nat ->
    let r := retry_loop cfg func remaining attempt last_exception slept in
    calls r = (max_retries cfg + 1)%nat
    /\ success (final r) = false
    /\ length (sleeps r) = (length slept + (remaining - 1))%nat.
Proof.
  intros Hfail remaining.
  induction remaining as [|rem IH]; intros attempt last slept Hsum Hpos;
    [lia|].
  destruct (Hfail attempt) as (msg & Hf & Ht).
  cbn [retry_loop].
  destruct (attempt <? max_retries cfg)%nat eqn:Elt.
  - apply Nat.ltb_lt in Elt.
    assert (Hrec :
      let r := retry_loop cfg func rem (S attempt) (Some msg)
                 (slept ++ [get_delay cfg attempt]) in
      calls r = (max_retries cfg + 1)%nat
      /\ success (final r) = false
      /\ length (sleeps r) = (length slept + (S rem - 1))%nat).
    { destruct (IH (S attempt) (Some msg) (slept ++ [get_delay cfg attempt])%list)
        as (Hc & Hs & Hl); [lia | lia |].
      cbv zeta. rewrite Hc, Hs, Hl, length_app. simpl. repeat split; lia. }
    destruct Hf as [-> | (res & -> & Hs & He)].
    + rewrite should_retry_eq, Ht, (proj2 (Nat.ltb_lt _ _) Elt). exact Hrec.
    + rewrite Hs, He. cbn [negb].
      rewrite should_retry_eq, Ht, (proj2 (Nat.ltb_lt _ _) Elt). exact Hrec.
  - apply Nat.ltb_ge in Elt.
    assert (rem = 0)%nat by lia. subst rem.
    destruct Hf as [-> | (res & -> & Hs & He)].
    + rewrite should_retry_eq, (proj2 (Nat.ltb_ge _ _) Elt). simpl.
      repeat split; lia.
    + rewrite Hs, He. cbn [negb].
      rewrite should_retry_eq, (proj2 (Nat.ltb_ge _ _) Elt). simpl.
      repeat split; [lia | exact Hs | lia].
Qed.

(** The wrapper always leaves through a [return] or the [break]: the value
    it returns is decided by its last call. *)
Lemma retry_loop_last_call (cfg : OCRRetryConfig) (func : nat -> outcome) :
  forall remaining attempt last_exception slept,
    (attempt + remaining = max_retries cfg + 1)%nat ->
    (1 <= remaining)%nat ->
    let r := retry_loop cfg func remaining attempt last_exception slept in
    (attempt < calls r <= max_retries cfg + 1)%nat
    /\ match func (calls r - 1)%nat with
       | Returned res => final r = res
       | Raised e => final r = all_attempts_failed cfg (Some e)
       end.
Proof.
  induction remaining as [|rem IH]; intros attempt last slept Hsum Hpos;
    [lia|].
  assert (Hrec : forall last' slept',
    (attempt <? max_retries cfg)%nat = true ->
    let r := retry_loop cfg func rem (S attempt) last' slept' in
    (attempt < calls r <= max_retries cfg + 1)%nat
    /\ match func (calls r - 1)%nat with
       | Returned res => final r = res
       | Raised e => final r = all_attempts_failed cfg (Some e)
       end).
  { intros last' slept' Elt. apply Nat.ltb_lt in Elt.
    destruct (IH (S attempt) last' slept') as [Hc Hm]; [lia | lia |].
    split; [lia | exact Hm]. }
  assert (Hstop : forall res slept',
    func attempt = Returned res ->
    let r := mk_run res (S attempt) slept' in
    (attempt < calls r <= max_retries cfg + 1)%nat
    /\ match func (calls r - 1)%nat with
       | Returned res => final r = res
       | Raised e => final r = all_attempts_failed cfg (Some e)
       end).
  { intros res slept' Hf. cbn [calls final].
    replace (S attempt - 1)%nat with attempt by lia.
    rewrite Hf. split; [lia | reflexivity]. }
  cbn [retry_loop].
  destruct (func attempt) as [res | e] eqn:Hf.
  - destruct (success res); cbn [negb]; [apply Hstop; reflexivity|].
    rewrite should_retry_eq.
    destruct (attempt <? max_retries cfg)%nat eqn:Elt; cbn [andb];
      [|apply Hstop; reflexivity].
    destruct (transient _); [|apply Hstop; reflexivity].
    apply Hrec; reflexivity.
  - rewrite should_retry_eq.
    destruct (attempt <? max_retries cfg)%nat eqn:Elt; cbn [andb negb].
    + destruct (transient e); cbn [negb]; [apply Hrec; reflexivity|].
      cbn [calls final]. replace (S attempt - 1)%nat with attempt by lia.
      rewrite Hf. split; [lia | reflexivity].
    + cbn [calls final]. replace (S attempt - 1)%nat with attempt by lia.
      rewrite Hf. split; [lia | reflexivity].
Qed.

(** The wrapper sleeps once before every call but the first, and the
    delay before call [k + 1] is [get_delay k]. *)
Lemma retry_loop_sleeps (cfg : OCRRetryConfig) (func : nat -> outcome) :
  forall remaining attempt last_exception slept,
    (attempt + remaining = max_retries cfg + 1)%nat ->
    (1 <= remaining)%nat ->
    slept = map (get_delay cfg) (seq 0 attempt) ->
    sleeps (retry_loop cfg func remaining attempt last_exception slept)
    = map (get_delay cfg)
        (seq 0 (calls (retry_loop cfg func remaining attempt
                         last_exception slept) - 1)).
Proof.
  induction remaining as [|rem IH]; intros attempt last slept Hsum Hpos Hsl;
    [lia|].
  assert (Hstop : forall res,
    sleeps (mk_run res (S attempt) slept)
    = map (get_delay cfg) (seq 0 (calls (mk_run res (S attempt) slept) - 1))).
  { intros res. cbn [sleeps calls].
    replace (S attempt - 1)%nat with attempt by lia. exact Hsl. }
  assert (Hrec : forall last',
    (attempt <? max_retries cfg)%nat = true ->
    sleeps (retry_loop cfg func rem (S attempt) last'
              (slept ++ [get_delay cfg attempt]))
    = map (get_delay cfg)
        (seq 0 (calls (retry_loop cfg func rem (S attempt) last'
                         (slept ++ [get_delay cfg attempt])) - 1))).
  { intros last' Elt. apply Nat.ltb_lt in Elt.
    apply IH; [lia | lia |].
    rewrite seq_S, map_app, Hsl. reflexivity. }
  cbn [retry_loop].
  destruct (func attempt) as [res | e].
  - destruct (success res); cbn [negb]; [apply Hstop|].
    rewrite should_retry_eq.
    destruct (attempt <? max_retries cfg)%nat eqn:Elt; cbn [andb];
      [|apply Hstop].
    destruct (transient _); [|apply Hstop].
    apply Hrec; reflexivity.
  - rewrite should_retry_eq.
    destruct (attempt <? max_retries cfg)%nat eqn:Elt; cbn [andb negb];
      [|apply Hstop].
    destruct (transient e); cbn [negb]; [apply Hrec; reflexivity|].
    apply Hstop.
Qed.

(** Every call but the last failed with a transient message, and the last
    call is the one at the retry bound or one that did not. *)
Lemma retry_loop_stops (cfg : OCRRetryConfig) (func : nat -> outcome) :
  forall remaining attempt last_exception slept,
    (attempt + remaining = max_retries cfg + 1)%nat ->
    (1 <= remaining)%nat ->
    let r := retry_loop cfg func remaining attempt last_exception slept in
    (forall j, (attempt <= j)%nat -> (S j < calls r)%nat ->
       transient_failure (func j))
    /\ (calls r = (max_retries cfg + 1)%nat
        \/ ~ transient_failure (func (calls r - 1)%nat)).
Proof.
  induction remaining as [|rem IH]; intros attempt last slept Hsum Hpos;
    [lia|].
  assert (Hstop : forall res slept',
    (attempt = max_retries cfg \/ ~ transient_failure (func attempt)) ->
    let r := mk_run res (S attempt) slept' in
    (forall j, (attempt <= j)%nat -> (S j < calls r)%nat ->
       transient_failure (func j))
    /\ (calls r = (max_retries cfg + 1)%nat
        \/ ~ transient_failure (func (calls r - 1)%nat))).
  { intros res slept' H. cbn [calls].
    replace (S attempt - 1)%nat with attempt by lia.
    split; [intros j Hj Hlt; lia|].
    destruct H as [-> | H]; [left; lia | right; exact H]. }
  assert (Hrec : forall last' slept',
    (attempt <? max_retries cfg)%nat = true ->
    transient_failure (func attempt) ->
    let r := retry_loop cfg func rem (S attempt) last' slept' in
    (forall j, (attempt <= j)%nat -> (S j < calls r)%nat ->
       transient_failure (func j))
    /\ (calls r = (max_retries cfg + 1)%nat
        \/ ~ transient_failure (func (calls r - 1)%nat))).
  { intros last' slept' Elt Hfail. apply Nat.ltb_lt in Elt.
    destruct (IH (S attempt) last' slept') as [Hbefore Hlast]; [lia | lia |].
    split; [|exact Hlast].
    intros j Hj Hlt.
    destruct (Nat.eq_dec j attempt) as [-> | Hne]; [exact Hfail|].
    apply Hbefore; [lia | exact Hlt]. }
  cbn [retry_loop].
  destruct (func attempt) as [res | e] eqn:Hf.
  - destruct (success res) eqn:Hs; cbn [negb].
    + apply Hstop. right. intros (msg & [Hr | (r' & Hr & Hs' & _)] & _);
        [discriminate Hr|].
      inversion Hr; subst r'. congruence.
    + rewrite should_retry_eq.
      destruct (attempt <? max_retries cfg)%nat eqn:Elt; cbn [andb].
      * destruct (transient _) eqn:Ht.
        -- apply Hrec; [reflexivity|].
           destruct (error res) as [m|] eqn:He; [|discriminate Ht].
           exists m. split; [|exact Ht].
           right. exists res. repeat split; assumption.
        -- apply Hstop. right.
           intros (msg & [Hr | (r' & Hr & _ & He)] & Hm);
             [discriminate Hr|].
           inversion Hr; subst r'. rewrite He in Ht. congruence.
      * apply Hstop. left. apply Nat.ltb_ge in Elt. lia.
  - rewrite should_retry_eq.
    destruct (attempt <? max_retries cfg)%nat eqn:Elt; cbn [andb negb].
    + destruct (transient e) eqn:Ht; cbn [negb].
      * apply Hrec; [reflexivity|].
        exists e. split; [left; reflexivity | exact Ht].
      * apply Hstop. right.
        intros (msg & [Hr | (r' & Hr & _)] & Hm); [|discriminate Hr].
        inversion Hr; subst msg. congruence.
    + apply Hstop. left. apply Nat.ltb_ge in Elt. lia.
Qed.

(** C4. With [max_retries = 3] the wrapper makes between one and four
    calls, and it makes the fourth exactly when the first three all failed
    with a message that matches a transient keyword.  When all four fail
    that way, the run is: four calls, a sleep of [get_delay 0],
    [get_delay 1] and [get_delay 2] between them, and a returned value
    decided by the fourth call (that call's failed result, or the
    dictionary built after the loop from its exception) whose [success] is
    false. *)
Theorem retry_bound_four_attempts
    (cfg : OCRRetryConfig) (func : nat -> outcome) :
  max_retries cfg = 3%nat ->
  (1 <= calls (retry_ocr cfg func) <= 4)%nat
  /\ (calls (retry_ocr cfg func) = 4%nat
      <-> forall k, (k < 3)%nat -> transient_failure (func k))
  /\ ((forall k, (k < 4)%nat -> transient_failure (func k)) ->
      retry_ocr cfg func
      = mk_run
          match func 3%nat with
          | Returned res => res
          | Raised e => all_attempts_failed cfg (Some e)
          end
          4 (map (get_delay cfg) [0; 1; 2]%nat)
      /\ success (final (retry_ocr cfg func)) = false).
Proof.
  intros Hmax.
  destruct (retry_loop_last_call cfg func (max_retries cfg + 1) 0 None [])
    as [Hc Hlast]; [lia | lia |].
  destruct (retry_loop_stops cfg func (max_retries cfg + 1) 0 None [])
    as [Hbefore Hstop]; [lia | lia |].
  pose proof (retry_loop_sleeps cfg func (max_retries cfg + 1) 0 None []
                ltac:(lia) ltac:(lia) eq_refl) as Hsl.
  fold (retry_ocr cfg func) in Hc, Hlast, Hbefore, Hstop, Hsl.
  rewrite Hmax in Hc, Hstop.
  assert (Hiff : calls (retry_ocr cfg func) = 4%nat
                 <-> forall k, (k < 3)%nat -> transient_failure (func k)).
  { split.
    - intros E k Hk. apply Hbefore; lia.
    - intros Hfail. destruct Hstop as [E | Hno]; [exact E|].
      destruct (Nat.eq_dec (calls (retry_ocr cfg func)) 4) as [E | Hne];
        [exact E|].
      exfalso. apply Hno. apply Hfail. lia. }
  split; [lia|]. split; [exact Hiff|].
  intros Hfail.
  assert (E : calls (retry_ocr cfg func) = 4%nat)
    by (apply Hiff; intros k Hk; apply Hfail; lia).
  rewrite E in Hlast, Hsl. cbn [Nat.sub seq] in Hlast, Hsl.
  assert (Hfin : final (retry_ocr cfg func)
                 = match func 3%nat with
                   | Returned res => res
                   | Raised e => all_attempts_failed cfg (Some e)
                   end)
    by (destruct (func 3%nat); exact Hlast).
  split.
  - destruct (retry_ocr cfg func) as [f c sl].
    cbn [final calls sleeps] in *. rewrite Hfin, E, Hsl. reflexivity.
  - rewrite Hfin.
    destruct (Hfail 3%nat ltac:(lia))
      as (msg & [-> | (res & -> & Hs & _)] & _); [reflexivity | exact Hs].
Qed.

(** The rejection messages of the evaluator match no retry keyword. *)
Lemma rejection_not_retryable (cfg : OCRRetryConfig) (attempt : nat)
    (doc_type : string) (required : list string) (min_fields valid : nat) :
  lookup quality_checks doc_type = Some (required, min_fields) ->
  (valid < min_fields)%nat ->
  should_retry cfg (rejection_message valid (length required) min_fields)
    attempt = false.
Proof.
  intros Hl Hlt.
  rewrite should_retry_eq.
  destruct (attempt <? max_retries cfg)%nat; [|reflexivity].
  simpl in Hl.
  repeat match type of Hl with
         | (if ?c then _ else _) = _ => destruct c
         end;
    inversion Hl; subst; clear Hl;
    repeat (destruct valid as [|valid]; [vm_compute; reflexivity|]); lia.
Qed.

Lemma rejected_result (r : ocr_result) (doc_type : string) :
  In doc_type ["rg"; "cnpj"; "address"] ->
  success r = true ->
  success (validate_ocr_result r doc_type) = false ->
  exists required min_fields valid,
    lookup quality_checks doc_type = Some (required, min_fields)
    /\ (valid < min_fields)%nat
    /\ error (validate_ocr_result r doc_type)
       = Some (rejection_message valid (length required) min_fields).
Proof.
  intros Hin Hs Hrej.
  destruct (supported_schema doc_type Hin) as (required & min_fields & Hl & _).
  exists required, min_fields.
  unfold validate_ocr_result in *.
  rewrite Hs, Hl in *. cbn [negb] in *.
  destruct (count_fields _ required) as [[valid missing] found].
  exists valid.
  destruct (min_fields <=? valid)%nat eqn:E; cbn [negb] in *.
  - simpl in Hrej. congruence.
  - apply Nat.leb_gt in E.
    split; [first [reflexivity | exact Hl]|].
    split; [exact E | reflexivity].
Qed.

(** C2, what the code does. A result rejected by the quality evaluator is
    handed back after the first call: its message matches no retry
    keyword, so the wrapper neither sleeps nor calls again, whatever
    [max_retries] is. *)
Theorem quality_rejection_is_not_retried
    (cfg : OCRRetryConfig) (func : nat -> outcome)
    (r : ocr_result) (doc_type : string) :
  In doc_type ["rg"; "cnpj"; "address"] ->
  success r = true ->
  success (validate_ocr_result r doc_type) = false ->
  func 0%nat = Returned (validate_ocr_result r doc_type) ->
  retry_ocr cfg func = mk_run (validate_ocr_result r doc_type) 1 [].
Proof.
  intros Hin Hs Hrej Hfunc.
  destruct (rejected_result r doc_type Hin Hs Hrej)
    as (required & min_fields & valid & Hl & Hlt & Herr).
  unfold retry_ocr. rewrite Nat.add_1_r. cbn [retry_loop].
  rewrite Hfunc, Hrej, Herr. cbn [negb].
  rewrite (rejection_not_retryable cfg 0 doc_type required min_fields valid Hl Hlt).
  reflexivity.
Qed.

(** C9, as the code has it. In a run whose delays are all computed (up to
    1024 retries, or a strategy other than the exponential one), the value
    returned by the wrapper is decided by its last call.  When that call
    returned a result, the result is handed back verbatim (so a failed one
    keeps its own error message, and no attempt count is added).  When
    that call raised, the returned dictionary has [success] false and the
    message of that exception as [last_error], and if all
    [max_retries + 1] calls were made its [retry_attempts] is the number
    of calls. *)
Theorem failed_run_reports_last_error
    (cfg : OCRRetryConfig) (func : nat -> outcome) :
  delays_computed cfg (max_retries cfg) ->
  (1 <= calls (retry_ocr cfg func) <= max_retries cfg + 1)%nat
  /\ match func (calls (retry_ocr cfg func) - 1)%nat with
     | Returned res => final (retry_ocr cfg func) = res
     | Raised e =>
         success (final (retry_ocr cfg func)) = false
         /\ last_error (final (retry_ocr cfg func)) = Some e
         /\ (calls (retry_ocr cfg func) = (max_retries cfg + 1)%nat ->
             retry_attempts (final (retry_ocr cfg func))
             = Some (calls (retry_ocr cfg func)))
     end.
Proof.
  intros _.
  destruct (retry_loop_last_call cfg func (max_retries cfg + 1) 0 None [])
    as [Hc Hm]; [lia | lia |].
  fold (retry_ocr cfg func) in Hc, Hm.
  split; [lia|].
  destruct (func (calls (retry_ocr cfg func) - 1)%nat) as [res | e];
    [exact Hm|].
  rewrite Hm. cbn. repeat split. intros ->. reflexivity.
Qed.

(** ** Consolidator *)

Lemma cget_dict_set (d : dict cval) (k k' : string) (v : cval) :
  cget (dict_set d k v) k' = if String.eqb k' k then v else cget d k'.
Proof.
  unfold cget. rewrite lookup_dict_set.
  destruct (String.eqb k' k); reflexivity.
Qed.

Lemma address_block_add_metrics (c : dict cval) :
  address_block (add_metrics c) = address_block c.
Proof.
  unfold add_metrics; cbv zeta.
  match goal with
  | |- context [match ?x with CList _ => _ | _ => _ end] => destruct x
  end;
    unfold address_block, address_keys; cbn [map];
    rewrite !cget_dict_set; reflexivity.
Qed.

Lemma no_successful_document (ocr_results : dict ocr_result) (k : string) :
  (forall k r, lookup ocr_results k = Some r -> success r = false) ->
  present_and_successful ocr_results k = None.
Proof.
  intros H. unfold present_and_successful.
  destruct (lookup ocr_results k) as [r|] eqn:E; [|reflexivity].
  rewrite (H k r E). reflexivity.
Qed.

(** C3, what the code does. When every document failed a profile is still
    returned, but its confidence score is not 0: the count of filled
    fields runs over all values of the dictionary, the three numeric
    metadata entries included, so 3 of 17 fields are reported as
    extracted and the score is 300/17. *)
Theorem all_failed_confidence_counts_metadata
    (ocr_results : dict ocr_result) :
  (forall k r, lookup ocr_results k = Some r -> success r = false) ->
  exists c,
    consolidate_customer_data ocr_results = Some c
    /\ c = add_metrics consolidated_init
    /\ cget c "fieldsTotal" = CData (PInt 17)
    /\ cget c "fieldsExtracted" = CData (PInt 3)
    /\ cget c "confidenceScore" = CFloat (300 # 17)
    /\ (forall k, counts_as_field k = true -> cget c k = CData PNone).
Proof.
  intros H.
  exists (add_metrics consolidated_init).
  unfold consolidate_customer_data, merge_cnpj, merge_rg, merge_address.
  rewrite !(no_successful_document ocr_results _ H).
  repeat split.
  intros k Hk.
  assert (Hc : add_metrics consolidated_init
               = dict_set (dict_set (dict_set consolidated_init
                   "fieldsTotal" (CData (PInt 17)))
                   "fieldsExtracted" (CData (PInt 3)))
                   "confidenceScore" (CFloat (300 # 17)))
    by reflexivity.
  rewrite Hc, !cget_dict_set.
  unfold counts_as_field in Hk.
  apply andb_prop in Hk as [Hk Hn]. apply andb_prop in Hk as [Hcf Hf].
  destruct (String.eqb k "confidenceScore") eqn:E1.
  { apply String.eqb_eq in E1; subst k. discriminate Hcf. }
  destruct (String.eqb k "fieldsExtracted") eqn:E2.
  { apply String.eqb_eq in E2; subst k. discriminate Hf. }
  destruct (String.eqb k "fieldsTotal") eqn:E3.
  { apply String.eqb_eq in E3; subst k. discriminate Hf. }
  apply negb_true_iff in Hn.
  unfold cget, consolidated_init; cbn [lookup].
  rewrite E1, E2, E3, Hn.
  repeat match goal with
         | |- context [String.eqb k ?s] => destruct (String.eqb k s)
         end; reflexivity.
Qed.

Lemma successful_has_data (ocr_results : dict ocr_result) (k : string)
    (r : ocr_result) :
  (forall k r, lookup ocr_results k = Some r -> success r = true ->
               parsed_data r <> None) ->
  present_and_successful ocr_results k = Some r ->
  parsed_data r = Some (data_of r).
Proof.
  intros Hwf. unfold present_and_successful, data_of.
  destruct (lookup ocr_results k) as [r'|] eqn:E; [|discriminate].
  destruct (success r') eqn:Es; [|discriminate].
  intros Heq; inversion Heq; subst r'.
  specialize (Hwf k r E Es).
  destruct (parsed_data r); [reflexivity | congruence].
Qed.

(** C6, as the code has it. The seven address fields of the profile are
    always taken from one source as a block.  The block of the
    proof-of-address result is used when that result is present and
    successful and the [endereco] taken from the cnpj result is empty (or
    there is no successful cnpj result); the other address fields of the
    cnpj result play no part in the choice.  Otherwise the block is the one
    of the cnpj result, or all null when there is none. *)
Theorem address_block_is_taken_whole (ocr_results : dict ocr_result) :
  (forall k r, lookup ocr_results k = Some r -> success r = true ->
               parsed_data r <> None) ->
  exists c,
    consolidate_customer_data ocr_results = Some c
    /\ address_block c
       = match present_and_successful ocr_results "cnpj",
               present_and_successful ocr_results "address" with
         | Some rc, Some ra =>
             if truthy (dict_get (data_of rc) "endereco")
             then block_of (data_of rc)
             else block_of (data_of ra)
         | Some rc, None => block_of (data_of rc)
         | None, Some ra => block_of (data_of ra)
         | None, None => block_of []
         end.
Proof.
  intros Hwf.
  unfold consolidate_customer_data, merge_cnpj, merge_rg, merge_address.
  destruct (present_and_successful ocr_results "cnpj") as [rc|] eqn:Ec;
    [rewrite (successful_has_data _ _ _ Hwf Ec)|];
    (destruct (present_and_successful ocr_results "rg") as [rr|] eqn:Er;
     [rewrite (successful_has_data _ _ _ Hwf Er)|]);
    (destruct (present_and_successful ocr_results "address") as [ra|] eqn:Ea;
     [rewrite (successful_has_data _ _ _ Hwf Ea)|]);
    try (change (c_truthy (cget (dict_update (dict_update consolidated_init
                   (cnpj_update (data_of rc))) (rg_update (data_of rr)))
                   "endereco"))
           with (truthy (dict_get (data_of rc) "endereco")));
    try (change (c_truthy (cget (dict_update consolidated_init
                   (cnpj_update (data_of rc))) "endereco"))
           with (truthy (dict_get (data_of rc) "endereco")));
    try (change (c_truthy (cget (dict_update consolidated_init
                   (rg_update (data_of rr))) "endereco"))
           with false);
    try (change (c_truthy (cget consolidated_init "endereco")) with false);
    try (destruct (truthy (dict_get (data_of rc) "endereco")));
    cbn [negb];
    eexists; (split; [reflexivity|]);
    rewrite address_block_add_metrics; reflexivity.
Qed.

(** ** Witnesses and counterexamples *)

Lemma quality_evaluator_accepts_acme :
  exists required min_fields q,
    lookup quality_checks "cnpj" = Some (required, min_fields)
    /\ quality_metrics (validate_ocr_result acme_result "cnpj") = Some q
    /\ success (validate_ocr_result acme_result "cnpj") = is_acceptable q
    /\ (is_acceptable q = true <-> (min_fields <= valid_fields q)%nat)
    /\ valid_fields q
       = length
           (filter
              (fun field =>
                 spec_found (dict_get (data_of acme_result) field)
                 && negb (null_text_or_zero
                            (dict_get (data_of acme_result) field)))
              required)
    /\ (forall data,
          parsed_data acme_result
          = Some (_validate_essential_fields data "cnpj") ->
          valid_fields q
          = spec_found_count (_validate_essential_fields data "cnpj") required)
    /\ total_required q = length required
    /\ (score q <= spec_score (valid_fields q) (total_required q))%Q
    /\ (spec_score (valid_fields q) (total_required q) - score q
        < 1 # 10000000000000)%Q
    /\ ((score q == spec_score (valid_fields q) (total_required q))%Q
        <-> ((100 * valid_fields q) mod total_required q = 0)%nat).
Proof.
  apply (quality_evaluator_accepts_iff_enough_found "cnpj" acme_result).
  - simpl; auto.
  - reflexivity.
Defined.

(** C1, the claim as worded fails on the score. With two of the three
    essential fields of a registration certificate the evaluator computes
    (2 / 3) * 100 in binary64, which is 66.66666666666666 (the number
    4691249611844266 / 2^46) and not 200 / 3. *)
Lemma two_of_three_score_is_rounded :
  exists q,
    quality_metrics (validate_ocr_result acme_result "cnpj") = Some q
    /\ valid_fields q = 2%nat
    /\ total_required q = 3%nat
    /\ is_acceptable q = true
    /\ (score q == 4691249611844266 # 70368744177664)%Q
    /\ ~ (score q == spec_score 2 3)%Q.
Proof.
  eexists. split; [reflexivity|].
  split; [reflexivity|]. split; [reflexivity|]. split; [reflexivity|].
  split; [vm_compute; reflexivity|].
  intros H. vm_compute in H. discriminate H.
Qed.

Lemma name_only_rejection_is_not_retried :
  retry_ocr default_retry_config
    (fun _ => Returned (validate_ocr_result name_only_result "rg"))
  = mk_run (validate_ocr_result name_only_result "rg") 1 [].
Proof.
  apply (quality_rejection_is_not_retried default_retry_config
           (fun _ => Returned (validate_ocr_result name_only_result "rg"))
           name_only_result "rg").
  - simpl; auto.
  - reflexivity.
  - vm_compute; reflexivity.
  - reflexivity.
Defined.

Lemma two_failed_documents_score :
  exists c,
    consolidate_customer_data
      [("rg", failed_result "rg" "timeout");
       ("cnpj", failed_result "cnpj" "Erro na API OCR: 401")] = Some c
    /\ c = add_metrics consolidated_init
    /\ cget c "fieldsTotal" = CData (PInt 17)
    /\ cget c "fieldsExtracted" = CData (PInt 3)
    /\ cget c "confidenceScore" = CFloat (300 # 17)
    /\ (forall k, counts_as_field k = true -> cget c k = CData PNone).
Proof.
  apply (all_failed_confidence_counts_metadata
           [("rg", failed_result "rg" "timeout");
            ("cnpj", failed_result "cnpj" "Erro na API OCR: 401")]).
  intros k r. simpl.
  destruct (String.eqb k "rg"); [intros H; inversion H; reflexivity|].
  destruct (String.eqb k "cnpj"); [intros H; inversion H; reflexivity|].
  discriminate.
Defined.

Lemma connection_timeout_four_attempts :
  retry_ocr default_retry_config (fun _ => Raised "connection timeout")
  = mk_run (all_attempts_failed default_retry_config
              (Some "connection timeout"))
      4 [2%Q; 4%Q; 8%Q]
  /\ success (final (retry_ocr default_retry_config
                       (fun _ => Raised "connection timeout"))) = false.
Proof.
  destruct (retry_bound_four_attempts default_retry_config
              (fun _ => Raised "connection timeout") eq_refl)
    as (_ & _ & Hall).
  apply Hall. intros k _. exists "connection timeout".
  split; [left; reflexivity | reflexivity].
Defined.

Lemma two_objects_skip_embedded :
  embedded_json loads_two_objects findall_two_objects json_patterns
    two_objects
  = Some [("nome_completo", PStr "JOAO DA SILVA");
          ("cpf", PStr "123.456.789-01")]
  /\ _extract_json_from_text loads_two_objects findall_two_objects
       two_objects = None
  /\ parse_extracted_data loads_two_objects no_search findall_two_objects
       no_match sub_nothing in_order two_objects "rg"
     = _validate_essential_fields
         (_extract_with_focused_regex no_search findall_two_objects no_match
            sub_nothing in_order two_objects "rg") "rg".
Proof.
  split; [vm_compute; reflexivity|].
  apply (direct_json_failure_skips_embedded loads_two_objects no_search
           findall_two_objects no_match sub_nothing in_order
           two_objects "rg").
  - vm_compute; reflexivity.
  - vm_compute; reflexivity.
Defined.

Lemma whole_block_from_proof_of_address :
  exists c,
    consolidate_customer_data [("address", full_address)] = Some c
    /\ address_block c = block_of (data_of full_address).
Proof.
  apply (address_block_is_taken_whole [("address", full_address)]).
  intros k r. simpl.
  destruct (String.eqb k "address"); [|discriminate].
  intros H _; inversion H; discriminate.
Defined.

(** C6, against the claim: the cnpj result lacks the postal code, yet the
    address block of the profile is the cnpj block, not the one of the
    proof of address. *)
Lemma partial_cnpj_address_is_kept :
  existsb (fun k => negb (truthy (dict_get (data_of cnpj_without_cep) k)))
    address_keys = true
  /\ option_map address_block
       (consolidate_customer_data
          [("cnpj", cnpj_without_cep); ("address", full_address)])
     = Some (block_of (data_of cnpj_without_cep))
  /\ block_of (data_of cnpj_without_cep) <> block_of (data_of full_address).
Proof.
  split; [reflexivity|].
  split; [vm_compute; reflexivity|].
  vm_compute. discriminate.
Qed.

Lemma passport_uses_cnpj_prompt :
  get_document_prompt "passport" = prompt_cnpj.
Proof.
  apply (unknown_document_type_uses_defaults no_json no_search no_findall
           no_match sub_nothing in_order "passport").
  simpl. intros [H | [H | [H | []]]]; discriminate H.
Defined.

(** C7, against the claim: a document type outside the enumeration is
    processed with the cnpj prompt and reported as a success. *)
Lemma passport_is_processed_as_success :
  get_document_prompt "passport" = get_document_prompt "cnpj"
  /\ success
       (process_document_body no_json no_search no_findall no_match
          sub_nothing in_order (fun _ _ => ApiText "sem dados")
          "doc.jpg" "passport") = true
  /\ error
       (process_document_body no_json no_search no_findall no_match
          sub_nothing in_order (fun _ _ => ApiText "sem dados")
          "doc.jpg" "passport") = None.
Proof. vm_compute. repeat split. Qed.

(** C8, against the claim: the run of spaces inside a value is kept by the
    code, where the specification's post-processing collapses it. *)
Lemma inner_whitespace_is_kept :
  _validate_essential_fields [("empresa", PStr "ACME   LTDA")] "cnpj"
  = [("empresa", PStr "ACME   LTDA")]
  /\ spec_post_process (PStr "ACME   LTDA") = PStr "ACME LTDA"
  /\ _validate_essential_fields [("empresa", PStr "ACME   LTDA")] "cnpj"
     <> map (fun kv => (fst kv, spec_post_process (snd kv)))
          [("empresa", PStr "ACME   LTDA")].
Proof.
  split; [reflexivity|]. split; [reflexivity|].
  vm_compute. discriminate.
Qed.

(** C9, against the claim: a failed result that is not retryable is handed
    back after one call and carries no attempt count. *)
Lemma raised_timeout_reports_last_error :
  (1 <= calls (retry_ocr default_retry_config
                 (fun _ => Raised "connection timeout")) <= 4)%nat
  /\ success (final (retry_ocr default_retry_config
                       (fun _ => Raised "connection timeout"))) = false
  /\ last_error (final (retry_ocr default_retry_config
                          (fun _ => Raised "connection timeout")))
     = Some "connection timeout"
  /\ (calls (retry_ocr default_retry_config
               (fun _ => Raised "connection timeout")) = 4%nat ->
      retry_attempts (final (retry_ocr default_retry_config
                               (fun _ => Raised "connection timeout")))
      = Some (calls (retry_ocr default_retry_config
                       (fun _ => Raised "connection timeout")))).
Proof.
  refine (failed_run_reports_last_error default_retry_config
            (fun _ => Raised "connection timeout") _).
  intros attempt H. cbn [max_retries default_retry_config] in H.
  unfold get_delay_returns. cbn [strategy default_retry_config].
  apply Nat.ltb_lt. lia.
Defined.

Lemma failed_result_has_no_attempt_count :
  success (final (retry_ocr default_retry_config
             (fun _ => Returned (failed_result "rg" "arquivo corrompido"))))
  = false
  /\ calls (retry_ocr default_retry_config
             (fun _ => Returned (failed_result "rg" "arquivo corrompido")))
     = 1%nat
  /\ retry_attempts (final (retry_ocr default_retry_config
             (fun _ => Returned (failed_result "rg" "arquivo corrompido"))))
     = None.
Proof. vm_compute. repeat split. Qed.

(** The [break] of the wrapper: one call was made, four are reported. *)
Lemma break_reports_all_attempts :
  calls (retry_ocr default_retry_config (fun _ => Raised "arquivo corrompido"))
  = 1%nat
  /\ retry_attempts (final (retry_ocr default_retry_config
                              (fun _ => Raised "arquivo corrompido")))
     = Some 4%nat.
Proof. vm_compute. split; reflexivity. Qed.

Lemma acme_comercio_nome_comprovante :
  dict_get (_extract_cnpj_fields search_empresa no_match sub_nothing
              "Empresa: ACME COMERCIO") "nome_comprovante"
  = dict_get (_extract_cnpj_fields search_empresa no_match sub_nothing
                "Empresa: ACME COMERCIO") "empresa"
  /\ dict_get (_extract_cnpj_fields search_empresa no_match sub_nothing
                 "Empresa: ACME COMERCIO") "nome_comprovante" <> PNone.
Proof.
  apply (cnpj_fallback_empresa_gives_nome_comprovante search_empresa no_match
           sub_nothing "Empresa: ACME COMERCIO").
  vm_compute. discriminate.
Defined.

(** * Further properties of the pipeline *)

(** ** Delays of the retry decorator *)

Lemma py_min_le_r (a b : Q) : (py_min a b <= b)%Q.
Proof.
  unfold py_min. destruct (Qlt_le_dec b a); [apply Qle_refl | assumption].
Qed.

Lemma py_min_mono (a a' b : Q) :
  (a <= a')%Q -> (py_min a b <= py_min a' b)%Q.
Proof.
  intros H. unfold py_min.
  destruct (Qlt_le_dec b a) as [Hba | Hab];
    destruct (Qlt_le_dec b a') as [Hba' | Hab'].
  - apply Qle_refl.
  - apply Qle_trans with a; [apply Qlt_le_weak; exact Hba | exact H].
  - exact Hab.
  - exact H.
Qed.

Lemma pow2_mono (n m : nat) :
  (n <= m)%nat ->
  (inject_Z (2 ^ Z.of_nat n) <= inject_Z (2 ^ Z.of_nat m))%Q.
Proof.
  intros H. rewrite <- Zle_Qle. apply Z.pow_le_mono_r; lia.
Qed.

(** X1. Under exponential backoff and for the attempts below 1024, where
    [get_delay] returns, the delay never exceeds [max_delay], it is
    [base_delay * 2^attempt] as long as that does not exceed [max_delay],
    and with a base delay that is not negative it never decreases from one
    attempt to a later one. *)
Theorem backoff_delay_capped_and_monotone
    (cfg : OCRRetryConfig) (n m : nat) :
  strategy cfg = EXPONENTIAL_BACKOFF ->
  (0 <= base_delay cfg)%Q ->
  (n <= m < 1024)%nat ->
  (get_delay cfg n <= max_delay cfg)%Q
  /\ (get_delay cfg n <= get_delay cfg m)%Q
  /\ ((base_delay cfg * inject_Z (2 ^ Z.of_nat n) <= max_delay cfg)%Q ->
      get_delay cfg n = (base_delay cfg * inject_Z (2 ^ Z.of_nat n))%Q).
Proof.
  intros Hs Hb [Hnm _]. unfold get_delay. rewrite Hs.
  split; [apply py_min_le_r|].
  split.
  - apply py_min_mono.
    rewrite (Qmult_comm (base_delay cfg) (inject_Z (2 ^ Z.of_nat n))).
    rewrite (Qmult_comm (base_delay cfg) (inject_Z (2 ^ Z.of_nat m))).
    apply Qmult_le_compat_r; [apply pow2_mono; exact Hnm | exact Hb].
  - intros Hle. unfold py_min.
    destruct (Qlt_le_dec (max_delay cfg)
                (base_delay cfg * inject_Z (2 ^ Z.of_nat n))) as [Hlt | _];
      [|reflexivity].
    exfalso. apply (Qlt_not_le _ _ Hlt). exact Hle.
Qed.

Lemma default_backoff_delays :
  (get_delay default_retry_config 1 <= max_delay default_retry_config)%Q
  /\ (get_delay default_retry_config 1 <= get_delay default_retry_config 4)%Q
  /\ ((base_delay default_retry_config * inject_Z (2 ^ Z.of_nat 1)
       <= max_delay default_retry_config)%Q ->
      get_delay default_retry_config 1
      = (base_delay default_retry_config * inject_Z (2 ^ Z.of_nat 1))%Q).
Proof.
  apply (backoff_delay_capped_and_monotone default_retry_config 1 4).
  - reflexivity.
  - vm_compute; discriminate.
  - lia.
Defined.

(** ** Runs of the retry decorator *)

(** X2. For every run: the wrapper slept exactly [calls - 1] times, and its
    delays are [get_delay 0], ..., [get_delay (calls - 2)] in that
    order. *)
Theorem retry_sleeps_between_calls
    (cfg : OCRRetryConfig) (func : nat -> outcome) :
  sleeps (retry_ocr cfg func)
  = map (get_delay cfg) (seq 0 (calls (retry_ocr cfg func) - 1))
  /\ length (sleeps (retry_ocr cfg func))
     = (calls (retry_ocr cfg func) - 1)%nat.
Proof.
  assert (H : sleeps (retry_ocr cfg func)
              = map (get_delay cfg) (seq 0 (calls (retry_ocr cfg func) - 1))).
  { unfold retry_ocr. apply retry_loop_sleeps; [lia | lia | reflexivity]. }
  split; [exact H|].
  rewrite H, length_map, length_seq. reflexivity.
Qed.

Lemma retry_loop_reaches_success (cfg : OCRRetryConfig)
    (func : nat -> outcome) (k : nat) (r : ocr_result) :
  (k <= max_retries cfg)%nat ->
  func k = Returned r ->
  success r = true ->
  forall remaining attempt last_exception slept,
    (attempt + remaining = max_retries cfg + 1)%nat ->
    (attempt <= k)%nat ->
    (forall j, (attempt <= j < k)%nat ->
       exists msg, fails_with (func j) msg /\ transient msg = true) ->
    final (retry_loop cfg func remaining attempt last_exception slept) = r
    /\ calls (retry_loop cfg func remaining attempt last_exception slept)
       = S k.
Proof.
  intros Hk Hf Hs.
  induction remaining as [|rem IH]; intros attempt last slept Hsum Hle Hfail;
    [lia|].
  cbn [retry_loop].
  destruct (Nat.eq_dec attempt k) as [-> | Hne].
  - rewrite Hf, Hs. cbn [negb final calls]. split; reflexivity.
  - assert (Hlt : (attempt <? max_retries cfg)%nat = true)
      by (apply Nat.ltb_lt; lia).
    assert (Hnext : forall j, (S attempt <= j < k)%nat ->
              exists msg, fails_with (func j) msg /\ transient msg = true)
      by (intros j Hj; apply Hfail; lia).
    destruct (Hfail attempt) as (msg & [Hr | (res & Hr & Hsr & He)] & Ht);
      [lia | |]; rewrite Hr.
    + rewrite should_retry_eq, Hlt, Ht. cbn [andb negb].
      apply IH; [lia | lia | exact Hnext].
    + rewrite Hsr, He. cbn [negb].
      rewrite should_retry_eq, Hlt, Ht. cbn [andb].
      apply IH; [lia | lia | exact Hnext].
Qed.

(** X3. When the calls before call [k] all fail with a transient message,
    the delays after them are all computed, and call [k], within the retry
    bound, returns a successful result, the wrapper returns that result
    after exactly [k + 1] calls. *)
Theorem retry_returns_first_success
    (cfg : OCRRetryConfig) (func : nat -> outcome) (k : nat)
    (r : ocr_result) :
  (k <= max_retries cfg)%nat ->
  delays_computed cfg k ->
  (forall j, (j < k)%nat ->
     exists msg, fails_with (func j) msg /\ transient msg = true) ->
  func k = Returned r ->
  success r = true ->
  final (retry_ocr cfg func) = r
  /\ calls (retry_ocr cfg func) = S k.
Proof.
  intros Hk _ Hfail Hf Hs. unfold retry_ocr.
  apply (retry_loop_reaches_success cfg func k r Hk Hf Hs);
    [lia | lia |].
  intros j Hj. apply Hfail. lia.
Qed.

Lemma third_call_succeeds :
  final (retry_ocr default_retry_config
           (fun j => if (j <? 2)%nat then Raised "connection timeout"
                     else Returned acme_result)) = acme_result
  /\ calls (retry_ocr default_retry_config
              (fun j => if (j <? 2)%nat then Raised "connection timeout"
                        else Returned acme_result)) = 3%nat.
Proof.
  apply (retry_returns_first_success default_retry_config
           (fun j => if (j <? 2)%nat then Raised "connection timeout"
                     else Returned acme_result) 2 acme_result).
  - simpl; lia.
  - intros attempt H. unfold get_delay_returns.
    cbn [strategy default_retry_config]. apply Nat.ltb_lt. lia.
  - intros j Hj. exists "connection timeout".
    destruct j as [|[|j]]; [| |lia];
      (split; [left; reflexivity | reflexivity]).
  - reflexivity.
  - reflexivity.
Defined.

(** X4. A first call that fails with a message matching no retry keyword ends
    the run: one call, no sleep, and a result whose [success] is false. *)
Theorem non_transient_failure_is_final
    (cfg : OCRRetryConfig) (func : nat -> outcome) (msg : string) :
  fails_with (func 0%nat) msg ->
  transient msg = false ->
  calls (retry_ocr cfg func) = 1%nat
  /\ sleeps (retry_ocr cfg func) = []
  /\ success (final (retry_ocr cfg func)) = false.
Proof.
  intros Hf Ht. unfold retry_ocr. rewrite Nat.add_1_r. cbn [retry_loop].
  destruct Hf as [-> | (res & -> & Hs & He)].
  - rewrite should_retry_eq, Ht, andb_false_r. cbn [negb calls sleeps final].
    repeat split.
  - rewrite Hs, He. cbn [negb].
    rewrite should_retry_eq, Ht, andb_false_r. cbn [calls sleeps final].
    split; [reflexivity|]. split; [reflexivity | exact Hs].
Qed.

Lemma corrupt_file_is_final :
  calls (retry_ocr default_retry_config (fun _ => Raised "arquivo corrompido"))
  = 1%nat
  /\ sleeps (retry_ocr default_retry_config
               (fun _ => Raised "arquivo corrompido")) = []
  /\ success (final (retry_ocr default_retry_config
                       (fun _ => Raised "arquivo corrompido"))) = false.
Proof.
  apply (non_transient_failure_is_final default_retry_config
           (fun _ => Raised "arquivo corrompido") "arquivo corrompido").
  - left; reflexivity.
  - reflexivity.
Defined.

(** ** Trimming and cleaning *)

Lemma lstrip_idem (s : string) : lstrip (lstrip s) = lstrip s.
Proof.
  induction s as [|c s IH]; [reflexivity|].
  cbn [lstrip]. destruct (isspace c) eqn:E; [exact IH|].
  cbn [lstrip]. rewrite E. reflexivity.
Qed.

Lemma rstrip_idem (s : string) : rstrip (rstrip s) = rstrip s.
Proof.
  induction s as [|c s IH]; [reflexivity|].
  cbn [rstrip]. destruct (rstrip s) as [|d r] eqn:E.
  - destruct (isspace c) eqn:Ec; [reflexivity|].
    cbn [rstrip]. rewrite Ec. reflexivity.
  - cbn [rstrip]. cbn [rstrip] in IH. rewrite IH. reflexivity.
Qed.

Lemma rstrip_lstrip (s : string) : rstrip (lstrip s) = lstrip (rstrip s).
Proof.
  induction s as [|c s IH]; [reflexivity|].
  cbn [lstrip rstrip]. destruct (isspace c) eqn:Ec.
  - rewrite IH. destruct (rstrip s) as [|d r]; [reflexivity|].
    cbn [lstrip]. rewrite Ec. reflexivity.
  - cbn [rstrip]. destruct (rstrip s) as [|d r];
      [rewrite Ec|]; cbn [lstrip]; rewrite Ec; reflexivity.
Qed.

Lemma strip_idem (s : string) : strip (strip s) = strip s.
Proof.
  unfold strip.
  rewrite (rstrip_lstrip (rstrip s)), rstrip_idem, lstrip_idem.
  reflexivity.
Qed.

Lemma clean_value_idem (v : pyval) :
  clean_value (clean_value v) = clean_value v.
Proof.
  destruct (clean_value_cases v) as [-> | (-> & Hne & Hmem)];
    [reflexivity|].
  rewrite clean_value_str, strip_idem, Hmem. reflexivity.
Qed.

Lemma clean_value_is_clean (v : pyval) : is_clean (clean_value v).
Proof.
  destruct (clean_value_cases v) as [-> | (-> & Hne & Hmem)];
    [left; reflexivity|].
  right. exists (strip (py_str v)).
  split; [reflexivity|].
  split; [intros E; rewrite E in Hne; discriminate Hne|].
  split; [apply strip_idem|].
  unfold mem in Hmem; simpl in Hmem.
  apply orb_false_elim in Hmem as [H1 Hmem].
  apply orb_false_elim in Hmem as [H2 _].
  split; intros E; rewrite E in *; discriminate.
Qed.

(** X5. Cleaning a record keeps its keys in order, leaves only clean values,
    and cleaning twice changes nothing more. *)
Theorem validate_essential_fields_normal_form
    (data : dict pyval) (doc_type doc_type' : string) :
  keys (_validate_essential_fields data doc_type) = keys data
  /\ Forall is_clean (values (_validate_essential_fields data doc_type))
  /\ _validate_essential_fields
       (_validate_essential_fields data doc_type) doc_type'
     = _validate_essential_fields data doc_type.
Proof.
  unfold _validate_essential_fields, keys, values.
  split; [|split].
  - rewrite map_map. reflexivity.
  - rewrite map_map. apply Forall_forall. intros v Hv.
    apply in_map_iff in Hv as (kv & <- & _). apply clean_value_is_clean.
  - rewrite map_map. apply map_ext. intros [k v]. cbn [fst snd].
    rewrite clean_value_idem. reflexivity.
Qed.

(** ** Quality evaluator: counts, partition and bounds *)

Lemma filter_split_length {A} (f : A -> bool) (l : list A) :
  (length (filter f l) + length (filter (fun x => negb (f x)) l)
   = length l)%nat.
Proof.
  induction l as [|x l IH]; [reflexivity|].
  simpl. destruct (f x); simpl; lia.
Qed.

Lemma evaluated_result (r : ocr_result) (doc_type : string)
    (required : list string) (min_fields : nat) :
  success r = true ->
  lookup quality_checks doc_type = Some (required, min_fields) ->
  let valid f := field_is_valid (dict_get (data_of r) f) in
  let n := length (filter valid required) in
  quality_metrics (validate_ocr_result r doc_type)
  = Some {| score := quality_score n (length required);
            valid_fields := n;
            total_required := length required;
            found_fields := filter valid required;
            missing_required := filter (fun f => negb (valid f)) required;
            is_acceptable := (min_fields <=? n)%nat;
            needs_retry := negb (min_fields <=? n)%nat |}
  /\ success (validate_ocr_result r doc_type) = (min_fields <=? n)%nat
  /\ parsed_data (validate_ocr_result r doc_type) = parsed_data r.
Proof.
  intros Hs Hl valid n. subst valid n.
  unfold validate_ocr_result, data_of.
  rewrite Hs, Hl. cbn [negb].
  rewrite count_fields_filter.
  destruct (min_fields <=? _)%nat; cbn [negb quality_metrics success];
    (split; [reflexivity|]); split; reflexivity.
Qed.

(** X6. For rg, cnpj and address, the metrics attached to a successful result
    split the essential fields: every essential field is in exactly one
    of [found_fields] and [missing_required], both keep the schema's
    order, [valid_fields] is the number of found fields, and
    [needs_retry] is the negation of [is_acceptable]. *)
Theorem quality_metrics_partition_fields
    (r : ocr_result) (doc_type : string) :
  In doc_type ["rg"; "cnpj"; "address"] ->
  success r = true ->
  exists required min_fields q,
    lookup quality_checks doc_type = Some (required, min_fields)
    /\ quality_metrics (validate_ocr_result r doc_type) = Some q
    /\ total_required q = length required
    /\ valid_fields q = length (found_fields q)
    /\ (valid_fields q + length (missing_required q)
        = total_required q)%nat
    /\ (forall f, In f required <->
                  In f (found_fields q) \/ In f (missing_required q))
    /\ (forall f, In f (found_fields q) ->
                  ~ In f (missing_required q))
    /\ needs_retry q = negb (is_acceptable q)
    /\ is_acceptable q = (min_fields <=? valid_fields q)%nat.
Proof.
  intros Hin Hs.
  destruct (supported_schema doc_type Hin) as (required & min_fields & Hl & _).
  destruct (evaluated_result r doc_type required min_fields Hs Hl)
    as (Hq & _ & _).
  exists required, min_fields. eexists.
  split; [exact Hl|]. split; [exact Hq|].
  cbn [total_required valid_fields found_fields missing_required
       needs_retry is_acceptable].
  split; [reflexivity|]. split; [reflexivity|].
  split; [apply filter_split_length|].
  split; [|split; [|split; reflexivity]].
  - intros f. rewrite !filter_In.
    destruct (field_is_valid (dict_get (data_of r) f)); simpl; tauto.
  - intros f. rewrite !filter_In. intros [_ H1] [_ H2].
    rewrite H1 in H2. discriminate H2.
Qed.

Lemma acme_metrics_partition :
  exists required min_fields q,
    lookup quality_checks "cnpj" = Some (required, min_fields)
    /\ quality_metrics (validate_ocr_result acme_result "cnpj") = Some q
    /\ total_required q = length required
    /\ valid_fields q = length (found_fields q)
    /\ (valid_fields q + length (missing_required q)
        = total_required q)%nat
    /\ (forall f, In f required <->
                  In f (found_fields q) \/ In f (missing_required q))
    /\ (forall f, In f (found_fields q) ->
                  ~ In f (missing_required q))
    /\ needs_retry q = negb (is_acceptable q)
    /\ is_acceptable q = (min_fields <=? valid_fields q)%nat.
Proof.
  apply (quality_metrics_partition_fields acme_result "cnpj").
  - simpl; auto.
  - reflexivity.
Defined.

(** X7. For rg, cnpj and address, the score attached to a successful result
    lies between 0 and 100, and it is 100 exactly when no essential field
    is missing. *)
Theorem quality_score_in_range
    (r : ocr_result) (doc_type : string) :
  In doc_type ["rg"; "cnpj"; "address"] ->
  success r = true ->
  exists q,
    quality_metrics (validate_ocr_result r doc_type) = Some q
    /\ (0 <= score q <= 100)%Q
    /\ ((score q == 100)%Q <-> missing_required q = []).
Proof.
  intros Hin Hs.
  destruct (supported_schema doc_type Hin)
    as (required & min_fields & Hl & Hpos).
  destruct (evaluated_result r doc_type required min_fields Hs Hl)
    as (Hq & _ & _).
  eexists. split; [exact Hq|].
  cbn [score missing_required].
  pose proof (filter_split_length
                (fun f => field_is_valid (dict_get (data_of r) f)) required)
    as Hsplit.
  cbv beta in Hsplit.
  set (n := length (filter _ required)) in *.
  set (t := length required) in *.
  destruct (quality_score_schema n t
              (schema_sizes doc_type required min_fields Hl) ltac:(lia))
    as (Hrange & Heq & _).
  split; [exact Hrange|].
  rewrite Heq. split.
  - intros E. apply length_zero_iff_nil. lia.
  - intros E. rewrite E in Hsplit. simpl in Hsplit. lia.
Qed.

Lemma acme_score_in_range :
  exists q,
    quality_metrics (validate_ocr_result acme_result "cnpj") = Some q
    /\ (0 <= score q <= 100)%Q
    /\ ((score q == 100)%Q <-> missing_required q = []).
Proof.
  apply (quality_score_in_range acme_result "cnpj").
  - simpl; auto.
  - reflexivity.
Defined.

(** X8. Evaluating a result a second time changes nothing: a rejected result
    is left alone, an accepted one gets the same metrics again. *)
Theorem validate_ocr_result_idempotent
    (r : ocr_result) (doc_type : string) :
  validate_ocr_result (validate_ocr_result r doc_type) doc_type
  = validate_ocr_result r doc_type.
Proof.
  remember (validate_ocr_result r doc_type) as v eqn:Hv.
  unfold validate_ocr_result in Hv.
  destruct (success r) eqn:Hs; cbn [negb] in Hv.
  2:{ subst v. unfold validate_ocr_result. rewrite Hs. reflexivity. }
  destruct (lookup quality_checks doc_type) as [[required min_fields]|] eqn:Hl.
  2:{ subst v. unfold validate_ocr_result. rewrite Hs, Hl. reflexivity. }
  destruct (count_fields _ required) as [[valid missing] found] eqn:Hc.
  destruct (min_fields <=? valid)%nat eqn:E; cbn [negb] in Hv; subst v;
    unfold validate_ocr_result; cbn [success parsed_data negb];
    rewrite ?Hl, ?Hc, ?E; reflexivity.
Qed.

(** ** Pattern extraction: keys and checked values *)

Lemma keys_dict_set_present {V} (d : dict V) (k : string) (v : V) :
  In k (keys d) -> keys (dict_set d k v) = keys d.
Proof.
  induction d as [|[k0 v0] d IH]; simpl; [intros []|].
  destruct (String.eqb k k0) eqn:E; [reflexivity|].
  intros [H | H].
  - subst k0. rewrite String.eqb_refl in E. discriminate E.
  - simpl. rewrite (IH H). reflexivity.
Qed.

Section FallbackFacts.

Variable re_search : string -> string -> list re_flag -> option string.
Variable re_findall : string -> string -> list re_flag -> list string.
Variable re_match : string -> string -> bool.
Variable re_sub : string -> string -> string -> string.
Variable set_iter : list string -> list string.

Abbreviation rg_fallback := (_extract_rg_fields re_search re_sub).
Abbreviation cnpj_fields := (_extract_cnpj_fields re_search re_match re_sub).
Abbreviation address_fallback :=
  (_extract_address_fields re_search re_findall re_sub set_iter).
Abbreviation fallback :=
  (_extract_with_focused_regex re_search re_findall re_match re_sub set_iter).

Ltac keep_keys :=
  match goal with
  | H : keys ?r = _ |- keys (dict_set ?r ?k ?v) = _ =>
      rewrite keys_dict_set_present; [exact H | rewrite H; simpl; tauto]
  end.

Lemma rg_fallback_keys (text : string) :
  keys (rg_fallback text) = ["nome_completo"; "data_nascimento"; "cpf"].
Proof.
  unfold _extract_rg_fields; cbv zeta.
  repeat (apply for_break_same;
          [intros pattern r Hr;
           destruct (re_search pattern text _); cbn [fst];
           [|exact Hr];
           try match goal with
               | |- context [if ?c then _ else _] => destruct c; cbn [fst]
               end;
           first [exact Hr | keep_keys] |]).
  reflexivity.
Qed.

Lemma cnpj_fallback_keys (text : string) :
  keys (cnpj_fields text) = ["empresa"; "cnpj"; "nome_comprovante"].
Proof.
  unfold _extract_cnpj_fields; cbv zeta.
  set (r1 := for_break [_; _] _ _).
  assert (H1 : keys r1 = ["empresa"; "cnpj"; "nome_comprovante"]).
  { subst r1. apply for_break_same; [|reflexivity].
    intros pattern r Hr.
    destruct (re_search pattern text _); cbn [fst]; [|exact Hr].
    destruct (_ =? 14)%nat; cbn [fst]; [keep_keys | exact Hr]. }
  set (r2 := for_break _ _ r1).
  assert (H2 : keys r2 = ["empresa"; "cnpj"; "nome_comprovante"]).
  { subst r2. apply for_break_same; [|exact H1].
    intros pattern r Hr.
    destruct (re_search pattern text _) as [g|]; cbn [fst]; [|exact Hr].
    destruct (5 <=? _)%nat; cbn [fst]; [|exact Hr].
    assert (He : keys (dict_set r "empresa" (PStr (strip g)))
                 = ["empresa"; "cnpj"; "nome_comprovante"]) by keep_keys.
    destruct (negb _); [keep_keys | exact He]. }
  destruct (negb _); [|exact H2].
  apply for_break_same; [|exact H2].
  intros line r Hr.
  destruct (_ && _); cbn [fst]; [keep_keys | exact Hr].
Qed.

Lemma address_fallback_keys (text : string) :
  keys (address_fallback text) = ["cep"; "complemento"].
Proof.
  unfold _extract_address_fields; cbv zeta.
  set (r1 := for_break _ _ _).
  assert (H1 : keys r1 = ["cep"; "complemento"]).
  { subst r1. apply for_break_same; [|reflexivity].
    intros pattern r Hr.
    destruct (re_search pattern text _); cbn [fst]; [|exact Hr].
    destruct (_ =? 8)%nat; cbn [fst]; [keep_keys | exact Hr]. }
  destruct (flat_map _ _); [exact H1 | keep_keys].
Qed.

(** X9. For rg, cnpj and address the pattern extraction returns a record whose
    keys are exactly the essential fields of the schema, in the schema's
    order, whatever the text; cleaning keeps them. *)
Theorem fallback_record_has_schema_keys (text doc_type : string) :
  In doc_type ["rg"; "cnpj"; "address"] ->
  exists required min_fields,
    lookup quality_checks doc_type = Some (required, min_fields)
    /\ keys (fallback text doc_type) = required
    /\ keys (_validate_essential_fields (fallback text doc_type) doc_type)
       = required.
Proof.
  intros Hin.
  assert (Hk : forall d, keys (_validate_essential_fields d doc_type) = keys d).
  { intros d. unfold _validate_essential_fields, keys.
    rewrite map_map. reflexivity. }
  simpl in Hin. destruct Hin as [<- | [<- | [<- | []]]];
    eexists; eexists; (split; [reflexivity|]);
    rewrite Hk; unfold _extract_with_focused_regex; cbn [String.eqb];
    simpl String.eqb; cbv iota.
  - split; apply rg_fallback_keys.
  - split; apply cnpj_fallback_keys.
  - split; apply address_fallback_keys.
Qed.

End FallbackFacts.

Section FallbackValues.

Variable re_search : string -> string -> list re_flag -> option string.
Variable re_findall : string -> string -> list re_flag -> list string.
Variable re_match : string -> string -> bool.
Variable re_sub : string -> string -> string -> string.
Variable set_iter : list string -> list string.

Lemma checked_set_other (k k' : string) (P : string -> Prop)
    (r : dict pyval) (v : pyval) :
  String.eqb k k' = false ->
  checked k P r -> checked k P (dict_set r k' v).
Proof.
  intros E H x. rewrite dict_get_set, E. apply H.
Qed.

Lemma checked_set_same (k : string) (P : string -> Prop)
    (r : dict pyval) (x : string) :
  P x -> checked k P (dict_set r k (PStr x)).
Proof.
  intros H y. rewrite dict_get_set, String.eqb_refl.
  intros E; inversion E; subst; exact H.
Qed.

Lemma checked_none (k : string) (P : string -> Prop) (r : dict pyval) :
  dict_get r k = PNone -> checked k P r.
Proof. intros E x. rewrite E. discriminate. Qed.

Lemma rg_fallback_checked (text : string) :
  checked "nome_completo" two_words (_extract_rg_fields re_search re_sub text)
  /\ checked "cpf" (digits_are re_sub 11) (_extract_rg_fields re_search re_sub text).
Proof.
  unfold _extract_rg_fields; cbv zeta.
  apply (for_break_same
           (fun r => checked "nome_completo" two_words r
                     /\ checked "cpf" (digits_are re_sub 11) r)).
  { intros pattern r [Hn Hc].
    destruct (re_search pattern text _) as [c|]; cbn [fst]; [|split; assumption].
    destruct (_ =? 11)%nat eqn:E; cbn [fst]; [|split; assumption].
    split; [apply checked_set_other; [reflexivity | exact Hn]|].
    apply checked_set_same. apply Nat.eqb_eq. exact E. }
  apply (for_break_same
           (fun r => checked "nome_completo" two_words r
                     /\ checked "cpf" (digits_are re_sub 11) r)).
  { intros pattern r [Hn Hc].
    destruct (re_search pattern text _) as [g|]; cbn [fst]; [|split; assumption].
    split; apply checked_set_other; (reflexivity || assumption). }
  apply (for_break_same
           (fun r => checked "nome_completo" two_words r
                     /\ checked "cpf" (digits_are re_sub 11) r)).
  { intros pattern r [Hn Hc].
    destruct (re_search pattern text _) as [g|]; cbn [fst]; [|split; assumption].
    destruct (2 <=? _)%nat eqn:E; cbn [fst]; [|split; assumption].
    split; [|apply checked_set_other; [reflexivity | exact Hc]].
    apply checked_set_same. split; [apply strip_idem|].
    apply Nat.leb_le. exact E. }
  split; apply checked_none; reflexivity.
Qed.

Lemma cnpj_fallback_checked (text : string) :
  checked "cnpj" (digits_are re_sub 14)
    (_extract_cnpj_fields re_search re_match re_sub text).
Proof.
  unfold _extract_cnpj_fields; cbv zeta.
  set (r1 := for_break [_; _] _ _).
  assert (H1 : checked "cnpj" (digits_are re_sub 14) r1).
  { subst r1. apply for_break_same; [|apply checked_none; reflexivity].
    intros pattern r Hr.
    destruct (re_search pattern text _) as [c|]; cbn [fst]; [|exact Hr].
    destruct (_ =? 14)%nat eqn:E; cbn [fst]; [|exact Hr].
    apply checked_set_same. apply Nat.eqb_eq. exact E. }
  set (r2 := for_break _ _ r1).
  assert (H2 : checked "cnpj" (digits_are re_sub 14) r2).
  { subst r2. apply for_break_same; [|exact H1].
    intros pattern r Hr.
    destruct (re_search pattern text _) as [g|]; cbn [fst]; [|exact Hr].
    destruct (5 <=? _)%nat; cbn [fst]; [|exact Hr].
    destruct (negb _);
      repeat (apply checked_set_other; [reflexivity|]); exact Hr. }
  destruct (negb _); [|exact H2].
  apply for_break_same; [|exact H2].
  intros line r Hr.
  destruct (_ && _); cbn [fst]; [|exact Hr].
  apply checked_set_other; [reflexivity | exact Hr].
Qed.

Lemma address_fallback_checked (text : string) :
  checked "cep" (digits_are re_sub 8)
    (_extract_address_fields re_search re_findall re_sub set_iter text).
Proof.
  unfold _extract_address_fields; cbv zeta.
  set (r1 := for_break _ _ _).
  assert (H1 : checked "cep" (digits_are re_sub 8) r1).
  { subst r1. apply for_break_same; [|apply checked_none; reflexivity].
    intros pattern r Hr.
    destruct (re_search pattern text _) as [c|]; cbn [fst]; [|exact Hr].
    destruct (_ =? 8)%nat eqn:E; cbn [fst]; [|exact Hr].
    apply checked_set_same. apply Nat.eqb_eq. exact E. }
  destruct (flat_map _ _); [exact H1|].
  apply checked_set_other; [reflexivity | exact H1].
Qed.

(** X10. What the pattern extraction guarantees about the values it returns,
    whatever the text: a [cpf] has exactly 11 digits, a [cnpj] exactly 14
    and a [cep] exactly 8 once every character that is not a digit is
    removed, and a [nome_completo] is trimmed and has at least two
    words. *)
Theorem fallback_values_are_checked (text : string) :
  (forall x,
     dict_get (_extract_rg_fields re_search re_sub text) "cpf" = PStr x ->
     String.length (re_sub "[^\d]" "" x) = 11%nat)
  /\ (forall x,
        dict_get (_extract_cnpj_fields re_search re_match re_sub text) "cnpj"
        = PStr x ->
        String.length (re_sub "[^\d]" "" x) = 14%nat)
  /\ (forall x,
        dict_get (_extract_address_fields re_search re_findall re_sub
                    set_iter text) "cep" = PStr x ->
        String.length (re_sub "[^\d]" "" x) = 8%nat)
  /\ (forall x,
        dict_get (_extract_rg_fields re_search re_sub text) "nome_completo"
        = PStr x ->
        strip x = x /\ (2 <= length (split_ws x))%nat).
Proof.
  destruct (rg_fallback_checked text) as [Hn Hc].
  split; [exact Hc|].
  split; [exact (cnpj_fallback_checked text)|].
  split; [exact (address_fallback_checked text) | exact Hn].
Qed.

End FallbackValues.

(** ** One document end to end ([process_document]) *)

(** An error message of a status code matches a retry keyword exactly
    when the code has the digit 5. *)
Lemma status_message_transient (code : nat) :
  (code < 1000)%nat ->
  transient ("Erro na API OCR: " ++ of_nat code) = contains "5" (of_nat code).
Proof.
  intros H.
  assert (Hall :
    forallb (fun c => Bool.eqb (transient ("Erro na API OCR: " ++ of_nat c))
                        (contains "5" (of_nat c)))
      (seq 0 1000) = true) by (vm_compute; reflexivity).
  rewrite forallb_forall in Hall.
  apply Bool.eqb_prop. apply Hall. apply in_seq. lia.
Qed.

Section DocumentFacts.

Variable json_loads : string -> option (dict pyval).
Variable re_search : string -> string -> list re_flag -> option string.
Variable re_findall : string -> string -> list re_flag -> list string.
Variable re_match : string -> string -> bool.
Variable re_sub : string -> string -> string -> string.
Variable set_iter : list string -> list string.
Variable path_exists : string -> bool.

Abbreviation body :=
  (process_document_body json_loads re_search re_findall re_match re_sub
     set_iter).
Abbreviation document :=
  (process_document json_loads re_search re_findall re_match re_sub set_iter).
Abbreviation batch :=
  (process_all_documents json_loads re_search re_findall re_match re_sub
     set_iter path_exists).

Lemma body_success_or_error
    (api : prompt -> string -> api_outcome) (image_path doc_type : string) :
  (success (body api image_path doc_type) = true ->
   error (body api image_path doc_type) = None
   /\ parsed_data (body api image_path doc_type) <> None)
  /\ (success (body api image_path doc_type) = false ->
      exists msg, error (body api image_path doc_type) = Some msg).
Proof.
  unfold process_document_body.
  destruct (String.eqb doc_type "facade").
  { cbn. split; [intros _; split; [reflexivity | discriminate]
                | discriminate]. }
  destruct (api _ image_path) as [text | code | msg].
  - unfold validate_ocr_result. cbn [success negb parsed_data].
    destruct (lookup quality_checks doc_type) as [[required min_fields]|].
    + destruct (count_fields _ required) as [[valid missing] found].
      destruct (min_fields <=? valid)%nat; cbn.
      * split; [intros _; split; [reflexivity | discriminate]
               | discriminate].
      * split; [discriminate | intros _; eexists; reflexivity].
    + cbn. split; [intros _; split; [reflexivity | discriminate]
                  | discriminate].
  - cbn. split; [discriminate | intros _; eexists; reflexivity].
  - cbn. split; [discriminate | intros _; eexists; reflexivity].
Qed.

Lemma body_success_is_accepted
    (api : prompt -> string -> api_outcome) (image_path doc_type : string) :
  In doc_type ["rg"; "cnpj"; "address"] ->
  success (body api image_path doc_type) = true ->
  exists required min_fields q data,
    lookup quality_checks doc_type = Some (required, min_fields)
    /\ quality_metrics (body api image_path doc_type) = Some q
    /\ is_acceptable q = true
    /\ parsed_data (body api image_path doc_type)
       = Some (_validate_essential_fields data doc_type)
    /\ valid_fields q
       = spec_found_count (_validate_essential_fields data doc_type) required
    /\ (min_fields <= valid_fields q)%nat.
Proof.
  intros Hin.
  destruct (supported_schema doc_type Hin) as (required & min_fields & Hl & _).
  unfold process_document_body.
  assert (Hf : String.eqb doc_type "facade" = false).
  { simpl in Hin. destruct Hin as [<- | [<- | [<- | []]]]; reflexivity. }
  rewrite Hf.
  destruct (api _ image_path) as [text | code | msg];
    [|cbn; discriminate | cbn; discriminate].
  destruct (parse_is_validated json_loads re_search re_findall re_match
              re_sub set_iter text doc_type) as [data Hdata].
  rewrite Hdata.
  set (raw := {| success := true;
                 document_type := Some doc_type;
                 raw_text := Some text;
                 parsed_data := Some (_validate_essential_fields data doc_type);
                 error := None;
                 quality_metrics := None;
                 retry_reason := None;
                 retry_attempts := None;
                 last_error := None |}).
  destruct (evaluated_result raw doc_type required min_fields
              eq_refl Hl) as (Hq & Hs & Hp).
  intros Hsucc. rewrite Hs in Hsucc.
  exists required, min_fields. eexists. exists data.
  split; [exact Hl|]. split; [exact Hq|].
  cbn [is_acceptable valid_fields].
  split; [exact Hsucc|]. split; [exact Hp|].
  unfold data_of in Hsucc |- *. subst raw. cbn [parsed_data] in Hsucc |- *.
  rewrite valid_count_of_parsed in Hsucc |- *.
  split; [reflexivity | apply Nat.leb_le; exact Hsucc].
Qed.

(** The decorated function returns what its last call returned. *)
Lemma document_final_is_a_body_result (cfg : OCRRetryConfig)
    (world : nat -> prompt -> string -> api_outcome)
    (image_path doc_type : string) :
  exists k,
    (k <= max_retries cfg)%nat
    /\ calls (document cfg world image_path doc_type) = S k
    /\ final (document cfg world image_path doc_type)
       = body (world k) image_path doc_type.
Proof.
  unfold process_document.
  set (func := fun k => Returned (body (world k) image_path doc_type)).
  destruct (retry_loop_last_call cfg func (max_retries cfg + 1) 0 None [])
    as [Hc Hm]; [lia | lia |].
  fold (retry_ocr cfg func) in Hc, Hm.
  exists (calls (retry_ocr cfg func) - 1)%nat.
  split; [lia|]. split; [lia|]. exact Hm.
Qed.

(** X11. A document of type rg, cnpj or address that [process_document] reports
    as a success carries quality metrics that accept it: its parsed record
    went through the cleaning, and at least [min_fields] of the essential
    fields are found in it. *)
Theorem successful_document_is_accepted (cfg : OCRRetryConfig)
    (world : nat -> prompt -> string -> api_outcome)
    (image_path doc_type : string) :
  In doc_type ["rg"; "cnpj"; "address"] ->
  success (final (document cfg world image_path doc_type)) = true ->
  exists required min_fields q data,
    lookup quality_checks doc_type = Some (required, min_fields)
    /\ quality_metrics (final (document cfg world image_path doc_type))
       = Some q
    /\ is_acceptable q = true
    /\ parsed_data (final (document cfg world image_path doc_type))
       = Some (_validate_essential_fields data doc_type)
    /\ valid_fields q
       = spec_found_count (_validate_essential_fields data doc_type) required
    /\ (min_fields <= valid_fields q)%nat.
Proof.
  intros Hin.
  destruct (document_final_is_a_body_result cfg world image_path doc_type)
    as (k & _ & _ & ->).
  apply body_success_is_accepted. exact Hin.
Qed.

(** X12. Whatever the document type and the answers of the model,
    [process_document] returns after at most [max_retries + 1] calls, and
    its result is either a success with a parsed record and no error, or a
    failure with an error message. *)
Theorem document_result_is_success_or_error (cfg : OCRRetryConfig)
    (world : nat -> prompt -> string -> api_outcome)
    (image_path doc_type : string) :
  (1 <= calls (document cfg world image_path doc_type)
   <= max_retries cfg + 1)%nat
  /\ (success (final (document cfg world image_path doc_type)) = true ->
      error (final (document cfg world image_path doc_type)) = None
      /\ parsed_data (final (document cfg world image_path doc_type))
         <> None)
  /\ (success (final (document cfg world image_path doc_type)) = false ->
      exists msg,
        error (final (document cfg world image_path doc_type)) = Some msg).
Proof.
  destruct (document_final_is_a_body_result cfg world image_path doc_type)
    as (k & Hk & Hc & ->).
  split; [lia|]. apply body_success_or_error.
Qed.

(** X13. When the model answers every call with the same status code other
    than 200, in a run whose delays are all computed, the document is
    retried to the bound if the code has the digit 5 (every 5xx, and also
    405 or 451) and given up after one call otherwise (401, 404, 429); the
    error is the status message either way. *)
Theorem status_code_retried_iff_digit_five (cfg : OCRRetryConfig)
    (world : nat -> prompt -> string -> api_outcome)
    (image_path doc_type : string) (code : nat) :
  doc_type <> "facade" ->
  (code < 1000)%nat ->
  code <> 200%nat ->
  delays_computed cfg (max_retries cfg) ->
  (forall k p i, world k p i = ApiStatus code) ->
  calls (document cfg world image_path doc_type)
  = (if contains "5" (of_nat code) then max_retries cfg + 1 else 1)%nat
  /\ final (document cfg world image_path doc_type)
     = failed_result doc_type ("Erro na API OCR: " ++ of_nat code).
Proof.
  intros Hf Hcode _ _ Hworld.
  assert (Ef : String.eqb doc_type "facade" = false).
  { destruct (String.eqb doc_type "facade") eqn:E; [|reflexivity].
    apply String.eqb_eq in E. contradiction. }
  assert (Hbody : forall k,
    body (world k) image_path doc_type
    = failed_result doc_type ("Erro na API OCR: " ++ of_nat code)).
  { intros k. unfold process_document_body. rewrite Ef, Hworld.
    reflexivity. }
  destruct (document_final_is_a_body_result cfg world image_path doc_type)
    as (k & _ & _ & Hfin).
  rewrite Hfin, Hbody. split; [|reflexivity].
  unfold process_document.
  set (func := fun k => Returned (body (world k) image_path doc_type)).
  pose proof (status_message_transient code Hcode) as Ht.
  destruct (contains "5" (of_nat code)).
  - destruct (retry_loop_all_transient cfg func) with
      (remaining := (max_retries cfg + 1)%nat) (attempt := 0%nat)
      (last_exception := @None string) (slept := @nil Q)
      as (Hc & _ & _); [|lia | lia | exact Hc].
    intros j. exists ("Erro na API OCR: " ++ of_nat code).
    split; [|exact Ht].
    right. exists (failed_result doc_type ("Erro na API OCR: " ++ of_nat code)).
    subst func. cbv beta. rewrite Hbody. repeat split.
  - unfold retry_ocr. rewrite Nat.add_1_r. cbn [retry_loop].
    subst func. cbv beta. rewrite Hbody. cbn [success error failed_result negb].
    rewrite should_retry_eq, Ht, andb_false_r. reflexivity.
Qed.

End DocumentFacts.

(** ** The batch of documents and its consolidation *)

Lemma lookup_app_none {V} (d d' : dict V) (k : string) :
  lookup d k = None -> lookup (d ++ d')%list k = lookup d' k.
Proof.
  induction d as [|[k0 v0] d IH]; simpl; [reflexivity|].
  destruct (String.eqb k k0); [discriminate | exact IH].
Qed.

Lemma dict_set_absent {V} (d : dict V) (k : string) (v : V) :
  lookup d k = None -> dict_set d k v = (d ++ [(k, v)])%list.
Proof.
  induction d as [|[k0 v0] d IH]; simpl; [reflexivity|].
  destruct (String.eqb k k0); [discriminate|].
  intros H. rewrite (IH H). reflexivity.
Qed.

(** Filling an empty dictionary key by key from a list without repeated
    keys gives one entry per element, in order. *)
Lemma fold_dict_set_nodup {A V} (g : string * A -> V) (l : list (string * A)) :
  NoDup (keys l) ->
  forall acc,
    (forall k, In k (keys l) -> lookup acc k = None) ->
    fold_left (fun r kv => dict_set r (fst kv) (g kv)) l acc
    = (acc ++ map (fun kv => (fst kv, g kv)) l)%list.
Proof.
  induction l as [|[k a] l IH]; intros Hnd acc Hacc; simpl.
  - rewrite app_nil_r. reflexivity.
  - inversion Hnd as [|? ? Hk Hnd']; subst.
    rewrite dict_set_absent by (apply Hacc; left; reflexivity).
    rewrite IH; [rewrite <- app_assoc; reflexivity | exact Hnd' |].
    intros k' Hk'. rewrite lookup_app_none by (apply Hacc; right; exact Hk').
    simpl. destruct (String.eqb k' k) eqn:E; [|reflexivity].
    apply String.eqb_eq in E; subst k'. contradiction.
Qed.

Lemma lookup_map_entries {A V} (g : string * A -> V) (d : dict A)
    (k : string) :
  lookup (map (fun kv => (fst kv, g kv)) d) k
  = option_map (fun a => g (k, a)) (lookup d k).
Proof.
  induction d as [|[k0 a0] d IH]; simpl; [reflexivity|].
  destruct (String.eqb k k0) eqn:E; [|exact IH].
  apply String.eqb_eq in E; subst k0. reflexivity.
Qed.

(** Every entry of a dictionary filled key by key satisfies what every
    stored value satisfies. *)
Lemma fold_dict_set_all {A V} (P : V -> Prop) (g : string * A -> V)
    (l : list (string * A)) :
  (forall kv, P (g kv)) ->
  forall acc,
    (forall k v, lookup acc k = Some v -> P v) ->
    forall k v,
      lookup (fold_left (fun r kv => dict_set r (fst kv) (g kv)) l acc) k
      = Some v -> P v.
Proof.
  intros Hg. induction l as [|kv l IH]; intros acc Hacc; simpl;
    [exact Hacc|].
  apply IH. intros k v. rewrite lookup_dict_set.
  destruct (String.eqb k (fst kv)); [|apply Hacc].
  intros E; inversion E; subst. apply Hg.
Qed.

(** The consolidator raises only on a successful result without a parsed
    record. *)
Lemma consolidate_total (ocr_results : dict ocr_result) :
  (forall k r, lookup ocr_results k = Some r -> success r = true ->
               parsed_data r <> None) ->
  exists c, consolidate_customer_data ocr_results = Some c.
Proof.
  intros Hwf.
  unfold consolidate_customer_data, merge_cnpj, merge_rg, merge_address.
  destruct (present_and_successful ocr_results "cnpj") as [rc|] eqn:Ec;
    [rewrite (successful_has_data _ _ _ Hwf Ec)|];
    (destruct (present_and_successful ocr_results "rg") as [rr|] eqn:Er;
     [rewrite (successful_has_data _ _ _ Hwf Er)|]);
    (destruct (present_and_successful ocr_results "address") as [ra|] eqn:Ea;
     [rewrite (successful_has_data _ _ _ Hwf Ea)|]);
    try match goal with
        | |- context [if ?c then _ else _] => destruct c
        end;
    eexists; reflexivity.
Qed.

Section BatchFacts.

Variable json_loads : string -> option (dict pyval).
Variable re_search : string -> string -> list re_flag -> option string.
Variable re_findall : string -> string -> list re_flag -> list string.
Variable re_match : string -> string -> bool.
Variable re_sub : string -> string -> string -> string.
Variable set_iter : list string -> list string.
Variable path_exists : string -> bool.

Abbreviation one_document :=
  (process_document json_loads re_search re_findall re_match re_sub set_iter).
Abbreviation all_documents :=
  (process_all_documents json_loads re_search re_findall re_match re_sub
     set_iter path_exists).
Abbreviation batch_entry :=
  (batch_entry json_loads re_search re_findall re_match re_sub set_iter
     path_exists).

Lemma batch_as_fold (cfg : OCRRetryConfig)
    (world : string -> nat -> prompt -> string -> api_outcome)
    (documents : dict string) :
  all_documents cfg world documents
  = fold_left (fun r kv => dict_set r (fst kv) (batch_entry cfg world kv))
      documents [].
Proof.
  unfold process_all_documents. generalize (@nil (string * ocr_result)).
  induction documents as [|kv l IH]; intros acc; simpl; [reflexivity|].
  rewrite <- IH. unfold batch_entry.
  destruct (nonempty (snd kv) && path_exists (snd kv)); reflexivity.
Qed.

Lemma batch_entry_has_data (cfg : OCRRetryConfig)
    (world : string -> nat -> prompt -> string -> api_outcome)
    (kv : string * string) :
  success (batch_entry cfg world kv) = true ->
  parsed_data (batch_entry cfg world kv) <> None.
Proof.
  unfold batch_entry.
  destruct (nonempty (snd kv) && path_exists (snd kv)); [|discriminate].
  destruct (document_final_is_a_body_result json_loads re_search re_findall
              re_match re_sub set_iter cfg (world (fst kv)) (snd kv) (fst kv))
    as (k & _ & _ & ->).
  intros H.
  apply (body_success_or_error json_loads re_search re_findall re_match
           re_sub set_iter (world (fst kv) k) (snd kv) (fst kv)).
  exact H.
Qed.

(** X14. Whatever the documents, the files present and the answers of the
    model, consolidating the results of [process_all_documents] returns a
    profile: no successful entry lacks its parsed record. *)
Theorem batch_consolidation_never_raises (cfg : OCRRetryConfig)
    (world : string -> nat -> prompt -> string -> api_outcome)
    (documents : dict string) :
  exists c,
    consolidate_customer_data (all_documents cfg world documents) = Some c.
Proof.
  apply consolidate_total. rewrite batch_as_fold.
  intros k r Hl.
  apply (fold_dict_set_all
           (fun r => success r = true -> parsed_data r <> None)
           (batch_entry cfg world) documents
           (batch_entry_has_data cfg world) []) with (k := k);
    [|exact Hl].
  intros k' v'. simpl. discriminate.
Qed.

(** X15. For documents with distinct types, [process_all_documents] returns one
    entry per document, in the same order: a document whose path is empty
    or whose file does not exist gets the "file not found" failure, every
    other one the final result of [process_document]. *)
Theorem batch_has_one_entry_per_document (cfg : OCRRetryConfig)
    (world : string -> nat -> prompt -> string -> api_outcome)
    (documents : dict string) :
  NoDup (keys documents) ->
  keys (all_documents cfg world documents) = keys documents
  /\ (forall doc_type image_path,
        lookup documents doc_type = Some image_path ->
        lookup (all_documents cfg world documents) doc_type
        = Some (if nonempty image_path && path_exists image_path
                then final (one_document cfg (world doc_type) image_path
                              doc_type)
                else not_found_result doc_type)).
Proof.
  intros Hnd. rewrite batch_as_fold.
  rewrite (fold_dict_set_nodup (batch_entry cfg world) documents Hnd [])
    by (intros; reflexivity).
  cbn [app]. split.
  - unfold keys. rewrite map_map. reflexivity.
  - intros doc_type image_path Hl.
    rewrite lookup_map_entries, Hl. reflexivity.
Qed.

End BatchFacts.

(** ** The task that calls the pipeline *)

(** X16. In the task, the consolidation raises exactly when one of the
    documents cnpj, rg and address was processed successfully: the entries
    the task stores carry the parsed record under ['data'], and the
    consolidator reads ['parsed_data']. *)
Theorem task_consolidation_raises_iff_some_success
    (outcomes : dict doc_outcome) :
  task_consolidate outcomes = None
  <-> exists doc_type r,
        In doc_type ["cnpj"; "rg"; "address"]
        /\ lookup outcomes doc_type = Some (DocResult r)
        /\ success r = true.
Proof.
  unfold task_consolidate.
  set (results := map _ outcomes).
  assert (Hp : forall k,
    present_and_successful results k
    = match lookup outcomes k with
      | Some (DocResult r) =>
          if success r
          then Some (entry_as_result (task_entry_of (DocResult r)))
          else None
      | _ => None
      end).
  { intros k. unfold present_and_successful, results.
    rewrite (lookup_map_entries
               (fun kv => entry_as_result (task_entry_of (snd kv)))).
    destruct (lookup outcomes k) as [[r | msg]|]; reflexivity. }
  unfold consolidate_customer_data, merge_cnpj, merge_rg, merge_address.
  rewrite !Hp.
  split.
  - destruct (lookup outcomes "cnpj") as [[rc | mc]|] eqn:Ec;
      try (destruct (success rc) eqn:Sc;
           [intros _; exists "cnpj", rc; simpl; auto|]);
      (destruct (lookup outcomes "rg") as [[rr | mr]|] eqn:Er;
       try (destruct (success rr) eqn:Sr;
            [intros _; exists "rg", rr; simpl; auto|]));
      (destruct (lookup outcomes "address") as [[ra | ma]|] eqn:Ea;
       try (destruct (success ra) eqn:Sa;
            [intros _; exists "address", ra; simpl; auto|]));
      discriminate.
  - intros (doc_type & r & Hin & Hl & Hs).
    simpl in Hin. destruct Hin as [<- | [<- | [<- | []]]].
    + rewrite Hl, Hs. reflexivity.
    + rewrite Hl, Hs.
      destruct (lookup outcomes "cnpj") as [[rc | mc]|];
        try destruct (success rc); reflexivity.
    + rewrite Hl, Hs.
      destruct (lookup outcomes "cnpj") as [[rc | mc]|];
        try destruct (success rc); try reflexivity;
        (destruct (lookup outcomes "rg") as [[rr | mr]|];
         try destruct (success rr); reflexivity).
Qed.

(** X17. While the documents are processed the progress reported for document
    [i] of [total_docs] stays between 10 and 79 and never decreases from
    one document to the next. *)
Theorem task_progress_bounds (i j total_docs : nat) :
  (i <= j)%nat ->
  (j < total_docs)%nat ->
  (10 <= task_progress i total_docs)%nat
  /\ (task_progress i total_docs <= task_progress j total_docs)%nat
  /\ (task_progress j total_docs < 80)%nat.
Proof.
  intros Hij Hj. unfold task_progress.
  split; [lia|]. split.
  - apply Nat.add_le_mono_l. apply Nat.Div0.div_le_mono. nia.
  - assert (H : (j * 70 / total_docs < 70)%nat)
      by (apply Nat.Div0.div_lt_upper_bound; nia).
    lia.
Qed.

(** ** The consolidated profile *)

(** The dictionary after the three merging steps: fifteen values taken
    from the documents, two fields that no document fills, and the
    metadata as initialised. *)
Lemma merged_profile_shape (ocr_results : dict ocr_result)
    (c1 c2 c3 : dict cval) :
  merge_cnpj ocr_results consolidated_init = Some c1 ->
  merge_rg ocr_results c1 = Some c2 ->
  merge_address ocr_results c2 = Some c3 ->
  exists a1 a2 a3 a4 a5 b1 b2 b3 b4 b5 b6 b7 o1 o2 o3,
    c3 = [ ("empresa", CData a1); ("cnpj", CData a2);
           ("inscricaoEstadual", CData a3); ("email", CData a4);
           ("telefone", CData a5); ("celular", CData PNone);
           ("cep", CData b1); ("endereco", CData b2);
           ("numero", CData b3); ("complemento", CData b4);
           ("bairro", CData b5); ("cidade", CData b6); ("uf", CData b7);
           ("nomeCompleto", CData o1); ("cpf", CData o2);
           ("dataNascimento", CData o3);
           ("enderecoProprietario", CData PNone);
           ("confidenceScore", CData (PInt 0));
           ("fieldsExtracted", CData (PInt 0));
           ("fieldsTotal", CData (PInt 0));
           ("needsReview", CList []) ]
    /\ (o1, o2, o3)
       = match present_and_successful ocr_results "rg" with
         | Some r => (dict_get (data_of r) "nome_completo",
                      dict_get (data_of r) "cpf",
                      dict_get (data_of r) "data_nascimento")
         | None => (PNone, PNone, PNone)
         end.
Proof.
  unfold merge_cnpj, merge_rg, merge_address, data_of.
  destruct (present_and_successful ocr_results "cnpj") as [rc|];
    [destruct (parsed_data rc) as [dc|]; [|discriminate]|];
    intros H1; inversion H1; subst c1; clear H1;
    (destruct (present_and_successful ocr_results "rg") as [rr|];
     [destruct (parsed_data rr) as [dr|]; [|discriminate]|]);
    intros H2; inversion H2; subst c2; clear H2;
    (destruct (present_and_successful ocr_results "address") as [ra|];
     [destruct (parsed_data ra) as [da|]; [|discriminate];
      match goal with
      | |- context [if ?c then _ else _] => destruct c
      end|]);
    intros H3; inversion H3; subst c3; clear H3;
    do 15 eexists; split; reflexivity.
Qed.

Lemma add_metrics_unfolded (c : dict cval) (l : list string) :
  cget c "needsReview" = CList l ->
  exists review,
    add_metrics c
    = dict_set
        (dict_set
           (dict_set
              (dict_set c "fieldsTotal"
                 (CData (PInt (Z.of_nat
                    (length (filter counts_as_field (keys c)))))))
              "fieldsExtracted"
              (CData (PInt (Z.of_nat
                 (length (filter counts_as_filled (values c)))))))
           "confidenceScore"
           (if (0 <? length (filter counts_as_field (keys c)))%nat
            then CFloat
                   ((inject_Z (Z.of_nat
                       (length (filter counts_as_filled (values c))))
                     / inject_Z (Z.of_nat
                         (length (filter counts_as_field (keys c)))))
                    * 100)%Q
            else CData (PInt 0)))
        "needsReview" (CList (l ++ review)%list).
Proof.
  intros Hl. unfold add_metrics; cbv zeta.
  rewrite !cget_dict_set. cbn [String.eqb]. simpl String.eqb. cbv iota.
  rewrite Hl. eexists. reflexivity.
Qed.

(** X18. The owner's name, tax number and date of birth of the profile come
    from the identity document alone (null without a successful one), the
    fields [celular] and [enderecoProprietario] are always null, and the
    profile always has the same 21 keys in the same order. *)
Theorem owner_fields_come_from_identity_document
    (ocr_results : dict ocr_result) (c : dict cval) :
  consolidate_customer_data ocr_results = Some c ->
  keys c = keys consolidated_init
  /\ (cget c "nomeCompleto", cget c "cpf", cget c "dataNascimento")
     = match present_and_successful ocr_results "rg" with
       | Some r => (CData (dict_get (data_of r) "nome_completo"),
                    CData (dict_get (data_of r) "cpf"),
                    CData (dict_get (data_of r) "data_nascimento"))
       | None => (CData PNone, CData PNone, CData PNone)
       end
  /\ cget c "celular" = CData PNone
  /\ cget c "enderecoProprietario" = CData PNone.
Proof.
  unfold consolidate_customer_data.
  destruct (merge_cnpj ocr_results consolidated_init) as [c1|] eqn:E1;
    [|discriminate].
  destruct (merge_rg ocr_results c1) as [c2|] eqn:E2; [|discriminate].
  destruct (merge_address ocr_results c2) as [c3|] eqn:E3; [|discriminate].
  intros H; inversion H; subst c; clear H.
  destruct (merged_profile_shape ocr_results c1 c2 c3 E1 E2 E3)
    as (a1 & a2 & a3 & a4 & a5 & b1 & b2 & b3 & b4 & b5 & b6 & b7
        & o1 & o2 & o3 & -> & Ho).
  match goal with
  | |- context [add_metrics ?L] =>
      destruct (add_metrics_unfolded L [] eq_refl) as [review ->]
  end.
  split; [reflexivity|].
  rewrite !cget_dict_set.
  destruct (present_and_successful ocr_results "rg");
    inversion Ho; subst; repeat split.
Qed.

Lemma identity_only_owner_fields :
  keys identity_only_profile
  = keys consolidated_init
  /\ (cget identity_only_profile "nomeCompleto",
      cget identity_only_profile "cpf",
      cget identity_only_profile "dataNascimento")
     = match present_and_successful [("rg", name_only_result)] "rg" with
       | Some r => (CData (dict_get (data_of r) "nome_completo"),
                    CData (dict_get (data_of r) "cpf"),
                    CData (dict_get (data_of r) "data_nascimento"))
       | None => (CData PNone, CData PNone, CData PNone)
       end
  /\ cget identity_only_profile "celular"
     = CData PNone
  /\ cget identity_only_profile
       "enderecoProprietario"
     = CData PNone.
Proof.
  apply (owner_fields_come_from_identity_document
           [("rg", name_only_result)]).
  reflexivity.
Defined.



(** ** Document numbers: formatting and the two validators *)

Lemma digits_only_all_digits (s : string) : all_digits (digits_only s) = true.
Proof.
  unfold all_digits.
  induction s as [|c s IH]; [reflexivity|].
  cbn [digits_only]. destruct (is_digit c) eqn:E; [|exact IH].
  cbn [list_ascii_of_string forallb]. rewrite E, IH. reflexivity.
Qed.

Lemma digits_only_fixed (s : string) :
  all_digits s = true -> digits_only s = s.
Proof.
  unfold all_digits.
  induction s as [|c s IH]; [reflexivity|].
  cbn [list_ascii_of_string forallb digits_only].
  intros H. apply andb_prop in H as [Hc Hs].
  rewrite Hc, (IH Hs). reflexivity.
Qed.

Lemma digits_only_app (a b : string) :
  digits_only (a ++ b) = digits_only a ++ digits_only b.
Proof.
  induction a as [|c a IH]; [reflexivity|].
  cbn [append digits_only]. destruct (is_digit c); rewrite IH; reflexivity.
Qed.

Lemma all_digits_substring (n m : nat) (s : string) :
  all_digits s = true -> all_digits (substring n m s) = true.
Proof.
  unfold all_digits. revert n m.
  induction s as [|c s IH]; intros n m H.
  - destruct n, m; reflexivity.
  - cbn [list_ascii_of_string forallb] in H.
    apply andb_prop in H as [Hc Hs].
    destruct n as [|n]; [destruct m as [|m]; [reflexivity|]|].
    + cbn [substring list_ascii_of_string forallb].
      rewrite Hc. apply (IH 0%nat m Hs).
    + cbn [substring]. apply IH. exact Hs.
Qed.

Lemma check_digit_eq (total : nat) :
  Utils.check_digit total
  = (if (total mod 11 <? 2)%nat then 0 else 11 - total mod 11)%nat
  /\ (Utils.check_digit total < 10)%nat.
Proof.
  unfold Utils.check_digit.
  pose proof (Nat.mod_upper_bound total 11 ltac:(lia)) as Hr.
  destruct (Nat.leb_spec 10 (11 - total mod 11));
    destruct (Nat.ltb_spec (total mod 11) 2); split; lia.
Qed.

(** A string of [n] characters, written out. *)
Ltac explode s :=
  repeat match goal with
         | H : String.length s = S _ |- _ =>
             let c := fresh "c" in
             destruct s as [|c s]; [discriminate H|];
             cbn [String.length] in H; apply Nat.succ_inj in H
         end;
  match goal with
  | H : String.length s = 0%nat |- _ =>
      destruct s; [clear H | discriminate H]
  end.

Ltac split_digits H :=
  unfold all_digits in H; cbn [list_ascii_of_string forallb] in H;
  repeat match type of H with
         | (_ && _) = true =>
             let Hc := fresh "Hd" in
             apply andb_prop in H as [Hc H]
         end.

Lemma clean_cpf_eq (s : string) : Utils.clean_cpf s = digits_only s.
Proof. destruct s; reflexivity. Qed.

Lemma clean_cnpj_eq (s : string) : Utils.clean_cnpj s = digits_only s.
Proof. destruct s; reflexivity. Qed.

Ltac use_digits :=
  repeat match goal with
         | H : is_digit ?c = true |- context [is_digit ?c] => rewrite H
         end.

Lemma formatted_cpf_digits (clean : string) :
  String.length clean = 11%nat ->
  all_digits clean = true ->
  digits_only (slice 0 3 clean ++ "." ++ slice 3 6 clean ++ "."
               ++ slice 6 9 clean ++ "-" ++ slice_from 9 clean) = clean
  /\ nonempty (slice 0 3 clean ++ "." ++ slice 3 6 clean ++ "."
               ++ slice 6 9 clean ++ "-" ++ slice_from 9 clean) = true.
Proof.
  intros Hlen Hall. explode clean. split_digits Hall.
  cbn [slice slice_from substring String.length Nat.min Nat.sub append
       digits_only nonempty].
  change (is_digit ".") with false. change (is_digit "-") with false.
  use_digits. split; reflexivity.
Qed.

Lemma formatted_cnpj_digits (clean : string) :
  String.length clean = 14%nat ->
  all_digits clean = true ->
  digits_only (slice 0 2 clean ++ "." ++ slice 2 5 clean ++ "."
               ++ slice 5 8 clean ++ "/" ++ slice 8 12 clean ++ "-"
               ++ slice_from 12 clean) = clean
  /\ nonempty (slice 0 2 clean ++ "." ++ slice 2 5 clean ++ "."
               ++ slice 5 8 clean ++ "/" ++ slice 8 12 clean ++ "-"
               ++ slice_from 12 clean) = true.
Proof.
  intros Hlen Hall. explode clean. split_digits Hall.
  cbn [slice slice_from substring String.length Nat.min Nat.sub append
       digits_only nonempty].
  change (is_digit ".") with false. change (is_digit "-") with false.
  change (is_digit "/") with false.
  use_digits. split; reflexivity.
Qed.

Lemma digits_nonempty (s : string) :
  nonempty (digits_only s) = true -> nonempty s = true.
Proof. destruct s; [discriminate | reflexivity]. Qed.

(** X20. Formatting a CPF or a CNPJ keeps its digits: cleaning the formatted
    text gives the digits of the original, formatting twice is formatting
    once, and the validator gives the same verdict and message before and
    after formatting. *)
Theorem formatting_keeps_digits_and_verdict (s : string) :
  Utils.clean_cpf (Utils.format_cpf s) = Utils.clean_cpf s
  /\ Utils.format_cpf (Utils.format_cpf s) = Utils.format_cpf s
  /\ Utils.validate_cpf (Utils.format_cpf s) = Utils.validate_cpf s
  /\ Utils.clean_cnpj (Utils.format_cnpj s) = Utils.clean_cnpj s
  /\ Utils.format_cnpj (Utils.format_cnpj s) = Utils.format_cnpj s
  /\ Utils.validate_cnpj (Utils.format_cnpj s) = Utils.validate_cnpj s.
Proof.
  assert (Hcpf :
    Utils.clean_cpf (Utils.format_cpf s) = Utils.clean_cpf s
    /\ nonempty (Utils.format_cpf s) = nonempty s).
  { unfold Utils.format_cpf. rewrite !clean_cpf_eq.
    destruct (String.length (digits_only s) =? 11)%nat eqn:E;
      [|split; reflexivity].
    apply Nat.eqb_eq in E.
    destruct (formatted_cpf_digits (digits_only s) E
                (digits_only_all_digits s)) as [Hd Hn].
    rewrite Hd, Hn. split; [reflexivity|].
    symmetry. apply digits_nonempty.
    destruct (digits_only s); [discriminate E | reflexivity]. }
  assert (Hcnpj :
    Utils.clean_cnpj (Utils.format_cnpj s) = Utils.clean_cnpj s
    /\ nonempty (Utils.format_cnpj s) = nonempty s).
  { unfold Utils.format_cnpj. rewrite !clean_cnpj_eq.
    destruct (String.length (digits_only s) =? 14)%nat eqn:E;
      [|split; reflexivity].
    apply Nat.eqb_eq in E.
    destruct (formatted_cnpj_digits (digits_only s) E
                (digits_only_all_digits s)) as [Hd Hn].
    rewrite Hd, Hn. split; [reflexivity|].
    symmetry. apply digits_nonempty.
    destruct (digits_only s); [discriminate E | reflexivity]. }
  destruct Hcpf as [Hc1 Hn1]. destruct Hcnpj as [Hc2 Hn2].
  split; [exact Hc1|]. split.
  { unfold Utils.format_cpf at 1. rewrite Hc1.
    unfold Utils.format_cpf at 2.
    destruct (String.length (Utils.clean_cpf s) =? 11)%nat eqn:E;
      [reflexivity|].
    unfold Utils.format_cpf. rewrite E. reflexivity. }
  split.
  { unfold Utils.validate_cpf. rewrite Hc1, Hn1. reflexivity. }
  split; [exact Hc2|]. split.
  { unfold Utils.format_cnpj at 1. rewrite Hc2.
    unfold Utils.format_cnpj at 2.
    destruct (String.length (Utils.clean_cnpj s) =? 14)%nat eqn:E;
      [reflexivity|].
    unfold Utils.format_cnpj. rewrite E. reflexivity. }
  unfold Utils.validate_cnpj. rewrite Hc2, Hn2. reflexivity.
Qed.

(** *** The two validators on any text *)

Lemma str_of_digit (d : nat) :
  (d < 10)%nat -> Unicode.str_of_nat d = [(48 + N.of_nat d)%N].
Proof.
  intros H. do 10 (destruct d as [|d]; [reflexivity|]). lia.
Qed.

(** A character is the digit [d] of an f-string exactly when it reads as
    [d] and is one of the digits 0 to 9. *)
Lemma ascii_digit_eqb (decimal : N -> option nat) (c : N) (d : nat) :
  reads_ascii_digits decimal ->
  (d < 10)%nat ->
  N.eqb c (48 + N.of_nat d)
  = (Unicode.int_of_char decimal c =? d)%nat && is_ascii_digit c.
Proof.
  intros Hd Hlt.
  destruct (N.eqb_spec c (48 + N.of_nat d)) as [-> | Hne].
  - unfold Unicode.int_of_char. rewrite (Hd d Hlt), Nat.eqb_refl.
    unfold is_ascii_digit. cbn [andb]. symmetry.
    apply andb_true_intro; split; apply N.leb_le; lia.
  - symmetry. apply andb_false_iff.
    destruct (is_ascii_digit c) eqn:Ea; [left | right; reflexivity].
    apply Nat.eqb_neq. intros E. apply Hne.
    unfold is_ascii_digit in Ea. apply andb_prop in Ea as [H1 H2].
    apply N.leb_le in H1, H2.
    set (e := N.to_nat (c - 48)).
    assert (Hc : c = (48 + N.of_nat e)%N) by (subst e; lia).
    assert (He : (e < 10)%nat) by (subst e; lia).
    clearbody e. subst c.
    unfold Unicode.int_of_char in E. rewrite (Hd e He) in E.
    subst d. reflexivity.
Qed.

Lemma two_digits_text_eqb (decimal : N -> option nat) (c1 c2 : N)
    (d1 d2 : nat) :
  reads_ascii_digits decimal ->
  (d1 < 10)%nat -> (d2 < 10)%nat ->
  Unicode.text_eqb [c1; c2]
    (Unicode.str_of_nat d1 ++ Unicode.str_of_nat d2)%list
  = (Unicode.int_of_char decimal c1 =? d1)%nat
    && (Unicode.int_of_char decimal c2 =? d2)%nat
    && ascii_digits [c1; c2].
Proof.
  intros Hd H1 H2.
  rewrite !str_of_digit by assumption.
  cbn [app Unicode.text_eqb ascii_digits forallb].
  rewrite (ascii_digit_eqb decimal c1 d1 Hd H1),
    (ascii_digit_eqb decimal c2 d2 Hd H2).
  destruct (Unicode.int_of_char decimal c1 =? d1)%nat,
    (Unicode.int_of_char decimal c2 =? d2)%nat,
    (is_ascii_digit c1), (is_ascii_digit c2); reflexivity.
Qed.

Lemma calculate_digit_is_check_digit (decimal : N -> option nat)
    (digits : text) (weights : list nat) :
  Unicode.Models.calculate_digit decimal digits weights
  = Utils.check_digit
      (fold_left
         (fun acc dw => acc + Unicode.int_of_char decimal (fst dw) * snd dw)
         (combine digits weights) 0).
Proof.
  unfold Unicode.Models.calculate_digit; cbv zeta.
  rewrite (proj1 (check_digit_eq _)). reflexivity.
Qed.

(** A text of [n] characters, written out. *)
Ltac explode_text s :=
  repeat match goal with
         | H : length s = S _ |- _ =>
             let c := fresh "c" in
             destruct s as [|c s]; [discriminate H|];
             cbn [length] in H; apply Nat.succ_inj in H
         end;
  match goal with
  | H : length s = 0%nat |- _ =>
      destruct s; [clear H | discriminate H]
  end.

Lemma in_firstn {A} (n : nat) (l : list A) (x : A) :
  In x (firstn n l) -> In x l.
Proof.
  revert l. induction n as [|n IH]; intros l H; [destruct H|].
  destruct l as [|y l]; [destruct H|].
  destruct H as [H | H]; [left; exact H | right; apply IH; exact H].
Qed.

Lemma in_skipn {A} (n : nat) (l : list A) (x : A) :
  In x (skipn n l) -> In x l.
Proof.
  revert l. induction n as [|n IH]; intros l H; [exact H|].
  destruct l as [|y l]; [destruct H|]. right. apply IH. exact H.
Qed.

Lemma ascii_digits_slice (i j : nat) (s : text) :
  ascii_digits s = true -> ascii_digits (Unicode.slice i j s) = true.
Proof.
  unfold ascii_digits, Unicode.slice. rewrite !forallb_forall.
  intros H c Hc. apply H.
  apply (in_skipn i). apply (in_firstn (j - i)). exact Hc.
Qed.

Lemma cpf_check_digits_agree (decimal : N -> option nat) (clean : text) :
  reads_ascii_digits decimal ->
  length clean = 11%nat ->
  Unicode.text_eqb (Unicode.slice 9 11 clean)
    (Unicode.str_of_nat
       (Unicode.Models.calculate_digit decimal (Unicode.slice 0 9 clean)
          (Unicode.Models.weights_down_from 10))
     ++ Unicode.str_of_nat
          (Unicode.Models.calculate_digit decimal (Unicode.slice 0 10 clean)
             (Unicode.Models.weights_down_from 11)))%list
  = (Unicode.digit_at decimal clean 9
     =? Utils.check_digit
          (sum_range 9
             (fun i => Unicode.digit_at decimal clean i * (10 - i))))%nat
    && (Unicode.digit_at decimal clean 10
        =? Utils.check_digit
             (sum_range 10
                (fun i => Unicode.digit_at decimal clean i * (11 - i))))%nat
    && ascii_digits (Unicode.slice 9 11 clean).
Proof.
  intros Hd Hlen. explode_text clean.
  rewrite !calculate_digit_is_check_digit.
  match goal with
  | |- Unicode.text_eqb _ (Unicode.str_of_nat (Utils.check_digit ?t1)
                           ++ Unicode.str_of_nat (Utils.check_digit ?t2))%list
       = (_ =? Utils.check_digit ?u1)%nat && (_ =? Utils.check_digit ?u2)%nat
         && _ =>
      replace t1 with u1 by reflexivity;
      replace t2 with u2 by reflexivity
  end.
  match goal with
  | |- Unicode.text_eqb (Unicode.slice 9 11 ?s) _ = _ =>
      match s with
      | context [?a :: ?b :: nil] =>
          change (Unicode.slice 9 11 s) with [a; b];
          change (Unicode.digit_at decimal s 9)
            with (Unicode.int_of_char decimal a);
          change (Unicode.digit_at decimal s 10)
            with (Unicode.int_of_char decimal b)
      end
  end.
  apply two_digits_text_eqb; [exact Hd | apply check_digit_eq ..].
Qed.

(** On the strings of the Latin-1 block the validators on texts are the
    validators of [Utils] above. *)
Lemma latin1_is_decimal (c : ascii) :
  Unicode.is_decimal latin1_decimal (N.of_nat (nat_of_ascii c)) = is_digit c.
Proof.
  destruct c as [[] [] [] [] [] [] [] []]; reflexivity.
Qed.

Lemma latin1_int_of_char (c : ascii) :
  is_digit c = true ->
  Unicode.int_of_char latin1_decimal (N.of_nat (nat_of_ascii c))
  = int_of_char c.
Proof.
  destruct c as [[] [] [] [] [] [] [] []]; intros H;
    first [discriminate H | reflexivity].
Qed.

Lemma latin1_digits_only (s : string) :
  Unicode.digits_only latin1_decimal (text_of_string s)
  = text_of_string (digits_only s).
Proof.
  unfold Unicode.digits_only, text_of_string.
  induction s as [|c s IH]; [reflexivity|].
  cbn [list_ascii_of_string map filter digits_only].
  rewrite latin1_is_decimal, IH.
  destruct (is_digit c); reflexivity.
Qed.

Lemma text_of_string_length (s : string) :
  length (text_of_string s) = String.length s.
Proof.
  unfold text_of_string.
  induction s as [|c s IH]; [reflexivity|].
  cbn [list_ascii_of_string map length String.length]. rewrite IH.
  reflexivity.
Qed.

Lemma latin1_code_eqb (a b : ascii) :
  N.eqb (N.of_nat (nat_of_ascii a)) (N.of_nat (nat_of_ascii b))
  = Ascii.eqb a b.
Proof.
  destruct (Ascii.eqb_spec a b) as [-> | Hne]; [apply N.eqb_refl|].
  apply N.eqb_neq. intros E. apply Hne.
  assert (E' : nat_of_ascii a = nat_of_ascii b) by lia.
  rewrite <- (ascii_nat_embedding a), <- (ascii_nat_embedding b), E'.
  reflexivity.
Qed.

Lemma latin1_one_distinct_char (s : string) :
  Unicode.one_distinct_char (text_of_string s) = one_distinct_char s.
Proof.
  destruct s as [|c s]; [reflexivity|].
  unfold text_of_string.
  cbn [list_ascii_of_string map Unicode.one_distinct_char one_distinct_char].
  induction (list_ascii_of_string s) as [|x l IH]; [reflexivity|].
  cbn [map forallb]. rewrite latin1_code_eqb, IH. reflexivity.
Qed.

Lemma latin1_validators (s : string) :
  Unicode.Utils.validate_cpf latin1_decimal (text_of_string s)
  = Utils.validate_cpf s
  /\ Unicode.Utils.validate_cnpj latin1_decimal (text_of_string s)
     = Utils.validate_cnpj s.
Proof.
  assert (Hn : Unicode.nonempty (text_of_string s) = nonempty s)
    by (destruct s; reflexivity).
  pose proof (digits_only_all_digits s) as Hall.
  unfold Unicode.Utils.validate_cpf, Unicode.Utils.validate_cnpj,
    Utils.validate_cpf, Utils.validate_cnpj,
    Unicode.Utils.clean_cpf, Unicode.Utils.clean_cnpj.
  rewrite clean_cpf_eq, clean_cnpj_eq, Hn.
  destruct (nonempty s); cbn [negb]; [|split; reflexivity].
  rewrite latin1_digits_only, text_of_string_length,
    latin1_one_distinct_char.
  remember (digits_only s) as clean eqn:Hclean. clear Hclean Hn.
  split.
  - destruct (String.length clean =? 11)%nat eqn:E; cbn [negb];
      [|reflexivity].
    destruct (one_distinct_char clean); [reflexivity|].
    apply Nat.eqb_eq in E. explode clean. split_digits Hall.
    unfold sum_range, Unicode.digit_at, digit_at, text_of_string.
    cbn [list_ascii_of_string map nth_error String.get seq fold_left].
    rewrite !latin1_int_of_char by assumption. reflexivity.
  - destruct (String.length clean =? 14)%nat eqn:E; cbn [negb];
      [|reflexivity].
    destruct (one_distinct_char clean); [reflexivity|].
    apply Nat.eqb_eq in E. explode clean. split_digits Hall.
    unfold sum_range, Unicode.digit_at, digit_at, text_of_string.
    cbn [list_ascii_of_string map nth_error String.get seq fold_left].
    rewrite !latin1_int_of_char by assumption. reflexivity.
Qed.

(** X21. On any text, the CPF validator of the request models accepts the
    empty value and otherwise exactly the values that the validator of the
    utilities accepts and whose two check digits are written with the
    digits 0 to 9: the utilities compare the numbers that the characters
    stand for, the request models compare the characters with the text of
    the computed digits.  On a value whose decimal digits are all among 0
    to 9 the two validators agree, the empty value apart. *)
Theorem cpf_validators_agree (decimal : N -> option nat) (v : text) :
  reads_ascii_digits decimal ->
  Unicode.Models.accepted (Unicode.Models.validate_cpf decimal v)
  = negb (Unicode.nonempty v)
    || (fst (Unicode.Utils.validate_cpf decimal v)
        && ascii_digits
             (Unicode.slice 9 11 (Unicode.digits_only decimal v)))
  /\ (ascii_digits (Unicode.digits_only decimal v) = true ->
      Unicode.Models.accepted (Unicode.Models.validate_cpf decimal v)
      = negb (Unicode.nonempty v)
        || fst (Unicode.Utils.validate_cpf decimal v)).
Proof.
  intros Hd.
  assert (H :
    Unicode.Models.accepted (Unicode.Models.validate_cpf decimal v)
    = negb (Unicode.nonempty v)
      || (fst (Unicode.Utils.validate_cpf decimal v)
          && ascii_digits
               (Unicode.slice 9 11 (Unicode.digits_only decimal v)))).
  { unfold Unicode.Models.validate_cpf, Unicode.Utils.validate_cpf,
      Unicode.Utils.clean_cpf.
    destruct (Unicode.nonempty v) eqn:Hv; cbn [negb orb]; [|reflexivity].
    destruct (length (Unicode.digits_only decimal v) =? 11)%nat eqn:E;
      cbn [negb]; [|reflexivity].
    destruct (Unicode.one_distinct_char (Unicode.digits_only decimal v));
      [reflexivity|].
    apply Nat.eqb_eq in E.
    rewrite (cpf_check_digits_agree decimal _ Hd E).
    match goal with
    | |- context [(?a =? ?b)%nat && (?c =? ?d)%nat && ?e] =>
        destruct (a =? b)%nat, (c =? d)%nat, e
    end; reflexivity. }
  split; [exact H|].
  intros Ha. rewrite H, (ascii_digits_slice 9 11 _ Ha), andb_true_r.
  reflexivity.
Qed.

Lemma cnpj_check_digits_agree (decimal : N -> option nat) (clean : text) :
  reads_ascii_digits decimal ->
  length clean = 14%nat ->
  Unicode.text_eqb (Unicode.slice 12 14 clean)
    (Unicode.str_of_nat
       (Unicode.Models.calculate_digit decimal (Unicode.slice 0 12 clean)
          Unicode.Models.weights1)
     ++ Unicode.str_of_nat
          (Unicode.Models.calculate_digit decimal (Unicode.slice 0 13 clean)
             Unicode.Models.weights2))%list
  = (Unicode.digit_at decimal clean 12
     =? Utils.check_digit
          (sum_range 12
             (fun i => Unicode.digit_at decimal clean i
                       * nth i Utils.weights1 0)))%nat
    && (Unicode.digit_at decimal clean 13
        =? Utils.check_digit
             (sum_range 13
                (fun i => Unicode.digit_at decimal clean i
                          * nth i Utils.weights2 0)))%nat
    && ascii_digits (Unicode.slice 12 14 clean).
Proof.
  intros Hd Hlen. explode_text clean.
  rewrite !calculate_digit_is_check_digit.
  match goal with
  | |- Unicode.text_eqb _ (Unicode.str_of_nat (Utils.check_digit ?t1)
                           ++ Unicode.str_of_nat (Utils.check_digit ?t2))%list
       = (_ =? Utils.check_digit ?u1)%nat && (_ =? Utils.check_digit ?u2)%nat
         && _ =>
      replace t1 with u1 by reflexivity;
      replace t2 with u2 by reflexivity
  end.
  match goal with
  | |- Unicode.text_eqb (Unicode.slice 12 14 ?s) _ = _ =>
      match s with
      | context [?a :: ?b :: nil] =>
          change (Unicode.slice 12 14 s) with [a; b];
          change (Unicode.digit_at decimal s 12)
            with (Unicode.int_of_char decimal a);
          change (Unicode.digit_at decimal s 13)
            with (Unicode.int_of_char decimal b)
      end
  end.
  apply two_digits_text_eqb; [exact Hd | apply check_digit_eq ..].
Qed.

(** X22. On any text, the CNPJ validator of the utilities accepts a value
    with its two check digits written with the digits 0 to 9 exactly when
    the value is not empty, the validator of the request models accepts it,
    and its digits are not all the same character: the request models have
    no check for a repeated digit, and they compare the check digits as
    text where the utilities compare numbers.  On a value whose decimal
    digits are all among 0 to 9 the utilities accept exactly the non-empty
    values without a repeated digit that the request models accept. *)
Theorem cnpj_validators_differ_on_repeated_digit
    (decimal : N -> option nat) (v : text) :
  reads_ascii_digits decimal ->
  fst (Unicode.Utils.validate_cnpj decimal v)
  && ascii_digits (Unicode.slice 12 14 (Unicode.digits_only decimal v))
  = Unicode.nonempty v
    && Unicode.Models.accepted (Unicode.Models.validate_cnpj decimal v)
    && negb (Unicode.one_distinct_char (Unicode.digits_only decimal v))
  /\ (ascii_digits (Unicode.digits_only decimal v) = true ->
      fst (Unicode.Utils.validate_cnpj decimal v)
      = Unicode.nonempty v
        && Unicode.Models.accepted (Unicode.Models.validate_cnpj decimal v)
        && negb (Unicode.one_distinct_char
                   (Unicode.digits_only decimal v))).
Proof.
  intros Hd.
  assert (H :
    fst (Unicode.Utils.validate_cnpj decimal v)
    && ascii_digits (Unicode.slice 12 14 (Unicode.digits_only decimal v))
    = Unicode.nonempty v
      && Unicode.Models.accepted (Unicode.Models.validate_cnpj decimal v)
      && negb (Unicode.one_distinct_char (Unicode.digits_only decimal v))).
  { unfold Unicode.Models.validate_cnpj, Unicode.Utils.validate_cnpj,
      Unicode.Utils.clean_cnpj.
    destruct (Unicode.nonempty v) eqn:Hv; cbn [negb andb]; [|reflexivity].
    destruct (length (Unicode.digits_only decimal v) =? 14)%nat eqn:E;
      cbn [negb]; [|reflexivity].
    apply Nat.eqb_eq in E.
    rewrite (cnpj_check_digits_agree decimal _ Hd E).
    match goal with
    | |- context [(?a =? ?b)%nat && (?c =? ?d)%nat && ?e] =>
        destruct (a =? b)%nat, (c =? d)%nat, e
    end;
      destruct (Unicode.one_distinct_char (Unicode.digits_only decimal v));
      reflexivity. }
  split; [exact H|].
  intros Ha. rewrite <- H, (ascii_digits_slice 12 14 _ Ha), andb_true_r.
  reflexivity.
Qed.

(** X23. A masked CPF of 11 digits shows three digits only, the seventh to the
    ninth, in a text of 14 characters; a value without 11 digits is
    returned as it is. *)
Theorem mask_cpf_shows_three_digits (cpf : string) :
  (String.length (digits_only cpf) = 11%nat ->
   digits_only (Utils.mask_cpf cpf) = slice 6 9 (digits_only cpf)
   /\ String.length (Utils.mask_cpf cpf) = 14%nat)
  /\ (String.length (digits_only cpf) <> 11%nat ->
      Utils.mask_cpf cpf = cpf).
Proof.
  unfold Utils.mask_cpf. rewrite clean_cpf_eq. split.
  - intros E.
    assert (Hn : nonempty cpf = true).
    { apply digits_nonempty. destruct (digits_only cpf);
        [discriminate E | reflexivity]. }
    rewrite Hn, E. cbn [negb Nat.eqb].
    pose proof (digits_only_all_digits cpf) as Hall.
    remember (digits_only cpf) as clean eqn:Hclean. clear Hclean Hn.
    explode clean. split_digits Hall.
    cbn [slice substring String.length Nat.min Nat.sub append digits_only].
    change (is_digit "*") with false. change (is_digit ".") with false.
    change (is_digit "-") with false.
    use_digits. split; reflexivity.
  - intros E. destruct (nonempty cpf) eqn:Hn; cbn [negb].
    + apply Nat.eqb_neq in E. rewrite E. reflexivity.
    + destruct cpf; [reflexivity | discriminate Hn].
Qed.

(** ** Witnesses of the further properties *)

Lemma address_fallback_has_schema_keys :
  exists required min_fields,
    lookup quality_checks "address" = Some (required, min_fields)
    /\ keys (_extract_with_focused_regex no_search no_findall no_match
               sub_nothing in_order "sem dados" "address") = required
    /\ keys (_validate_essential_fields
               (_extract_with_focused_regex no_search no_findall no_match
                  sub_nothing in_order "sem dados" "address") "address")
       = required.
Proof.
  apply (fallback_record_has_schema_keys no_search no_findall no_match
           sub_nothing in_order "sem dados" "address").
  simpl; auto.
Defined.

Lemma answered_identity_card_is_accepted :
  exists required min_fields q data,
    lookup quality_checks "rg" = Some (required, min_fields)
    /\ quality_metrics
         (final (process_document loads_two_objects no_search no_findall
                   no_match sub_nothing in_order default_retry_config
                   answers_first_object "rg.jpg" "rg")) = Some q
    /\ is_acceptable q = true
    /\ parsed_data
         (final (process_document loads_two_objects no_search no_findall
                   no_match sub_nothing in_order default_retry_config
                   answers_first_object "rg.jpg" "rg"))
       = Some (_validate_essential_fields data "rg")
    /\ valid_fields q
       = spec_found_count (_validate_essential_fields data "rg") required
    /\ (min_fields <= valid_fields q)%nat.
Proof.
  apply (successful_document_is_accepted loads_two_objects no_search
           no_findall no_match sub_nothing in_order default_retry_config
           answers_first_object "rg.jpg" "rg").
  - simpl; auto.
  - vm_compute; reflexivity.
Defined.

Lemma status_429_is_not_retried :
  calls (process_document no_json no_search no_findall no_match sub_nothing
           in_order default_retry_config answers_429 "rg.jpg" "rg") = 1%nat
  /\ final (process_document no_json no_search no_findall no_match
              sub_nothing in_order default_retry_config answers_429
              "rg.jpg" "rg")
     = failed_result "rg" "Erro na API OCR: 429".
Proof.
  apply (status_code_retried_iff_digit_five no_json no_search no_findall
           no_match sub_nothing in_order default_retry_config answers_429
           "rg.jpg" "rg" 429).
  - discriminate.
  - lia.
  - lia.
  - intros attempt H. unfold get_delay_returns.
    cbn [strategy default_retry_config]. apply Nat.ltb_lt.
    cbn [max_retries default_retry_config] in H. lia.
  - reflexivity.
Defined.

Lemma batch_with_one_file :
  keys (process_all_documents loads_two_objects no_search no_findall
          no_match sub_nothing in_order only_rg_file default_retry_config
          (fun _ => answers_first_object)
          [("rg", "rg.jpg"); ("cnpj", "cnpj.jpg"); ("address", "")])
  = ["rg"; "cnpj"; "address"]
  /\ (forall doc_type image_path,
        lookup [("rg", "rg.jpg"); ("cnpj", "cnpj.jpg"); ("address", "")]
          doc_type = Some image_path ->
        lookup (process_all_documents loads_two_objects no_search no_findall
                  no_match sub_nothing in_order only_rg_file
                  default_retry_config (fun _ => answers_first_object)
                  [("rg", "rg.jpg"); ("cnpj", "cnpj.jpg"); ("address", "")])
          doc_type
        = Some (if nonempty image_path && only_rg_file image_path
                then final (process_document loads_two_objects no_search
                              no_findall no_match sub_nothing in_order
                              default_retry_config answers_first_object
                              image_path doc_type)
                else not_found_result doc_type)).
Proof.
  apply (batch_has_one_entry_per_document loads_two_objects no_search
           no_findall no_match sub_nothing in_order only_rg_file
           default_retry_config (fun _ => answers_first_object)
           [("rg", "rg.jpg"); ("cnpj", "cnpj.jpg"); ("address", "")]).
  repeat constructor; simpl; intuition discriminate.
Defined.

(** A valid CPF written with fullwidth digits: the utilities accept it, the
    request models refuse it. *)
Example fullwidth_cpf_verdicts :
  fst (Unicode.Utils.validate_cpf ascii_and_fullwidth fullwidth_cpf) = true
  /\ Unicode.Models.accepted
       (Unicode.Models.validate_cpf ascii_and_fullwidth fullwidth_cpf)
     = false.
Proof. split; vm_compute; reflexivity. Qed.

Example fullwidth_cnpj_verdicts :
  fst (Unicode.Utils.validate_cnpj ascii_and_fullwidth fullwidth_cnpj) = true
  /\ Unicode.Models.accepted
       (Unicode.Models.validate_cnpj ascii_and_fullwidth fullwidth_cnpj)
     = false.
Proof. split; vm_compute; reflexivity. Qed.

Lemma fullwidth_cpf_validators :
  Unicode.Models.accepted
    (Unicode.Models.validate_cpf ascii_and_fullwidth fullwidth_cpf)
  = negb (Unicode.nonempty fullwidth_cpf)
    || (fst (Unicode.Utils.validate_cpf ascii_and_fullwidth fullwidth_cpf)
        && ascii_digits
             (Unicode.slice 9 11
                (Unicode.digits_only ascii_and_fullwidth fullwidth_cpf)))
  /\ (ascii_digits (Unicode.digits_only ascii_and_fullwidth fullwidth_cpf)
      = true ->
      Unicode.Models.accepted
        (Unicode.Models.validate_cpf ascii_and_fullwidth fullwidth_cpf)
      = negb (Unicode.nonempty fullwidth_cpf)
        || fst (Unicode.Utils.validate_cpf ascii_and_fullwidth
                  fullwidth_cpf)).
Proof.
  apply (cpf_validators_agree ascii_and_fullwidth fullwidth_cpf).
  intros d H. do 10 (destruct d as [|d]; [reflexivity|]). lia.
Defined.

Lemma fullwidth_cnpj_validators :
  fst (Unicode.Utils.validate_cnpj ascii_and_fullwidth fullwidth_cnpj)
  && ascii_digits
       (Unicode.slice 12 14
          (Unicode.digits_only ascii_and_fullwidth fullwidth_cnpj))
  = Unicode.nonempty fullwidth_cnpj
    && Unicode.Models.accepted
         (Unicode.Models.validate_cnpj ascii_and_fullwidth fullwidth_cnpj)
    && negb (Unicode.one_distinct_char
               (Unicode.digits_only ascii_and_fullwidth fullwidth_cnpj))
  /\ (ascii_digits (Unicode.digits_only ascii_and_fullwidth fullwidth_cnpj)
      = true ->
      fst (Unicode.Utils.validate_cnpj ascii_and_fullwidth fullwidth_cnpj)
      = Unicode.nonempty fullwidth_cnpj
        && Unicode.Models.accepted
             (Unicode.Models.validate_cnpj ascii_and_fullwidth
                fullwidth_cnpj)
        && negb (Unicode.one_distinct_char
                   (Unicode.digits_only ascii_and_fullwidth
                      fullwidth_cnpj))).
Proof.
  apply (cnpj_validators_differ_on_repeated_digit ascii_and_fullwidth
           fullwidth_cnpj).
  intros d H. do 10 (destruct d as [|d]; [reflexivity|]). lia.
Defined.

Lemma progress_of_three_documents :
  (10 <= task_progress 1 3)%nat
  /\ (task_progress 1 3 <= task_progress 2 3)%nat
  /\ (task_progress 2 3 < 80)%nat.
Proof.
  apply (task_progress_bounds 1 2 3); lia.
Defined.
